(** * LiftLogger 3.0: the workout session view, the history detail page and
    the routine editor, embedded from the TypeScript sources.

    Modelling conventions.
    - A JavaScript [number] that the code stores, copies and compares (set
      numbers, repetitions, weights, target set counts, array positions) is
      modelled as [Z]. Set numbers, repetitions and counts are [INTEGER]
      columns. A weight is a [DECIMAL(10,2)] column: the [Z] of a weight
      field counts units of 1/[scale] of a pound, whole pounds for [scale] 1
      and hundredths for [scale] 100; copying and comparing are the same
      for every [scale].
    - Where the code adds and multiplies weights (the total volumes), the
      arithmetic is a parameter, [Number.Arith]: [Number.exact] computes
      with integers, [Number.binary64 scale] with the IEEE 754 double
      precision numbers of JavaScript, on the numbers that JSON delivers
      for the columns.
    - An optional field ([id?: string], [rpe?: number], [string | null]) is an
      [option].
    - A [Promise] that is awaited is modelled by its outcome ([promise]); an
      [async] handler takes the outcomes of the requests it awaits as
      arguments and returns the state it leaves behind.
    - A JavaScript [Map] is an association list in insertion order
      ([JsMap]); an object fetched from the map and mutated in place is
      written back under its key, which keeps its position.
    - [Array.prototype.sort] is stable; it is modelled by a stable insertion
      sort with the source's comparator.
    - A string is a [string] of one-byte characters; [length] counts them
      and [trim] removes the white space among them. *)

From stdpp Require Import base tactics option list numbers strings gmap sorting
  pretty.
From Stdlib Require Floats.PrimFloat Floats.SpecFloat Floats.FloatOps.

Local Open Scope Z_scope.

(** ** Awaited requests *)

Inductive promise (A : Type) : Type :=
  | Resolved (a : A)
  | Rejected (reason : string).
Arguments Resolved {A} a.
Arguments Rejected {A} reason.

(** ** The arithmetic of the totals *)

Module Number.

(** The numbers of a computation: the literal [0], [+], [*], and the
    numbers read from a weight field and from a repetitions field. *)
Record Arith := mkArith
  { num : Type;
    zero : num;
    add : num → num → num;
    mul : num → num → num;
    weight : Z → num;
    reps : Z → num }.

(** Integers, without rounding. *)
Definition exact : Arith := mkArith Z 0 Z.add Z.mul id id.



End Number.

(** ** src/lib/api.ts: the data that crosses the API boundary *)

Module Exercise.
Record t := mk
  { id : string; name : string; muscle_group : string; category : string }.
End Exercise.

Module RoutineExercise.
Record t := mk
  { id : string;
    exercise_id : string;
    exercise_name : string;
    order : Z;
    target_sets : Z;
    target_reps_min : Z;
    target_reps_max : Z }.
End RoutineExercise.

Module Routine.
Record t := mk
  { id : string;
    name : string;
    schedule_day_index : Z;
    exercises : list RoutineExercise.t }.
End Routine.

(** An element of [RoutineInput.exercises]. *)
Module RoutineInputExercise.
Record t := mk
  { exercise_id : string;
    order : Z;
    target_sets : Z;
    target_reps_min : Z;
    target_reps_max : Z }.
End RoutineInputExercise.

Module RoutineInput.
Record t := mk
  { name : string;
    schedule_day_index : Z;
    exercises : list RoutineInputExercise.t }.
End RoutineInput.

Module SetLog.
Record t := mk
  { exercise_id : string;
    set_number : Z;
    weight : Z;
    reps : Z;
    rpe : option Z }.
End SetLog.

(** An element of [workout_sets] in the answer of [getWorkout]. The joined
    [exercises] row is read with [?.] by the workout page, hence optional. *)
Module WorkoutSet.
Record t := mk
  { id : string;
    exercise_id : string;
    set_number : Z;
    weight : Z;
    reps : Z;
    rpe : option Z;
    exercises : option Exercise.t }.
End WorkoutSet.

(** The answer of [getWorkout]. *)
Module WorkoutDetail.
Record t := mk
  { id : string;
    start_time : string;
    end_time : option string;
    status : string;
    routine_name : option string;
    workout_sets : list WorkoutSet.t }.
End WorkoutDetail.

(** The answer of [getActiveWorkout] and of [startWorkout]. *)
Module Workout.
Record t := mk
  { id : string;
    start_time : string;
    end_time : option string;
    status : string;
    routine_name : option string }.
End Workout.

(** An element of the answer of [getExerciseHistory]. *)
Module HistoryEntry.
Record t := mk
  { weight : Z; reps : Z; set_number : Z; workouts_start_time : string }.
End HistoryEntry.

(** An element of the answer of [getHistory]. *)
Module WorkoutSummary.
Record t := mk
  { id : string;
    start_time : string;
    end_time : option string;
    routine_name : option string;
    total_volume : Z;
    total_sets : Z }.
End WorkoutSummary.

(** ** src/lib/api.ts: helpers *)

Module Api.

Definition DAY_NAMES : list string :=
  ["Sunday"; "Monday"; "Tuesday"; "Wednesday"; "Thursday"; "Friday"; "Saturday"].

(** [DAY_NAMES[index] || "Unknown"]: an index that is negative or beyond the
    array reads [undefined]. *)
Definition getDayName (index : Z) : string :=
  match (if decide (0 ≤ index) then DAY_NAMES !! Z.to_nat index else None) with
  | Some name => if bool_decide (name = EmptyString) then "Unknown" else name
  | None => "Unknown"
  end.

(** [s.padStart(target, "0")] *)
Fixpoint zeros (n : nat) : string :=
  match n with
  | O => EmptyString
  | S n' => "0" +:+ zeros n'
  end.

Definition padStart0 (target : nat) (s : string) : string :=
  zeros (target - String.length s) +:+ s.

(** The body shared by [formatDuration], from [diff] on. [%] is the
    remainder of the truncated division, [toString] the decimal notation. *)
Definition formatSeconds (diff : Z) : string :=
  let hours := diff `div` 3600 in
  let minutes := (diff `rem` 3600) `div` 60 in
  let seconds := diff `rem` 60 in
  if decide (hours > 0) then
    pretty hours +:+ ":" +:+ padStart0 2 (pretty minutes) +:+ ":"
      +:+ padStart0 2 (pretty seconds)
  else
    pretty minutes +:+ ":" +:+ padStart0 2 (pretty seconds).

(** [formatDuration(startTime, endTime)], given what [getTime()] returns for
    the two dates and for the current time, in milliseconds. *)
Definition formatDuration (start : Z) (endTime : option Z) (now : Z) : string :=
  let end_ := match endTime with Some e => e | None => now end in
  let diff := (end_ - start) `div` 1000 in
  formatSeconds diff.

End Api.

(** ** src/components/workout-timer.tsx *)

Module WorkoutTimer.

(** [Math.floor((now - start) / 1000)] *)
Definition elapsed (start now : Z) : Z := (now - start) `div` 1000.

Definition formatTime (seconds : Z) : string :=
  let hours := seconds `div` 3600 in
  let minutes := (seconds `rem` 3600) `div` 60 in
  let secs := seconds `rem` 60 in
  if decide (hours > 0) then
    pretty hours +:+ ":" +:+ Api.padStart0 2 (pretty minutes) +:+ ":"
      +:+ Api.padStart0 2 (pretty secs)
  else
    pretty minutes +:+ ":" +:+ Api.padStart0 2 (pretty secs).

End WorkoutTimer.

(** ** src/app/dashboard/page.tsx *)

Module DashboardPage.

(** The state variables of the component. *)
Record State := mkState
  { loading : bool;
    activeWorkout : option Workout.t;
    todayRoutine : option Routine.t;
    starting : bool }.

(** The values given to [useState]. *)
Definition initialState : State := mkState true None None false.

(** [routines.find((r) => r.schedule_day_index === today) || null] *)
Definition routineOfDay (today : Z) (routines : list Routine.t)
  : option Routine.t :=
  snd <$> list_find (λ r, Routine.schedule_day_index r = today) routines.

(** Lines 22-38: [load], with the outcomes of the two requests. Both are
    sent; [Promise.all] is rejected when one of them is, and then neither
    state variable is set. [finally] clears [loading]. *)
Definition load (today : Z) (st : State)
    (getActiveWorkout : promise (option Workout.t))
    (listRoutines : promise (list Routine.t)) : State :=
  match getActiveWorkout, listRoutines with
  | Resolved workout, Resolved routines =>
      mkState false workout (routineOfDay today routines) (starting st)
  | _, _ => mkState false (activeWorkout st) (todayRoutine st) (starting st)
  end.

End DashboardPage.

(** ** The history page (app/history/page.tsx) *)

Module HistoryPage.

Record State := mkState
  { loading : bool;
    workouts : list WorkoutSummary.t;
    loadingMore : bool;
    hasMore : bool }.

Definition initialState : State := mkState true [] false true.

(** The arguments of a call of [getHistory]. *)
Record HistoryCall := mkHistoryCall { limit : Z; offset : Z }.

(** [loadHistory], with the outcome of [getHistory(20, 0)]. *)
Definition loadHistory (st : State) (getHistory : promise (list WorkoutSummary.t))
  : State * HistoryCall :=
  (match getHistory with
   | Resolved data =>
       mkState false data (loadingMore st) (bool_decide (length data = 20%nat))
   | Rejected _ => mkState false (workouts st) (loadingMore st) (hasMore st)
   end,
   mkHistoryCall 20 0).

(** [loadMore], with the outcome of [getHistory(20, workouts.length)]. *)
Definition loadMore (st : State) (getHistory : promise (list WorkoutSummary.t))
  : State * HistoryCall :=
  (match getHistory with
   | Resolved data =>
       mkState (loading st) (workouts st ++ data) false
               (bool_decide (length data = 20%nat))
   | Rejected _ => mkState (loading st) (workouts st) false (hasMore st)
   end,
   mkHistoryCall 20 (Z.of_nat (length (workouts st)))).

End HistoryPage.

(** ** supabase/schema.sql: the two columns of [workouts] that tie a session
    to its routine. [getWorkout] hands only [routine_name] to the client. *)

Module WorkoutRow.
Record t := mk
  { routine_id : option string;     (* REFERENCES routines(id) *)
    routine_name : option string }. (* snapshot of the name at start *)
End WorkoutRow.

(** ** JavaScript [Map<string, V>] *)

Module JsMap.
Section JsMap.
Context {V : Type}.

Definition t := list (string * V).

Definition empty : t := [].

Fixpoint get (m : t) (k : string) : option V :=
  match m with
  | [] => None
  | (k', v) :: m' => if decide (k' = k) then Some v else get m' k
  end.

(** [Map.prototype.set]: an existing key keeps its position and takes
    the new value, a new key goes last. *)
Fixpoint set (m : t) (k : string) (v : V) : t :=
  match m with
  | [] => [(k, v)]
  | (k', v') :: m' =>
      if decide (k' = k) then (k, v) :: m' else (k', v') :: set m' k v
  end.

Definition keys (m : t) : list string := m.*1.
Definition values (m : t) : list V := m.*2.
End JsMap.
Arguments t : clear implicits.
End JsMap.

(** ** src/app/workout/[id]/page.tsx *)

Module PreviousBest.
Record t := mk { weight : Z; reps : Z }.
End PreviousBest.

Module SetData.
Record t := mk
  { id : option string;
    set_number : Z;
    weight : Z;
    reps : Z;
    rpe : option Z;
    logged : bool }.

Definition with_weight (v : Z) (s : t) : t :=
  mk (id s) (set_number s) v (reps s) (rpe s) (logged s).
Definition with_reps (v : Z) (s : t) : t :=
  mk (id s) (set_number s) (weight s) v (rpe s) (logged s).
Definition with_logged (b : bool) (s : t) : t :=
  mk (id s) (set_number s) (weight s) (reps s) (rpe s) b.
End SetData.

Module ExerciseData.
Record t := mk
  { exercise_id : string;
    exercise_name : string;
    sets : list SetData.t;
    previousBest : option PreviousBest.t;
    expanded : bool }.

Definition with_sets (l : list SetData.t) (e : t) : t :=
  mk (exercise_id e) (exercise_name e) l (previousBest e) (expanded e).
Definition with_previousBest (b : option PreviousBest.t) (e : t) : t :=
  mk (exercise_id e) (exercise_name e) (sets e) b (expanded e).
Definition with_expanded (b : bool) (e : t) : t :=
  mk (exercise_id e) (exercise_name e) (sets e) (previousBest e) b.
End ExerciseData.

Module WorkoutPage.

(** The [workout] state variable. *)
Record WorkoutInfo := mkWorkoutInfo
  { info_id : string;
    info_start_time : string;
    info_routine_name : option string;
    info_status : string }.

(** The state variables of the component that the handlers below read or
    write, and the route the page was last sent to by [router.push]. *)
Record State := mkState
  { loading : bool;
    workout : option WorkoutInfo;
    exercises : list ExerciseData.t;
    showAddExercise : bool;
    searchQuery : string;
    searchResults : list Exercise.t;
    searching : bool;
    pushed : option string }.

(** The values given to [useState]. *)
Definition initialState : State :=
  mkState true None [] false EmptyString [] false None.

Definition set_exercises (l : list ExerciseData.t) (st : State) : State :=
  mkState (loading st) (workout st) l (showAddExercise st) (searchQuery st)
          (searchResults st) (searching st) (pushed st).

(** A string is truthy unless it is empty. *)
Definition truthy (s : string) : bool := negb (bool_decide (s = EmptyString)).

(** [Array.from({ length: target_sets }, (_, i) => ({ set_number: i + 1,
    weight: 0, reps: 0, logged: false }))]. A negative length counts as 0. *)
Definition placeholderSets (target_sets : Z) : list SetData.t :=
  (λ i : nat, SetData.mk None (Z.of_nat i + 1) 0 0 None false)
    <$> seq 0 (Z.to_nat target_sets).

Definition seedExercise (ex : RoutineExercise.t) : ExerciseData.t :=
  ExerciseData.mk (RoutineExercise.exercise_id ex)
                  (RoutineExercise.exercise_name ex)
                  (placeholderSets (RoutineExercise.target_sets ex))
                  None false.

(** [for (const ex of routine.exercises) exerciseMap.set(ex.exercise_id, ...)] *)
Definition seedFromRoutine (routine : Routine.t) : JsMap.t ExerciseData.t :=
  fold_left (λ m ex, JsMap.set m (RoutineExercise.exercise_id ex) (seedExercise ex))
            (Routine.exercises routine) JsMap.empty.

(** [routines.find(r => r.name === data.routine_name)] *)
Definition findRoutine (routine_name : string) (routines : list Routine.t)
  : option Routine.t :=
  snd <$> list_find (λ r, Routine.name r = routine_name) routines.

(** Lines 84-105: the map before the logged sets are added. [listRoutines]
    is awaited only when the session carries a routine name. *)
Definition seedExerciseMap (routine_name : option string)
    (listRoutines : promise (list Routine.t))
  : promise (JsMap.t ExerciseData.t) :=
  match routine_name with
  | None => Resolved JsMap.empty
  | Some n =>
      if truthy n then
        match listRoutines with
        | Rejected e => Rejected e
        | Resolved routines =>
            match findRoutine n routines with
            | Some routine => Resolved (seedFromRoutine routine)
            | None => Resolved JsMap.empty
            end
        end
      else Resolved JsMap.empty
  end.

(** The entry written for a persisted set. *)
Definition loggedSet (set : WorkoutSet.t) : SetData.t :=
  SetData.mk (Some (WorkoutSet.id set)) (WorkoutSet.set_number set)
             (WorkoutSet.weight set) (WorkoutSet.reps set)
             (WorkoutSet.rpe set) true.

(** [exercise.sets.findIndex(s => s.set_number === n)] *)
Definition findSetIndex (n : Z) (sets : list SetData.t) : option nat :=
  fst <$> list_find (λ s, SetData.set_number s = n) sets.

(** Lines 122-142: update or add the set. *)
Definition upsertSet (sets : list SetData.t) (set : WorkoutSet.t)
  : list SetData.t :=
  match findSetIndex (WorkoutSet.set_number set) sets with
  | Some i => <[i := loggedSet set]> sets
  | None => sets ++ [loggedSet set]
  end.

(** [set.exercises?.name || "Unknown"] *)
Definition joinedName (set : WorkoutSet.t) : string :=
  match WorkoutSet.exercises set with
  | Some e => if truthy (Exercise.name e) then Exercise.name e else "Unknown"
  | None => "Unknown"
  end.

(** Lines 108-143, one iteration. The exercise object is shared with the
    map, so the update of its [sets] is written back under its key. *)
Definition overlaySet (m : JsMap.t ExerciseData.t) (set : WorkoutSet.t)
  : JsMap.t ExerciseData.t :=
  let exerciseId := WorkoutSet.exercise_id set in
  let '(m1, exercise) :=
    match JsMap.get m exerciseId with
    | Some exercise => (m, exercise)
    | None =>
        let exercise :=
          ExerciseData.mk exerciseId (joinedName set) [] None false in
        (JsMap.set m exerciseId exercise, exercise)
    end in
  JsMap.set m1 exerciseId
    (ExerciseData.with_sets (upsertSet (ExerciseData.sets exercise) set) exercise).

(** [sets.sort((a, b) => a.set_number - b.set_number)] *)
Fixpoint insertSet (a : SetData.t) (l : list SetData.t) : list SetData.t :=
  match l with
  | [] => [a]
  | b :: l' =>
      if decide (SetData.set_number a - SetData.set_number b ≤ 0)
      then a :: b :: l' else b :: insertSet a l'
  end.

Definition sortSets (l : list SetData.t) : list SetData.t :=
  foldr insertSet [] l.

(** [ex.sets.every(s => s.logged)] *)
Definition everyLogged (ex : ExerciseData.t) : bool :=
  forallb SetData.logged (ExerciseData.sets ex).

(** Lines 147-154: sort the sets of each exercise in turn and stop at the
    first exercise that has an unlogged set, which is expanded. The
    exercises after it are not visited. *)
Fixpoint sortAndExpand (l : list ExerciseData.t) : list ExerciseData.t :=
  match l with
  | [] => []
  | ex :: rest =>
      let ex1 := ExerciseData.with_sets (sortSets (ExerciseData.sets ex)) ex in
      if everyLogged ex1 then ex1 :: sortAndExpand rest
      else ExerciseData.with_expanded true ex1 :: rest
  end.

(** [history.reduce((max, s) => s.weight > max.weight ? s : max, history[0])] *)
Definition bestOf (first : HistoryEntry.t) (history : list HistoryEntry.t)
  : HistoryEntry.t :=
  fold_left (λ max s,
               if decide (HistoryEntry.weight s > HistoryEntry.weight max)
               then s else max)
            history first.

(** Lines 160-170, one iteration: a rejected fetch is caught and ignored. *)
Definition fetchPreviousBest
    (getExerciseHistory : string → promise (list HistoryEntry.t))
    (ex : ExerciseData.t) : ExerciseData.t :=
  match getExerciseHistory (ExerciseData.exercise_id ex) with
  | Resolved (first :: rest) =>
      let best := bestOf first (first :: rest) in
      ExerciseData.with_previousBest
        (Some (PreviousBest.mk (HistoryEntry.weight best) (HistoryEntry.reps best)))
        ex
  | Resolved [] => ex
  | Rejected _ => ex
  end.

(** Lines 107-172: the view built from the answers. [data.workout_sets || []]
    is the array itself. *)
Definition reconcile (data : WorkoutDetail.t) (seed : JsMap.t ExerciseData.t)
    (getExerciseHistory : string → promise (list HistoryEntry.t))
  : list ExerciseData.t :=
  let exerciseMap := fold_left overlaySet (WorkoutDetail.workout_sets data) seed in
  let exerciseArray := sortAndExpand (JsMap.values exerciseMap) in
  fetchPreviousBest getExerciseHistory <$> exerciseArray.

(** [catch (error) { router.push("/dashboard") } finally { setLoading(false) }] *)
Definition failLoad (st : State) : State :=
  mkState false (workout st) (exercises st) (showAddExercise st)
          (searchQuery st) (searchResults st) (searching st)
          (Some "/dashboard").

Definition loadWorkout (st : State)
    (getWorkout : promise WorkoutDetail.t)
    (listRoutines : promise (list Routine.t))
    (getExerciseHistory : string → promise (list HistoryEntry.t)) : State :=
  match getWorkout with
  | Rejected _ => failLoad st
  | Resolved data =>
      let info :=
        mkWorkoutInfo (WorkoutDetail.id data) (WorkoutDetail.start_time data)
                      (WorkoutDetail.routine_name data) (WorkoutDetail.status data) in
      let st1 :=
        mkState (loading st) (Some info) (exercises st) (showAddExercise st)
                (searchQuery st) (searchResults st) (searching st) (pushed st) in
      match seedExerciseMap (WorkoutDetail.routine_name data) listRoutines with
      | Rejected _ => failLoad st1
      | Resolved seed =>
          mkState false (Some info) (reconcile data seed getExerciseHistory)
                  (showAddExercise st) (searchQuery st) (searchResults st)
                  (searching st) (pushed st)
      end
  end.

Definition mapExercise (exerciseId : string)
    (f : ExerciseData.t → ExerciseData.t) (l : list ExerciseData.t)
  : list ExerciseData.t :=
  (λ ex, if decide (ExerciseData.exercise_id ex ≠ exerciseId) then ex else f ex)
    <$> l.

Definition mapSet (setNumber : Z) (f : SetData.t → SetData.t)
    (l : list SetData.t) : list SetData.t :=
  (λ s, if decide (SetData.set_number s = setNumber) then f s else s) <$> l.

Definition toggleExercise (st : State) (exerciseId : string) : State :=
  set_exercises
    ((λ ex, if decide (ExerciseData.exercise_id ex = exerciseId)
            then ExerciseData.with_expanded (negb (ExerciseData.expanded ex)) ex
            else ex) <$> exercises st)
    st.

Inductive SetField := FieldWeight | FieldReps.

Definition updateSet (st : State) (exerciseId : string) (setNumber : Z)
    (field : SetField) (value : Z) : State :=
  set_exercises
    (mapExercise exerciseId
       (λ ex, ExerciseData.with_sets
                (mapSet setNumber
                   (match field with
                    | FieldWeight => SetData.with_weight value
                    | FieldReps => SetData.with_reps value
                    end)
                   (ExerciseData.sets ex))
                ex)
       (exercises st))
    st.

(** The requests a handler sends. *)
Inductive ApiCall :=
  | CallLogSet (workoutId : string) (data : SetLog.t)
  | CallSearchExercises (query : string).

(** Lines 200-223. [logSet] is the outcome of the request, if it is sent. *)
Definition handleLogSet (workoutId : string) (st : State)
    (exerciseId : string) (set : SetData.t) (logSet : promise ())
  : State * list ApiCall :=
  if decide (SetData.weight set ≤ 0 ∨ SetData.reps set ≤ 0) then (st, [])
  else
    let call :=
      CallLogSet workoutId
        (SetLog.mk exerciseId (SetData.set_number set) (SetData.weight set)
                   (SetData.reps set) None) in
    match logSet with
    | Resolved _ =>
        (set_exercises
           (mapExercise exerciseId
              (λ ex, ExerciseData.with_sets
                       (mapSet (SetData.set_number set) (SetData.with_logged true)
                               (ExerciseData.sets ex))
                       ex)
              (exercises st))
           st,
         [call])
    | Rejected _ => (st, [call])
    end.

(** [Math.max(0, ...ex.sets.map(s => s.set_number)) + 1] *)
Definition nextSetNumber (sets : list SetData.t) : Z :=
  foldr Z.max 0 (SetData.set_number <$> sets) + 1.

(** [x || 0] for an optional number [x]. *)
Definition orZero (x : option Z) : Z :=
  match x with
  | Some v => if decide (v = 0) then 0 else v
  | None => 0
  end.

(** The entry appended by [addSetToExercise]. *)
Definition addedSet (sets : list SetData.t) : SetData.t :=
  SetData.mk None (nextSetNumber sets)
             (orZero (SetData.weight <$> last sets))
             (orZero (SetData.reps <$> last sets))
             None false.

(** Lines 225-239. *)
Definition addSetToExercise (st : State) (exerciseId : string) : State :=
  set_exercises
    (mapExercise exerciseId
       (λ ex, ExerciseData.with_sets
                (ExerciseData.sets ex ++ [addedSet (ExerciseData.sets ex)]) ex)
       (exercises st))
    st.

(** Lines 241-258, when nothing else runs between the call and the answer.
    [searchExercises] is the outcome of the request, if it is sent. *)
Definition handleSearch (st : State) (query : string)
    (searchExercises : promise (list Exercise.t)) : State * list ApiCall :=
  if decide (String.length query < 2)%nat then
    (mkState (loading st) (workout st) (exercises st) (showAddExercise st)
             query [] (searching st) (pushed st),
     [])
  else
    let results :=
      match searchExercises with
      | Resolved results =>
          let existingIds : gset string :=
            list_to_set (ExerciseData.exercise_id <$> exercises st) in
          filter (λ r, Exercise.id r ∉ existingIds) results
      | Rejected _ => []
      end in
    (mkState (loading st) (workout st) (exercises st) (showAddExercise st)
             query results false (pushed st),
     [CallSearchExercises query]).

(** [handleSearch] as it runs when other handlers run before its request is
    answered. The handler is a closure of the render in which it was called:
    after the [await] it still reads the [exercises] of that render. *)
Record SearchInFlight := mkSearchInFlight
  { renderedExercises : list ExerciseData.t }.

(** Lines 242-249, up to the [await]. *)
Definition handleSearch_begin (st : State) (query : string)
  : State * option SearchInFlight * list ApiCall :=
  if decide (String.length query < 2)%nat then
    (mkState (loading st) (workout st) (exercises st) (showAddExercise st)
             query [] (searching st) (pushed st),
     None, [])
  else
    (mkState (loading st) (workout st) (exercises st) (showAddExercise st)
             query (searchResults st) true (pushed st),
     Some (mkSearchInFlight (exercises st)),
     [CallSearchExercises query]).

(** Lines 249-257, from the [await] on, in the state [st] of the page at
    that time. *)
Definition handleSearch_resume (st : State) (flight : SearchInFlight)
    (searchExercises : promise (list Exercise.t)) : State :=
  let results :=
    match searchExercises with
    | Resolved results =>
        let existingIds : gset string :=
          list_to_set (ExerciseData.exercise_id <$> renderedExercises flight) in
        filter (λ r, Exercise.id r ∉ existingIds) results
    | Rejected _ => []
    end in
  mkState (loading st) (workout st) (exercises st) (showAddExercise st)
          (searchQuery st) results false (pushed st).

(** [onClick={() => setShowAddExercise(true)}] of the button that opens the
    dialog. *)
Definition openAddExercise (st : State) : State :=
  mkState (loading st) (workout st) (exercises st) true (searchQuery st)
          (searchResults st) (searching st) (pushed st).

(** Lines 260-270. *)
Definition addExercise (st : State) (exercise : Exercise.t) : State :=
  mkState (loading st) (workout st)
          (exercises st ++
             [ExerciseData.mk (Exercise.id exercise) (Exercise.name exercise)
                [SetData.mk None 1 0 0 None false] None true])
          false EmptyString [] (searching st) (pushed st).

(** Lines 283-286. *)
Definition totalSetsLogged (exercises : list ExerciseData.t) : Z :=
  fold_left
    (λ sum ex, sum + Z.of_nat (length (filter (λ s, SetData.logged s = true)
                                              (ExerciseData.sets ex))))
    exercises 0.

(** Lines 288-294, computed with integers ([totalVolumeIn Number.exact]
    below). *)
Definition totalVolume (exercises : list ExerciseData.t) : Z :=
  fold_left
    (λ sum ex,
       sum + fold_left (λ setSum s, setSum + SetData.weight s * SetData.reps s)
               (filter (λ s, SetData.logged s = true) (ExerciseData.sets ex)) 0)
    exercises 0.

(** Lines 288-294, computed with the numbers of [A]. *)
Definition totalVolumeIn (A : Number.Arith) (exercises : list ExerciseData.t)
  : Number.num A :=
  fold_left
    (λ sum ex,
       Number.add A sum
         (fold_left
            (λ setSum s,
               Number.add A setSum
                 (Number.mul A (Number.weight A (SetData.weight s))
                               (Number.reps A (SetData.reps s))))
            (filter (λ s, SetData.logged s = true) (ExerciseData.sets ex))
            (Number.zero A)))
    exercises (Number.zero A).

(** The header of an exercise card:
    [{exercise.sets.filter(s => s.logged).length}/{exercise.sets.length} sets]. *)
Definition completion (ex : ExerciseData.t) : nat * nat :=
  (length (filter (λ s, SetData.logged s = true) (ExerciseData.sets ex)),
   length (ExerciseData.sets ex)).

(** What the user can do on the loaded page. A button that logs a set is
    rendered for the unlogged sets of the listed exercises, the button that
    adds an exercise for the entries of [searchResults]. *)
Inductive Event :=
  | ToggleExercise (exerciseId : string)
  | UpdateSet (exerciseId : string) (setNumber : Z) (field : SetField) (value : Z)
  | LogSet (exerciseId : string) (set : SetData.t) (logSet : promise ())
  | AddSet (exerciseId : string)
  | SearchExercises (query : string) (searchExercises : promise (list Exercise.t))
  | AddExercise (exercise : Exercise.t).

Definition offered (st : State) (ev : Event) : Prop :=
  match ev with
  | LogSet exerciseId set _ =>
      ∃ ex, ex ∈ exercises st ∧ ExerciseData.exercise_id ex = exerciseId ∧
            set ∈ ExerciseData.sets ex ∧ SetData.logged set = false
  | AddExercise exercise => exercise ∈ searchResults st
  | _ => True
  end.

Definition handle (workoutId : string) (st : State) (ev : Event) : State :=
  match ev with
  | ToggleExercise exerciseId => toggleExercise st exerciseId
  | UpdateSet exerciseId setNumber field value =>
      updateSet st exerciseId setNumber field value
  | LogSet exerciseId set logSet =>
      (handleLogSet workoutId st exerciseId set logSet).1
  | AddSet exerciseId => addSetToExercise st exerciseId
  | SearchExercises query searchExercises => (handleSearch st query searchExercises).1
  | AddExercise exercise => addExercise st exercise
  end.

(** The states of the page when every handler has run to its end before the
    next one starts: the component mounts, [loadWorkout] runs, and the user
    acts on what is rendered. *)
Inductive reachable (workoutId : string) : State → Prop :=
  | reachable_load getWorkout listRoutines getExerciseHistory :
      reachable workoutId
        (loadWorkout initialState getWorkout listRoutines getExerciseHistory)
  | reachable_handle st ev :
      reachable workoutId st → offered st ev →
      reachable workoutId (handle workoutId st ev).

End WorkoutPage.

(** ** The workout detail page of the history (app/history/[id]/page.tsx) *)

Module HistoryDetailPage.

(** [workout.workout_sets.reduce((sum, set) => sum + set.weight * set.reps, 0)],
    computed with the numbers of [A]. *)
Definition totalVolumeIn (A : Number.Arith) (workout_sets : list WorkoutSet.t)
  : Number.num A :=
  fold_left
    (λ sum set,
       Number.add A sum
         (Number.mul A (Number.weight A (WorkoutSet.weight set))
                       (Number.reps A (WorkoutSet.reps set))))
    workout_sets (Number.zero A).

(** A group of the page: the joined exercise row of the first set of an
    exercise and the sets of that exercise. *)
Record Group := mkGroup
  { exercise : option Exercise.t;
    sets : list WorkoutSet.t }.

(** Lines 66-77, one step of the [reduce]. The object [groups] is keyed by
    exercise ids, which are UUIDs: its own properties are listed in the order
    in which they were set, as in a [JsMap]. The group is shared with the
    object, so the [push] is written back under its key. *)
Definition groupStep (groups : JsMap.t Group) (set : WorkoutSet.t)
  : JsMap.t Group :=
  let exerciseId := WorkoutSet.exercise_id set in
  let '(groups1, group) :=
    match JsMap.get groups exerciseId with
    | Some group => (groups, group)
    | None =>
        let group := mkGroup (WorkoutSet.exercises set) [] in
        (JsMap.set groups exerciseId group, group)
    end in
  JsMap.set groups1 exerciseId (mkGroup (exercise group) (sets group ++ [set])).

(** [group.sets.sort((a, b) => a.set_number - b.set_number)] *)
Fixpoint insertBySetNumber (a : WorkoutSet.t) (l : list WorkoutSet.t)
  : list WorkoutSet.t :=
  match l with
  | [] => [a]
  | b :: l' =>
      if decide (WorkoutSet.set_number a - WorkoutSet.set_number b ≤ 0)
      then a :: b :: l' else b :: insertBySetNumber a l'
  end.

Definition sortBySetNumber (l : list WorkoutSet.t) : list WorkoutSet.t :=
  foldr insertBySetNumber [] l.

(** Lines 66-82: the groups, each with its sets sorted. *)
Definition exerciseSets (workout_sets : list WorkoutSet.t) : JsMap.t Group :=
  (λ kv : string * Group,
     (kv.1, mkGroup (exercise kv.2) (sortBySetNumber (sets kv.2))))
    <$> fold_left groupStep workout_sets JsMap.empty.

End HistoryDetailPage.

(** ** The routine editor (app/routines/page.tsx) *)

Module RoutineExerciseForm.
Record t := mk
  { exercise_id : string;
    exercise_name : string;
    order : Z;
    target_sets : Z;
    target_reps_min : Z;
    target_reps_max : Z }.

Definition with_order (o : Z) (e : t) : t :=
  mk (exercise_id e) (exercise_name e) o (target_sets e) (target_reps_min e)
     (target_reps_max e).
End RoutineExerciseForm.

Module RoutinesPage.

(** The form state read by [handleSave]. *)
Record FormState := mkFormState
  { editingRoutine : option Routine.t;
    formName : string;
    formDay : Z;
    formExercises : list RoutineExerciseForm.t }.

(** White space removed by [String.prototype.trim], for the characters a
    one-byte [ascii] can hold: tab, line feed, vertical tab, form feed,
    carriage return and space. *)
Definition isWhiteSpace (c : Ascii.ascii) : bool :=
  bool_decide (Ascii.nat_of_ascii c ∈ [9; 10; 11; 12; 13; 32]%nat).

Fixpoint trimStart (s : string) : string :=
  match s with
  | EmptyString => EmptyString
  | String c s' => if isWhiteSpace c then trimStart s' else s
  end.

Definition trim (s : string) : string :=
  String.rev (trimStart (String.rev (trimStart s))).

(** [formName.trim()] as a condition. *)
Definition truthy_trim (s : string) : bool :=
  negb (bool_decide (trim s = EmptyString)).

(** [formExercises.map((e, i) => ({ exercise_id: e.exercise_id, order: i, ... }))] *)
Definition inputExercise (i : nat) (e : RoutineExerciseForm.t)
  : RoutineInputExercise.t :=
  RoutineInputExercise.mk
    (RoutineExerciseForm.exercise_id e) (Z.of_nat i)
    (RoutineExerciseForm.target_sets e)
    (RoutineExerciseForm.target_reps_min e)
    (RoutineExerciseForm.target_reps_max e).

Definition routineInput (st : FormState) : RoutineInput.t :=
  RoutineInput.mk (formName st) (formDay st)
                  (imap inputExercise (formExercises st)).

Inductive RoutineCall :=
  | CallCreateRoutine (data : RoutineInput.t)
  | CallUpdateRoutine (id : string) (data : RoutineInput.t).

(** Lines 140-169: the request sent by [handleSave], if any. *)
Definition handleSave (st : FormState) : option RoutineCall :=
  if truthy_trim (formName st) then
    Some match editingRoutine st with
         | Some routine => CallUpdateRoutine (Routine.id routine) (routineInput st)
         | None => CallCreateRoutine (routineInput st)
         end
  else None.

(** The state of the page: the routines, the dialog and its form, and the
    exercise search of the dialog. *)
Record Page := mkPage
  { routines : list Routine.t;
    dialogOpen : bool;
    form : FormState;
    searchQuery : string;
    searchResults : list Exercise.t;
    searching : bool }.

(** The values given to [useState]. *)
Definition initialPage : Page :=
  mkPage [] false (mkFormState None EmptyString 1 []) EmptyString [] false.

Definition with_formExercises (l : list RoutineExerciseForm.t) (p : Page) : Page :=
  mkPage (routines p) (dialogOpen p)
         (mkFormState (editingRoutine (form p)) (formName (form p))
                      (formDay (form p)) l)
         (searchQuery p) (searchResults p) (searching p).

(** [loadRoutines], with the outcome of [listRoutines()]. *)
Definition loadRoutines (p : Page) (listRoutines : promise (list Routine.t)) : Page :=
  match listRoutines with
  | Resolved data =>
      mkPage data (dialogOpen p) (form p) (searchQuery p) (searchResults p)
             (searching p)
  | Rejected _ => p
  end.

Definition openCreateDialog (p : Page) : Page :=
  mkPage (routines p) true (mkFormState None EmptyString 1 [])
         (searchQuery p) (searchResults p) (searching p).

(** [setFormName] and [setFormDay], called by the inputs of the dialog and,
    for the day, by the button of a rest day. *)
Definition setFormName (p : Page) (name : string) : Page :=
  mkPage (routines p) (dialogOpen p)
         (mkFormState (editingRoutine (form p)) name (formDay (form p))
                      (formExercises (form p)))
         (searchQuery p) (searchResults p) (searching p).

Definition setFormDay (p : Page) (day : Z) : Page :=
  mkPage (routines p) (dialogOpen p)
         (mkFormState (editingRoutine (form p)) (formName (form p)) day
                      (formExercises (form p)))
         (searchQuery p) (searchResults p) (searching p).

Definition formExercise (ex : RoutineExercise.t) : RoutineExerciseForm.t :=
  RoutineExerciseForm.mk
    (RoutineExercise.exercise_id ex) (RoutineExercise.exercise_name ex)
    (RoutineExercise.order ex) (RoutineExercise.target_sets ex)
    (RoutineExercise.target_reps_min ex) (RoutineExercise.target_reps_max ex).

Definition openEditDialog (p : Page) (routine : Routine.t) : Page :=
  mkPage (routines p) true
         (mkFormState (Some routine) (Routine.name routine)
                      (Routine.schedule_day_index routine)
                      (formExercise <$> Routine.exercises routine))
         (searchQuery p) (searchResults p) (searching p).

(** The requests of the handlers below. *)
Inductive PageCall :=
  | CallSearchExercises (query : string)
  | CallDeleteRoutine (id : string).

(** [handleSearch], with the outcome of [searchExercises(query)] if it is
    called. The answer is taken as it is. *)
Definition handleSearch (p : Page) (query : string)
    (searchExercises : promise (list Exercise.t)) : Page * list PageCall :=
  if decide (String.length query < 2)%nat then
    (mkPage (routines p) (dialogOpen p) (form p) query [] (searching p), [])
  else
    (mkPage (routines p) (dialogOpen p) (form p) query
            (match searchExercises with
             | Resolved results => results
             | Rejected _ => []
             end)
            false,
     [CallSearchExercises query]).

Definition addExercise (p : Page) (exercise : Exercise.t) : Page :=
  let formExercises := formExercises (form p) in
  match list_find (λ e, RoutineExerciseForm.exercise_id e = Exercise.id exercise)
                  formExercises with
  | Some _ => p
  | None =>
      mkPage (routines p) (dialogOpen p)
             (mkFormState (editingRoutine (form p)) (formName (form p))
                          (formDay (form p))
                          (formExercises ++
                             [RoutineExerciseForm.mk
                                (Exercise.id exercise) (Exercise.name exercise)
                                (Z.of_nat (length formExercises)) 3 8 12]))
             EmptyString [] (searching p)
  end.

Definition removeExercise (p : Page) (exerciseId : string) : Page :=
  with_formExercises
    (filter (λ e, RoutineExerciseForm.exercise_id e ≠ exerciseId)
            (formExercises (form p)))
    p.

Inductive TargetField := FieldTargetSets | FieldTargetRepsMin | FieldTargetRepsMax.

Definition with_target (field : TargetField) (value : Z)
    (e : RoutineExerciseForm.t) : RoutineExerciseForm.t :=
  match field with
  | FieldTargetSets =>
      RoutineExerciseForm.mk
        (RoutineExerciseForm.exercise_id e) (RoutineExerciseForm.exercise_name e)
        (RoutineExerciseForm.order e) value
        (RoutineExerciseForm.target_reps_min e) (RoutineExerciseForm.target_reps_max e)
  | FieldTargetRepsMin =>
      RoutineExerciseForm.mk
        (RoutineExerciseForm.exercise_id e) (RoutineExerciseForm.exercise_name e)
        (RoutineExerciseForm.order e) (RoutineExerciseForm.target_sets e)
        value (RoutineExerciseForm.target_reps_max e)
  | FieldTargetRepsMax =>
      RoutineExerciseForm.mk
        (RoutineExerciseForm.exercise_id e) (RoutineExerciseForm.exercise_name e)
        (RoutineExerciseForm.order e) (RoutineExerciseForm.target_sets e)
        (RoutineExerciseForm.target_reps_min e) value
  end.

Definition updateExerciseTargets (p : Page) (exerciseId : string)
    (field : TargetField) (value : Z) : Page :=
  with_formExercises
    ((λ e, if decide (RoutineExerciseForm.exercise_id e = exerciseId)
           then with_target field value e else e)
       <$> formExercises (form p))
    p.

(** [handleDelete], with the answer to [confirm] and the outcome of
    [deleteRoutine(id)] if it is called. *)
Definition handleDelete (p : Page) (id : string) (confirmed : bool)
    (deleteRoutine : promise ()) : Page * list PageCall :=
  if confirmed then
    (match deleteRoutine with
     | Resolved _ =>
         mkPage (filter (λ r, Routine.id r ≠ id) (routines p)) (dialogOpen p)
                (form p) (searchQuery p) (searchResults p) (searching p)
     | Rejected _ => p
     end,
     [CallDeleteRoutine id])
  else (p, []).

(** A row of [routinesByDay]. *)
Record DayRoutines := mkDayRoutines
  { day : string; index : nat; dayRoutines : list Routine.t }.

(** [DAY_NAMES.map((day, index) => ({ day, index, routines:
    routines.filter((r) => r.schedule_day_index === index) }))] *)
Definition routinesByDay (routines : list Routine.t) : list DayRoutines :=
  imap (λ index day,
          mkDayRoutines day index
            (filter (λ r, Routine.schedule_day_index r = Z.of_nat index) routines))
       Api.DAY_NAMES.

(** What the user can do on the page. The button that edits or deletes is
    rendered for the routines of the page, the button that adds an exercise
    for the entries of [searchResults]. *)
Inductive Event :=
  | LoadRoutines (listRoutines : promise (list Routine.t))
  | OpenCreate
  | OpenEdit (routine : Routine.t)
  | SetName (name : string)
  | SetDay (day : Z)
  | SearchExercises (query : string) (searchExercises : promise (list Exercise.t))
  | AddExercise (exercise : Exercise.t)
  | RemoveExercise (exerciseId : string)
  | UpdateTargets (exerciseId : string) (field : TargetField) (value : Z)
  | Delete (id : string) (confirmed : bool) (deleteRoutine : promise ()).

Definition offered (p : Page) (ev : Event) : Prop :=
  match ev with
  | OpenEdit routine => routine ∈ routines p
  | AddExercise exercise => exercise ∈ searchResults p
  | _ => True
  end.

Definition handle (p : Page) (ev : Event) : Page :=
  match ev with
  | LoadRoutines listRoutines => loadRoutines p listRoutines
  | OpenCreate => openCreateDialog p
  | OpenEdit routine => openEditDialog p routine
  | SetName name => setFormName p name
  | SetDay day => setFormDay p day
  | SearchExercises query searchExercises => (handleSearch p query searchExercises).1
  | AddExercise exercise => addExercise p exercise
  | RemoveExercise exerciseId => removeExercise p exerciseId
  | UpdateTargets exerciseId field value =>
      updateExerciseTargets p exerciseId field value
  | Delete id confirmed deleteRoutine => (handleDelete p id confirmed deleteRoutine).1
  end.

End RoutinesPage.

(** * Vocabulary of the statements, and the inputs of the examples *)

Import WorkoutPage.

(** Every entry is filed under its own exercise id, collapsed and without a
    hint, and its set numbers are pairwise distinct. *)
Definition entryOk (k : string) (ex : ExerciseData.t) : Prop :=
  ExerciseData.exercise_id ex = k ∧
  ExerciseData.expanded ex = false ∧
  ExerciseData.previousBest ex = None ∧
  NoDup (SetData.set_number <$> ExerciseData.sets ex).

Definition mapOk (m : JsMap.t ExerciseData.t) : Prop :=
  NoDup (JsMap.keys m) ∧ Forall (λ kv, entryOk kv.1 kv.2) m.

(** Entry [i] of the view is expanded exactly when it has an unlogged set and
    every entry before it is fully logged. *)
Definition firstIncompleteExpanded (v : list ExerciseData.t) : Prop :=
  ∀ (i : nat) (ex : ExerciseData.t),
    v !! i = Some ex →
    (ExerciseData.expanded ex = true ↔
     everyLogged ex = false ∧
     ∀ (j : nat) (ex' : ExerciseData.t),
       (j < i)%nat → v !! j = Some ex' → everyLogged ex' = true).

(** The sets of an exercise are in ascending order of their numbers. *)
Definition setsSorted (ex : ExerciseData.t) : Prop :=
  StronglySorted (λ a b, SetData.set_number a ≤ SetData.set_number b)
                 (ExerciseData.sets ex).

(** The example of the specification: a routine with A (3 target sets) and
    B (2 target sets), both sets of B logged. *)
Module ExampleAB.
Definition routine : Routine.t :=
  Routine.mk "r1" "Push" 1
    [RoutineExercise.mk "re1" "A" "Squat" 0 3 8 12;
     RoutineExercise.mk "re2" "B" "Bench Press" 1 2 8 12].

Definition data : WorkoutDetail.t :=
  WorkoutDetail.mk "w1" "2025-01-06T10:00:00Z" None "in_progress" (Some "Push")
    [WorkoutSet.mk "s1" "B" 1 100 10 None None;
     WorkoutSet.mk "s2" "B" 2 80 12 None None].

(** What the card header of an exercise shows. *)
Definition header (ex : ExerciseData.t) : string * bool * (nat * nat) :=
  (ExerciseData.exercise_id ex, ExerciseData.expanded ex, completion ex).

Definition view (h : string → promise (list HistoryEntry.t))
  : list ExerciseData.t :=
  exercises (loadWorkout initialState (Resolved data) (Resolved [routine]) h).
End ExampleAB.

(** The map with one entry per exercise of the routine, in list order. *)
Definition routineSeed (r : Routine.t) : JsMap.t ExerciseData.t :=
  (λ ex, (RoutineExercise.exercise_id ex, seedExercise ex)) <$> Routine.exercises r.

(** The routine a session was started from, by the [routine_id] column of its
    row. *)
Definition originatingRoutine (row : WorkoutRow.t) (routines : list Routine.t)
    (r : Routine.t) : Prop :=
  r ∈ routines ∧ WorkoutRow.routine_id row = Some (Routine.id r).

(** C2 as stated: whenever the session has an originating routine, the map is
    seeded from that routine's exercise list. *)
Definition seedsFromOriginatingRoutine (row : WorkoutRow.t)
    (routines : list Routine.t) (r : Routine.t) : Prop :=
  originatingRoutine row routines r →
  seedExerciseMap (WorkoutRow.routine_name row) (Resolved routines)
  = Resolved (routineSeed r).

(** A session started from routine "r1" while it was named "Push"; the
    routine has been renamed to "Push Day" since. *)
Module Renamed.
Definition pushDay : Routine.t :=
  Routine.mk "r1" "Push Day" 1 [RoutineExercise.mk "re1" "bench" "Bench Press" 0 3 8 12].
Definition sessionRow : WorkoutRow.t := WorkoutRow.mk (Some "r1") (Some "Push").
End Renamed.

(** A routine with A and B, one target set each. Two further sets of B were
    added and logged, set 3 before set 2; nothing is logged for A. *)
Module LaterExercise.
Definition plan : Routine.t :=
  Routine.mk "r1" "Push" 1
    [RoutineExercise.mk "re1" "A" "Squat" 0 1 8 12;
     RoutineExercise.mk "re2" "B" "Bench Press" 1 1 8 12].

Definition answer : WorkoutDetail.t :=
  WorkoutDetail.mk "w1" "2025-01-06T10:00:00Z" None "in_progress" (Some "Push")
    [WorkoutSet.mk "s1" "B" 3 100 10 None None;
     WorkoutSet.mk "s2" "B" 2 80 12 None None].

Definition setNumbers (ex : ExerciseData.t) : string * list Z :=
  (ExerciseData.exercise_id ex, SetData.set_number <$> ExerciseData.sets ex).
End LaterExercise.

Definition sumZ (l : list Z) : Z := foldr Z.add 0 l.

(** The key under which the store keeps a logged set of a session. *)
Definition setKey (set : WorkoutSet.t) : string * Z :=
  (WorkoutSet.exercise_id set, WorkoutSet.set_number set).

Definition setVolume (s : SetData.t) : Z :=
  if SetData.logged s then SetData.weight s * SetData.reps s else 0.

Definition exerciseVolume (ex : ExerciseData.t) : Z :=
  sumZ (setVolume <$> ExerciseData.sets ex).

(** The logged entries of the map stem from the sets overlaid so far. *)
Definition loggedWithin (overlaid : list WorkoutSet.t)
    (m : JsMap.t ExerciseData.t) : Prop :=
  Forall (λ kv, Forall (λ s, SetData.logged s = true →
                             (kv.1, SetData.set_number s) ∈ setKey <$> overlaid)
                       (ExerciseData.sets kv.2)) m.

Definition mapVolume (m : JsMap.t ExerciseData.t) : Z :=
  sumZ (exerciseVolume <$> JsMap.values m).

(** The seed has no logged entry. *)
Definition unloggedEntry (k : string) (ex : ExerciseData.t) : Prop :=
  Forall (λ s, SetData.logged s = false) (ExerciseData.sets ex).

(** [best] sits in [history] with only strictly lighter entries before it and
    no heavier entry after it. *)
Definition firstMaximum (history : list HistoryEntry.t) (best : HistoryEntry.t)
  : Prop :=
  ∃ l1 l2, history = l1 ++ best :: l2 ∧
           Forall (λ s, HistoryEntry.weight s < HistoryEntry.weight best) l1 ∧
           Forall (λ s, HistoryEntry.weight s ≤ HistoryEntry.weight best) l2.

(** The array handed to the loop that fetches the histories. *)
Definition exerciseArray (data : WorkoutDetail.t) (seed : JsMap.t ExerciseData.t)
  : list ExerciseData.t :=
  sortAndExpand (JsMap.values (fold_left overlaySet (WorkoutDetail.workout_sets data) seed)).

(** [m] is the largest set number of [sets]. *)
Definition maxSetNumber (sets : list SetData.t) (m : Z) : Prop :=
  m ∈ SetData.set_number <$> sets ∧
  Forall (λ n, n ≤ m) (SetData.set_number <$> sets).

(** C7 as stated, for the exercise [ex] and what it has become: one entry is
    appended, numbered one more than the largest set number of [ex], with the
    weight and repetitions of the set before it, not logged. *)
Definition addsSetAsStated (ex ex' : ExerciseData.t) : Prop :=
  ∃ m prev s,
    maxSetNumber (ExerciseData.sets ex) m ∧
    last (ExerciseData.sets ex) = Some prev ∧
    ex' = ExerciseData.with_sets (ExerciseData.sets ex ++ [s]) ex ∧
    SetData.set_number s = m + 1 ∧
    SetData.weight s = SetData.weight prev ∧
    SetData.reps s = SetData.reps prev ∧
    SetData.logged s = false.

(** What [addSetToExercise] does to the exercise [ex]. *)
Definition addsSet (ex ex' : ExerciseData.t) : Prop :=
  ∃ s,
    ex' = ExerciseData.with_sets (ExerciseData.sets ex ++ [s]) ex ∧
    (* numbered max(0, set numbers) + 1 *)
    (let n := SetData.set_number s - 1 in
     0 ≤ n ∧ Forall (λ k, k ≤ n) (SetData.set_number <$> ExerciseData.sets ex) ∧
     (n = 0 ∨ n ∈ SetData.set_number <$> ExerciseData.sets ex)) ∧
    (* filled from the last entry, if any *)
    match last (ExerciseData.sets ex) with
    | Some prev =>
        SetData.weight s = SetData.weight prev ∧ SetData.reps s = SetData.reps prev
    | None => SetData.weight s = 0 ∧ SetData.reps s = 0
    end ∧
    SetData.logged s = false.

(** A quick workout in which a set of "A" was stored under the number -1. *)
Module BelowZero.
Definition quickWorkout : WorkoutDetail.t :=
  WorkoutDetail.mk "w1" "2025-01-06T10:00:00Z" None "in_progress" None
    [WorkoutSet.mk "s1" "A" (-1) 50 5 None None].

Definition state : State :=
  loadWorkout initialState (Resolved quickWorkout) (Resolved []) (λ _, Resolved []).

Definition before : ExerciseData.t :=
  ExerciseData.mk "A" "Unknown" [SetData.mk (Some "s1") (-1) 50 5 None true]
                  None false.

Definition after : ExerciseData.t :=
  ExerciseData.mk "A" "Unknown"
    [SetData.mk (Some "s1") (-1) 50 5 None true; SetData.mk None 1 50 5 None false]
    None false.
End BelowZero.

Definition viewOk (exs : list ExerciseData.t) : Prop :=
  NoDup (ExerciseData.exercise_id <$> exs) ∧
  Forall (λ ex, NoDup (SetData.set_number <$> ExerciseData.sets ex)) exs.

(** The view is in order and no search result is an exercise of the view. *)
Definition stateOk (st : State) : Prop :=
  viewOk (exercises st) ∧
  Forall (λ r, Exercise.id r ∉ ExerciseData.exercise_id <$> exercises st)
         (searchResults st).

(** A run of the page: the example session is loaded, "ro" is searched, and
    the result that is not in the view yet is added. *)
Module Run.
Definition barbellRow : Exercise.t := Exercise.mk "C" "Barbell Row" "Lats" "strength".
Definition squat : Exercise.t := Exercise.mk "A" "Squat" "Legs" "strength".

Definition opened : State :=
  loadWorkout initialState (Resolved ExampleAB.data)
              (Resolved [ExampleAB.routine]) (λ _, Resolved []).
Definition searched : State :=
  handle "w1" opened (SearchExercises "ro" (Resolved [squat; barbellRow])).
Definition added : State := handle "w1" searched (AddExercise barbellRow).
End Run.

(** The logged entries of one exercise and of a view, each with the id of
    its exercise. *)
Definition exerciseEntries (ex : ExerciseData.t) : list (string * SetData.t) :=
  (λ s, (ExerciseData.exercise_id ex, s))
    <$> filter (λ s, SetData.logged s = true) (ExerciseData.sets ex).

Definition loggedEntries (exs : list ExerciseData.t) : list (string * SetData.t) :=
  exs ≫= exerciseEntries.

(** The entries the persisted sets of a session stand for. *)
Definition persistedEntries (workout_sets : list WorkoutSet.t)
  : list (string * SetData.t) :=
  (λ set, (WorkoutSet.exercise_id set, loggedSet set)) <$> workout_sets.

(** The entry of a set list shown for a set number: the first with that
    number. *)
Definition findSet (n : Z) (sets : list SetData.t) : option SetData.t :=
  snd <$> list_find (λ s, SetData.set_number s = n) sets.

(** [keys] with [k] put last unless it is there already. *)
Definition appendNew (keys : list string) (k : string) : list string :=
  if decide (k ∈ keys) then keys else keys ++ [k].

(** The groups of the history detail page while the sets are put in: keys in
    the order of first occurrence, each group holding the sets of its
    exercise in the order in which they came, under the joined row of the
    first of them. *)
Definition groupOk (processed : list WorkoutSet.t) (k : string)
    (g : HistoryDetailPage.Group) : Prop :=
  HistoryDetailPage.sets g = filter (λ s, WorkoutSet.exercise_id s = k) processed ∧
  ∃ s rest, HistoryDetailPage.sets g = s :: rest ∧
            HistoryDetailPage.exercise g = WorkoutSet.exercises s.

Definition groupsOk (processed : list WorkoutSet.t)
    (m : JsMap.t HistoryDetailPage.Group) : Prop :=
  JsMap.keys m = fold_left appendNew (WorkoutSet.exercise_id <$> processed) [] ∧
  NoDup (JsMap.keys m) ∧
  Forall (λ s, WorkoutSet.exercise_id s ∈ JsMap.keys m) processed ∧
  Forall (λ kv, groupOk processed kv.1 kv.2) m ∧
  JsMap.values m ≫= HistoryDetailPage.sets ≡ₚ processed.

(** The routine editor is in order: the routines of the page have pairwise
    distinct exercises each, and so has the form. *)
Definition editorOk (p : RoutinesPage.Page) : Prop :=
  Forall (λ r, NoDup (RoutineExercise.exercise_id <$> Routine.exercises r))
         (RoutinesPage.routines p) ∧
  NoDup (RoutineExerciseForm.exercise_id
           <$> RoutinesPage.formExercises (RoutinesPage.form p)).

(** The body of a request of [handleSave]. *)
Definition callData (call : RoutinesPage.RoutineCall) : RoutineInput.t :=
  match call with
  | RoutinesPage.CallCreateRoutine data => data
  | RoutinesPage.CallUpdateRoutine _ data => data
  end.

(** What a server that holds the sessions [all], newest first, answers to a
    request of the history page: the [limit] sessions from [offset] on. *)
Definition historySlice (all : list WorkoutSummary.t) (call : HistoryPage.HistoryCall)
  : list WorkoutSummary.t :=
  take (Z.to_nat (HistoryPage.limit call)) (drop (Z.to_nat (HistoryPage.offset call)) all).

(** The outcome [reply] of the request that [step] makes in the state [st]
    is a failure or the slice that was asked for. *)
Definition served (all : list WorkoutSummary.t)
    (step : HistoryPage.State → promise (list WorkoutSummary.t)
            → HistoryPage.State * HistoryPage.HistoryCall)
    (st : HistoryPage.State) (reply : promise (list WorkoutSummary.t)) : Prop :=
  match reply with
  | Resolved data => data = historySlice all (step st reply).2
  | Rejected _ => True
  end.

(** The page shows the first sessions of [all], and all of them once it no
    longer offers to load more. *)
Definition historyOk (all : list WorkoutSummary.t) (st : HistoryPage.State) : Prop :=
  HistoryPage.workouts st = take (length (HistoryPage.workouts st)) all ∧
  (HistoryPage.hasMore st = false → HistoryPage.workouts st = all).

(** The fields of a clock that shows a number of seconds. *)
Definition clockHours (seconds : Z) : Z := seconds `div` 3600.
Definition clockMinutes (seconds : Z) : Z := (seconds `mod` 3600) `div` 60.
Definition clockSeconds (seconds : Z) : Z := seconds `mod` 60.

(** A field written with two digits. *)
Definition twoDigits (field : Z) : string := Api.padStart0 2 (pretty field).

(** The factors of the products that a total adds: the weight and the
    repetitions of the logged sets of an exercise, in the order of its list;
    of all exercises of a view, exercise by exercise; and of the persisted
    sets of a session. *)
Definition loggedSummands (sets : list SetData.t) : list (Z * Z) :=
  (λ s, (SetData.weight s, SetData.reps s))
    <$> filter (λ s, SetData.logged s = true) sets.

Definition viewSummands (exs : list ExerciseData.t) : list (Z * Z) :=
  exs ≫= λ ex, loggedSummands (ExerciseData.sets ex).


(** The product of a weight and a number of repetitions, and the sum of
    products from left to right, starting from 0. *)
Definition productIn (A : Number.Arith) (wr : Z * Z) : Number.num A :=
  Number.mul A (Number.weight A wr.1) (Number.reps A wr.2).

Definition sumIn (A : Number.Arith) (l : list (Number.num A)) : Number.num A :=
  fold_left (Number.add A) l (Number.zero A).

Definition sumOfProducts (A : Number.Arith) (l : list (Z * Z)) : Number.num A :=
  sumIn A (productIn A <$> l).

(** An arithmetic without rounding: addition is associative and commutative,
    and adding 0 changes nothing. *)
Definition exactArith (A : Number.Arith) : Prop :=
  (∀ a b c, Number.add A a (Number.add A b c) = Number.add A (Number.add A a b) c) ∧
  (∀ a b, Number.add A a b = Number.add A b a) ∧
  (∀ a, Number.add A (Number.zero A) a = a).


(** A quick workout with three sets of one repetition, of 0.30 pounds for
    exercise A and of 0.20 and 0.10 pounds for exercise B; the weights are
    counted in hundredths. *)
Module Fractional.
Definition answer : WorkoutDetail.t :=
  WorkoutDetail.mk "w1" "2025-01-06T10:00:00Z" None "in_progress" None
    [WorkoutSet.mk "s1" "A" 1 30 1 None None;
     WorkoutSet.mk "s2" "B" 1 20 1 None None;
     WorkoutSet.mk "s3" "B" 2 10 1 None None].

Definition view : list ExerciseData.t :=
  exercises (loadWorkout initialState (Resolved answer) (Resolved [])
                         (λ _, Resolved [])).
End Fractional.

(** A quick workout whose two rows, (100,10) and (80,12) in whole pounds,
    carry the same exercise and the same set number. *)
Module SameKey.
Definition answer : WorkoutDetail.t :=
  WorkoutDetail.mk "w1" "2025-01-06T10:00:00Z" None "in_progress" None
    [WorkoutSet.mk "s1" "A" 1 100 10 None None;
     WorkoutSet.mk "s2" "A" 1 80 12 None None].

Definition view : list ExerciseData.t :=
  exercises (loadWorkout initialState (Resolved answer) (Resolved [])
                         (λ _, Resolved [])).
End SameKey.

(** Two searches that overlap. The example session is open with the
    exercises A and B, and the dialog is opened. "ro" is typed, then "row"
    before the first request is answered. The second request is answered
    first, with the exercise C, which is added. Then the first request is
    answered, with A and C; its continuation still holds the exercises of the
    render in which "ro" was typed. The dialog is opened again and C is
    added once more. *)
Module Overlap.
Definition flightOf (begun : State * option SearchInFlight * list ApiCall)
  : SearchInFlight :=
  default (mkSearchInFlight []) begun.1.2.

Definition opened : State := openAddExercise Run.opened.
Definition typedRo := handleSearch_begin opened "ro".
Definition typedRow := handleSearch_begin typedRo.1.1 "row".
Definition answeredRow : State :=
  handleSearch_resume typedRow.1.1 (flightOf typedRow) (Resolved [Run.barbellRow]).
Definition added : State := addExercise answeredRow Run.barbellRow.
Definition answeredRo : State :=
  handleSearch_resume added (flightOf typedRo)
                      (Resolved [Run.squat; Run.barbellRow]).
Definition reopened : State := openAddExercise answeredRo.
Definition addedAgain : State := addExercise reopened Run.barbellRow.
End Overlap.

(** * Properties *)

(** ** The insertion-ordered map *)

Section JsMapFacts.
Context {V : Type}.
Implicit Types (m : JsMap.t V) (k : string) (v : V).

Lemma JsMap_get_None m k : JsMap.get m k = None ↔ k ∉ JsMap.keys m.
Proof.
  unfold JsMap.keys. induction m as [|[k' v'] m IH]; simpl.
  - split; [intros _; apply not_elem_of_nil | done].
  - case_decide; subst.
    + split; [done | intros H; exfalso; apply H; left].
    + rewrite IH, not_elem_of_cons.
      split; [intros ?; split; [congruence | done] | by intros [_ ?]].
Qed.

Lemma JsMap_set_absent m k v :
  JsMap.get m k = None → JsMap.set m k v = m ++ [(k, v)].
Proof.
  induction m as [|[k' v'] m IH]; simpl; [done|].
  case_decide; [done|]. intros H'. by rewrite IH.
Qed.

Lemma JsMap_set_present m k v v0 :
  JsMap.get m k = Some v0 →
  ∃ m1 m2, m = m1 ++ ((k, v0) :: m2) ∧ (k ∉ JsMap.keys m1) ∧
           JsMap.set m k v = m1 ++ ((k, v) :: m2).
Proof.
  induction m as [|[k' v'] m IH]; simpl; [done|].
  case_decide; subst.
  - intros [= ->]. exists [], m. split_and!; [done | apply not_elem_of_nil | done].
  - intros Hget. destruct (IH Hget) as (m1 & m2 & -> & Hk & ->).
    exists ((k', v') :: m1), m2. split_and!; [done | | done].
    unfold JsMap.keys in *. simpl. rewrite not_elem_of_cons. done.
Qed.

Lemma JsMap_set_snoc m k v v' :
  k ∉ JsMap.keys m → JsMap.set (m ++ [(k, v)]) k v' = m ++ [(k, v')].
Proof.
  unfold JsMap.keys. induction m as [|[k0 v0] m IH]; simpl.
  - intros _. by rewrite decide_True.
  - rewrite not_elem_of_cons. intros [Hne Hk].
    rewrite decide_False by done. by rewrite IH.
Qed.
End JsMapFacts.

(** ** Sorting the sets of an exercise *)

Lemma insertSet_Permutation a l : insertSet a l ≡ₚ a :: l.
Proof.
  induction l as [|b l IH]; simpl; [done|].
  case_decide; [done|]. rewrite IH. apply Permutation_swap.
Qed.

Lemma sortSets_Permutation l : sortSets l ≡ₚ l.
Proof.
  induction l as [|a l IH]; simpl; [done|].
  by rewrite insertSet_Permutation, IH.
Qed.

Lemma forallb_Permutation {A} (f : A → bool) (l1 l2 : list A) :
  l1 ≡ₚ l2 → forallb f l1 = forallb f l2.
Proof.
  induction 1 as [|x l1 l2 _ IH|x y l|l1 l2 l3 _ IH1 _ IH2]; simpl.
  - done.
  - by rewrite IH.
  - destruct (f x), (f y); done.
  - by rewrite IH1.
Qed.

Lemma everyLogged_sortSets ex :
  everyLogged (ExerciseData.with_sets (sortSets (ExerciseData.sets ex)) ex)
  = everyLogged ex.
Proof. unfold everyLogged. simpl. apply forallb_Permutation, sortSets_Permutation. Qed.

Lemma insertSet_sorted a l :
  StronglySorted (λ a b, SetData.set_number a ≤ SetData.set_number b) l →
  StronglySorted (λ a b, SetData.set_number a ≤ SetData.set_number b) (insertSet a l).
Proof.
  induction 1 as [|b l Hl IH Hb]; simpl.
  - apply SSorted_cons; [apply SSorted_nil | apply Forall_nil_2].
  - case_decide as Hle.
    + apply SSorted_cons; [by apply SSorted_cons|].
      apply Forall_cons. split; [lia|].
      eapply Forall_impl; [exact Hb|]. intros c Hc. simpl in Hc. lia.
    + apply SSorted_cons; [done|].
      rewrite insertSet_Permutation. apply Forall_cons. split; [lia | done].
Qed.

Lemma sortSets_sorted l :
  StronglySorted (λ a b, SetData.set_number a ≤ SetData.set_number b) (sortSets l).
Proof.
  induction l as [|a l IH]; simpl; [apply SSorted_nil | by apply insertSet_sorted].
Qed.

(** The loop sorts the sets of an exercise when every exercise before it is
    fully logged; the exercises after the first incomplete one are handed on
    as they came. *)
Lemma sortAndExpand_sorted_prefix l :
  ∀ (i : nat) (ex : ExerciseData.t),
    sortAndExpand l !! i = Some ex →
    (∀ (j : nat) (ex' : ExerciseData.t),
       (j < i)%nat → l !! j = Some ex' → everyLogged ex' = true) →
    setsSorted ex.
Proof.
  induction l as [|e l IH]; intros i ex Hi Hprev; [done|].
  cbn [sortAndExpand] in Hi.
  pose proof (everyLogged_sortSets e) as Hsort.
  destruct (everyLogged (ExerciseData.with_sets _ e)) eqn:Hev.
  - destruct i as [|i]; simpl in Hi.
    + simplify_eq. apply sortSets_sorted.
    + apply (IH i ex Hi). intros j ex' Hj Hex'. apply (Hprev (S j) ex'); [lia | done].
  - destruct i as [|i]; simpl in Hi.
    + simplify_eq. apply sortSets_sorted.
    + specialize (Hprev 0%nat e ltac:(lia) eq_refl). congruence.
Qed.

(** ** What one overlay step does to the map *)

Lemma upsertSet_cases sets set :
  (Forall (λ s, SetData.set_number s ≠ WorkoutSet.set_number set) sets ∧
   upsertSet sets set = sets ++ [loggedSet set])
  ∨ (∃ l1 t l2,
       sets = l1 ++ (t :: l2) ∧
       SetData.set_number t = WorkoutSet.set_number set ∧
       Forall (λ s, SetData.set_number s ≠ WorkoutSet.set_number set) l1 ∧
       upsertSet sets set = l1 ++ (loggedSet set :: l2)).
Proof.
  unfold upsertSet, findSetIndex.
  destruct (list_find _ sets) as [[i t]|] eqn:Hfind; simpl.
  - right. apply list_find_Some in Hfind as (Hi & Hn & Hbefore).
    exists (take i sets), t, (drop (S i) sets).
    assert (Hsplit : sets = take i sets ++ t :: drop (S i) sets)
      by (symmetry; by apply take_drop_middle).
    split_and!; [done | done | |].
    + apply Forall_lookup. intros j y Hj.
      pose proof (lookup_lt_Some _ _ _ Hj) as Hlt.
      rewrite length_take in Hlt.
      rewrite lookup_take_lt in Hj by lia.
      apply (Hbefore j y Hj). lia.
    + apply insert_take_drop. by apply lookup_lt_Some in Hi.
  - left. apply list_find_None in Hfind. done.
Qed.

Lemma overlaySet_cases m set :
  let k := WorkoutSet.exercise_id set in
  ((k ∉ JsMap.keys m) ∧
   overlaySet m set =
     m ++ [(k, ExerciseData.mk k (joinedName set) [loggedSet set] None false)])
  ∨ (∃ m1 ex m2,
       m = m1 ++ ((k, ex) :: m2) ∧ (k ∉ JsMap.keys m1) ∧
       overlaySet m set =
         m1 ++ (k, ExerciseData.with_sets (upsertSet (ExerciseData.sets ex) set) ex)
            :: m2).
Proof.
  intros k. unfold overlaySet. fold k.
  destruct (JsMap.get m k) as [ex|] eqn:Hget.
  - right. destruct (JsMap_set_present m k
      (ExerciseData.with_sets (upsertSet (ExerciseData.sets ex) set) ex) ex Hget)
      as (m1 & m2 & -> & Hk & Hset).
    exists m1, ex, m2. done.
  - left. pose proof Hget as Hk. apply JsMap_get_None in Hk. split; [done|].
    rewrite (JsMap_set_absent _ _ _ Hget).
    rewrite JsMap_set_snoc by done. done.
Qed.

Section JsMapInvariants.
Context {V : Type}.
Implicit Types (m : JsMap.t V) (k : string) (v : V).

Lemma JsMap_set_cases m k v :
  ((k ∉ JsMap.keys m) ∧ JsMap.set m k v = m ++ [(k, v)])
  ∨ (∃ m1 v0 m2, m = m1 ++ ((k, v0) :: m2) ∧ (k ∉ JsMap.keys m1) ∧
                 JsMap.set m k v = m1 ++ ((k, v) :: m2)).
Proof.
  destruct (JsMap.get m k) as [v0|] eqn:Hget.
  - right. destruct (JsMap_set_present m k v v0 Hget) as (m1 & m2 & ? & ? & ?).
    by exists m1, v0, m2.
  - left. split; [by apply JsMap_get_None | by apply JsMap_set_absent].
Qed.

Lemma JsMap_keys_app m1 m2 :
  JsMap.keys (m1 ++ m2) = JsMap.keys m1 ++ JsMap.keys m2.
Proof. unfold JsMap.keys. apply fmap_app. Qed.

Lemma JsMap_values_app m1 m2 :
  JsMap.values (m1 ++ m2) = JsMap.values m1 ++ JsMap.values m2.
Proof. unfold JsMap.values. apply fmap_app. Qed.

Lemma JsMap_set_keys_NoDup m k v :
  NoDup (JsMap.keys m) → NoDup (JsMap.keys (JsMap.set m k v)).
Proof.
  intros Hnd.
  destruct (JsMap_set_cases m k v) as [[Hk ->]|(m1 & v0 & m2 & -> & _ & ->)].
  - rewrite JsMap_keys_app. apply NoDup_app. split_and!; [done | | ].
    + by intros x Hx ->%list_elem_of_singleton.
    + apply NoDup_singleton.
  - by rewrite JsMap_keys_app in *.
Qed.

Lemma JsMap_set_Forall (P : string → V → Prop) m k v :
  Forall (λ kv, P kv.1 kv.2) m → P k v →
  Forall (λ kv, P kv.1 kv.2) (JsMap.set m k v).
Proof.
  intros Hm Hv.
  destruct (JsMap_set_cases m k v) as [[Hk ->]|(m1 & v0 & m2 & -> & _ & ->)].
  - apply Forall_app. split; [done|]. by apply Forall_singleton.
  - apply Forall_app in Hm as [H1 H2]. apply Forall_cons in H2 as [_ H2].
    apply Forall_app. split; [done|]. by apply Forall_cons.
Qed.
End JsMapInvariants.

(** ** Invariants of the map while the view is built *)

Lemma placeholderSets_numbers n :
  SetData.set_number <$> placeholderSets n
  = (λ i : nat, Z.of_nat i + 1) <$> seq 0 (Z.to_nat n).
Proof. unfold placeholderSets. rewrite <- list_fmap_compose. done. Qed.

Lemma placeholderSets_NoDup n :
  NoDup (SetData.set_number <$> placeholderSets n).
Proof.
  rewrite placeholderSets_numbers.
  apply NoDup_fmap_2_strong; [intros i j _ _ ?; lia | apply NoDup_seq].
Qed.

Lemma seedFromRoutine_ok routine : mapOk (seedFromRoutine routine).
Proof.
  unfold seedFromRoutine.
  assert (Hgen : ∀ l m, mapOk m →
    mapOk (fold_left (λ m ex, JsMap.set m (RoutineExercise.exercise_id ex)
                                         (seedExercise ex)) l m)).
  { induction l as [|ex l IH]; simpl; [done|]. intros m [Hnd Hall]. apply IH.
    split; [by apply JsMap_set_keys_NoDup|].
    apply (JsMap_set_Forall entryOk); [done|].
    split_and!; [done | done | done | apply placeholderSets_NoDup]. }
  apply Hgen. split; [apply NoDup_nil_2 | apply Forall_nil_2].
Qed.

Lemma seedExerciseMap_ok routine_name listRoutines seed :
  seedExerciseMap routine_name listRoutines = Resolved seed → mapOk seed.
Proof.
  unfold seedExerciseMap. intros H.
  assert (Hempty : mapOk (JsMap.empty (V:=ExerciseData.t)))
    by (split; [apply NoDup_nil_2 | apply Forall_nil_2]).
  destruct routine_name as [n|]; [|by simplify_eq].
  destruct (truthy n); [|by simplify_eq].
  destruct listRoutines as [routines|]; [|done].
  destruct (findRoutine n routines); simplify_eq; [apply seedFromRoutine_ok | done].
Qed.

Lemma upsertSet_NoDup sets set :
  NoDup (SetData.set_number <$> sets) →
  NoDup (SetData.set_number <$> upsertSet sets set).
Proof.
  intros Hnd.
  destruct (upsertSet_cases sets set) as [[Hne ->]|(l1 & t & l2 & -> & Ht & _ & ->)].
  - rewrite fmap_app. apply NoDup_app. split_and!; [done | | apply NoDup_singleton].
    intros n Hn ->%list_elem_of_singleton.
    apply list_elem_of_fmap in Hn as (s & Hs & Hin).
    rewrite Forall_forall in Hne. by apply (Hne s Hin).
  - rewrite fmap_app, fmap_cons in *. simpl. by rewrite <- Ht.
Qed.

Lemma overlaySet_ok m set : mapOk m → mapOk (overlaySet m set).
Proof.
  intros [Hnd Hall].
  destruct (overlaySet_cases m set) as [[Hk ->]|(m1 & ex & m2 & -> & Hk & ->)].
  - split.
    + rewrite JsMap_keys_app. apply NoDup_app. split_and!; [done | | apply NoDup_singleton].
      by intros x Hx ->%list_elem_of_singleton.
    + apply Forall_app. split; [done|]. apply Forall_singleton.
      split_and!; [done | done | done |]. simpl. apply NoDup_singleton.
  - split; [by rewrite JsMap_keys_app in * |].
    apply Forall_app in Hall as [H1 H2]. apply Forall_cons in H2 as [Hex H2].
    apply Forall_app. split; [done|]. apply Forall_cons. split; [|done].
    destruct Hex as (? & ? & ? & ?). split_and!; [done | done | done |].
    simpl. by apply upsertSet_NoDup.
Qed.

Lemma overlay_fold_ok sets m : mapOk m → mapOk (fold_left overlaySet sets m).
Proof.
  revert m. induction sets as [|set sets IH]; simpl; [done|].
  intros m Hm. by apply IH, overlaySet_ok.
Qed.

Lemma mapOk_values m :
  mapOk m →
  NoDup (ExerciseData.exercise_id <$> JsMap.values m) ∧
  Forall (λ ex, ExerciseData.expanded ex = false ∧
                ExerciseData.previousBest ex = None ∧
                NoDup (SetData.set_number <$> ExerciseData.sets ex))
         (JsMap.values m).
Proof.
  intros [Hnd Hall]. split.
  - assert (Heq : ExerciseData.exercise_id <$> JsMap.values m = JsMap.keys m).
    { clear Hnd. unfold JsMap.values, JsMap.keys.
      induction Hall as [|[k ex] m [Hid _] _ IH]; [done|].
      rewrite !fmap_cons, IH. simpl in *. by rewrite Hid. }
    by rewrite Heq.
  - unfold JsMap.values. apply Forall_fmap. eapply Forall_impl; [exact Hall|].
    intros [k ex] (? & ? & ? & ?). done.
Qed.

(** ** What the loop that sorts and expands leaves behind *)

Lemma sortAndExpand_first l :
  Forall (λ ex, ExerciseData.expanded ex = false) l →
  firstIncompleteExpanded (sortAndExpand l).
Proof.
  induction l as [|ex l IH]; intros Hall i ex' Hi; [done|].
  apply Forall_cons in Hall as [Hex Hall]. cbn [sortAndExpand] in Hi |- *.
  pose proof (everyLogged_sortSets ex) as Hsort.
  destruct (everyLogged (ExerciseData.with_sets _ ex)) eqn:Hev.
  - destruct i as [|i]; simpl in Hi.
    + simplify_eq. simpl. rewrite Hex, Hev. split; [done | by intros [? _]].
    + rewrite (IH Hall i ex' Hi). split.
      * intros [Hf Hprev]. split; [done|].
        intros [|j] e Hj He; simpl in He; [by simplify_eq|].
        apply (Hprev j e); [lia | done].
      * intros [Hf Hprev]. split; [done|].
        intros j e Hj He. apply (Hprev (S j) e); [lia | done].
  - destruct i as [|i]; simpl in Hi.
    + simplify_eq. simpl. split; [|done]. intros _. split; [exact Hev|].
      intros j e Hj. lia.
    + assert (Hcollapsed : ExerciseData.expanded ex' = false).
      { rewrite Forall_lookup in Hall. by apply (Hall i). }
      rewrite Hcollapsed. split; [done|]. intros [_ Hprev].
      specialize (Hprev 0%nat _ ltac:(lia) eq_refl).
      unfold everyLogged in Hprev, Hev. simpl in Hprev, Hev. congruence.
Qed.

Lemma firstIncompleteExpanded_fmap (f : ExerciseData.t → ExerciseData.t) v :
  (∀ ex, ExerciseData.expanded (f ex) = ExerciseData.expanded ex ∧
         everyLogged (f ex) = everyLogged ex) →
  firstIncompleteExpanded v → firstIncompleteExpanded (f <$> v).
Proof.
  intros Hf Hv i ex Hi. rewrite list_lookup_fmap in Hi.
  destruct (v !! i) as [ex0|] eqn:Hi0; simplify_eq/=.
  destruct (Hf ex0) as [-> ->]. rewrite (Hv i ex0 Hi0).
  split; intros [Hinc Hprev]; (split; [done|]); intros j e Hj He.
  - rewrite list_lookup_fmap in He.
    destruct (v !! j) as [e0|] eqn:Hj0; simplify_eq/=.
    destruct (Hf e0) as [_ ->]. by apply (Hprev j).
  - destruct (Hf e) as [_ <-]. apply (Hprev j); [done|].
    by rewrite list_lookup_fmap, He.
Qed.

Lemma fetchPreviousBest_fields h ex :
  ExerciseData.exercise_id (fetchPreviousBest h ex) = ExerciseData.exercise_id ex ∧
  ExerciseData.exercise_name (fetchPreviousBest h ex) = ExerciseData.exercise_name ex ∧
  ExerciseData.sets (fetchPreviousBest h ex) = ExerciseData.sets ex ∧
  ExerciseData.expanded (fetchPreviousBest h ex) = ExerciseData.expanded ex.
Proof.
  unfold fetchPreviousBest.
  destruct (h (ExerciseData.exercise_id ex)) as [[|first rest]|]; done.
Qed.

Lemma fetchPreviousBest_everyLogged h ex :
  everyLogged (fetchPreviousBest h ex) = everyLogged ex.
Proof.
  unfold everyLogged.
  by destruct (fetchPreviousBest_fields h ex) as (_ & _ & -> & _).
Qed.

Lemma reconcile_first data seed h :
  mapOk seed → firstIncompleteExpanded (reconcile data seed h).
Proof.
  intros Hseed. unfold reconcile. apply firstIncompleteExpanded_fmap.
  - intros ex. split; [apply fetchPreviousBest_fields | apply fetchPreviousBest_everyLogged].
  - apply sortAndExpand_first.
    apply (overlay_fold_ok (WorkoutDetail.workout_sets data)) in Hseed.
    apply mapOk_values in Hseed as [_ Hall].
    eapply Forall_impl; [exact Hall|]. by intros ex (? & _).
Qed.

Lemma header_fetchPreviousBest h ex :
  ExampleAB.header (fetchPreviousBest h ex) = ExampleAB.header ex.
Proof.
  unfold ExampleAB.header, completion.
  by destruct (fetchPreviousBest_fields h ex) as (-> & _ & -> & ->).
Qed.

(** C1. In the view built by [loadWorkout], an exercise is expanded exactly
    when it is the first one, in the order of the map, with a set that is not
    logged; so none is expanded when all are fully logged. For the routine
    with A (3 target sets, none logged) and B (2 target sets, both logged),
    A is expanded, B is collapsed, and the counts are 0/3 and 2/2. *)
Theorem loadWorkout_expands_first_incomplete :
  (∀ getWorkout listRoutines getExerciseHistory,
     firstIncompleteExpanded
       (exercises (loadWorkout initialState getWorkout listRoutines
                               getExerciseHistory)))
  ∧ (∀ getExerciseHistory,
       ExampleAB.header <$> ExampleAB.view getExerciseHistory
       = [("A", true, (0%nat, 3%nat)); ("B", false, (2%nat, 2%nat))]).
Proof.
  split.
  - intros getWorkout listRoutines h. unfold loadWorkout.
    destruct getWorkout as [data|]; [|done].
    destruct (seedExerciseMap _ listRoutines) as [seed|] eqn:Hseed; [|done].
    simpl. apply reconcile_first. by eapply seedExerciseMap_ok.
  - intros h. unfold ExampleAB.view, loadWorkout. simpl.
    rewrite !header_fetchPreviousBest. reflexivity.
Qed.

Lemma loadWorkout_expands_first_incomplete_witness :
  let v := ExampleAB.view (λ _, Resolved []) in
  ∃ exA, v !! 0%nat = Some exA ∧
    (ExerciseData.expanded exA = true ↔
     everyLogged exA = false ∧
     ∀ (j : nat) (ex' : ExerciseData.t),
       (j < 0)%nat → v !! j = Some ex' → everyLogged ex' = true).
Proof.
  eexists. split; [reflexivity|].
  apply (proj1 loadWorkout_expands_first_incomplete
           (Resolved ExampleAB.data) (Resolved [ExampleAB.routine])
           (λ _, Resolved []) 0%nat).
  reflexivity.
Defined.

(** ** Seeding the map from the routine *)

Lemma findRoutine_first n (l1 l2 : list Routine.t) r :
  Forall (λ r', Routine.name r' ≠ n) l1 → Routine.name r = n →
  findRoutine n (l1 ++ r :: l2) = Some r.
Proof.
  intros Hbefore Hname. unfold findRoutine.
  assert (Hfind : list_find (λ r', Routine.name r' = n) (l1 ++ r :: l2)
                  = Some (length l1, r)); [|by rewrite Hfind].
  apply list_find_Some. split_and!; [apply list_lookup_middle; done | done |].
  intros j y Hj Hlt. rewrite lookup_app_l in Hj by done.
  rewrite Forall_lookup in Hbefore. by apply (Hbefore j).
Qed.

Lemma findRoutine_none n (routines : list Routine.t) :
  Forall (λ r', Routine.name r' ≠ n) routines → findRoutine n routines = None.
Proof.
  intros Hall. unfold findRoutine.
  assert (Hfind : list_find (λ r', Routine.name r' = n) routines = None);
    [|by rewrite Hfind].
  by apply list_find_None.
Qed.

Lemma seed_fold_distinct (l : list RoutineExercise.t) (m : JsMap.t ExerciseData.t) :
  NoDup (JsMap.keys m ++ (RoutineExercise.exercise_id <$> l)) →
  fold_left (λ m ex, JsMap.set m (RoutineExercise.exercise_id ex) (seedExercise ex)) l m
  = m ++ ((λ ex, (RoutineExercise.exercise_id ex, seedExercise ex)) <$> l).
Proof.
  revert m. induction l as [|ex l IH]; intros m Hnd; simpl.
  - by rewrite app_nil_r.
  - rewrite fmap_cons in Hnd.
    assert (Hfresh : RoutineExercise.exercise_id ex ∉ JsMap.keys m).
    { apply NoDup_app in Hnd as (_ & Hdisj & _). intros Hin.
      apply (Hdisj _ Hin). left. }
    rewrite JsMap_set_absent by (by apply JsMap_get_None).
    rewrite IH.
    + by rewrite <- app_assoc.
    + rewrite JsMap_keys_app. simpl. by rewrite <- app_assoc.
Qed.

Lemma seedFromRoutine_distinct r :
  NoDup (RoutineExercise.exercise_id <$> Routine.exercises r) →
  seedFromRoutine r = routineSeed r.
Proof.
  intros Hnd. unfold seedFromRoutine, routineSeed.
  by rewrite seed_fold_distinct.
Qed.

Lemma placeholderSets_spec n :
  SetData.set_number <$> placeholderSets n = Z.of_nat <$> seq 1 (Z.to_nat n) ∧
  Forall (λ s, SetData.weight s = 0 ∧ SetData.reps s = 0 ∧
               SetData.logged s = false ∧ SetData.id s = None)
         (placeholderSets n) ∧
  (0 ≤ n → Z.of_nat (length (placeholderSets n)) = n).
Proof.
  split_and!.
  - rewrite placeholderSets_numbers, <- (fmap_S_seq 0), <- list_fmap_compose.
    apply list_fmap_ext. intros i x _. simpl. lia.
  - unfold placeholderSets. apply Forall_fmap, Forall_true. done.
  - intros Hn. unfold placeholderSets. rewrite length_fmap, length_seq. lia.
Qed.

(** C2, at the failing input. The session's row points to routine "r1",
    which is in the list under its new name "Push Day", yet the map is seeded
    from nothing: the lookup goes by the name snapshot "Push", and no routine
    carries that name any more. So the map is not seeded from the list of the
    originating routine. *)
Lemma seedExerciseMap_misses_renamed_routine :
  originatingRoutine Renamed.sessionRow [Renamed.pushDay] Renamed.pushDay ∧
  seedExerciseMap (WorkoutRow.routine_name Renamed.sessionRow) (Resolved [Renamed.pushDay])
  = Resolved [] ∧
  ¬ seedsFromOriginatingRoutine Renamed.sessionRow [Renamed.pushDay] Renamed.pushDay.
Proof.
  assert (Horigin : originatingRoutine Renamed.sessionRow [Renamed.pushDay] Renamed.pushDay)
    by (split; [left | reflexivity]).
  split_and!; [done | reflexivity |].
  intros Hclaim. specialize (Hclaim Horigin). vm_compute in Hclaim. discriminate.
Qed.

(** What the lookup by name finds. When the name snapshot of the session is
    a non-empty string, the map is seeded from the first routine of the list
    that carries this name: one entry per exercise of the routine, in list
    order (the exercise ids being pairwise distinct), each with placeholder
    sets numbered 1..target_sets, of weight 0 and 0 repetitions, not logged.
    When no routine of the list carries the name, the map starts empty. *)
Lemma seedExerciseMap_by_name (n : string) (before after : list Routine.t)
    (r : Routine.t) :
  n ≠ EmptyString →
  Forall (λ r', Routine.name r' ≠ n) before →
  (Routine.name r = n →
   NoDup (RoutineExercise.exercise_id <$> Routine.exercises r) →
   seedExerciseMap (Some n) (Resolved (before ++ r :: after)) = Resolved (routineSeed r) ∧
   JsMap.keys (routineSeed r) = RoutineExercise.exercise_id <$> Routine.exercises r ∧
   Forall2 (λ ex e,
              let sets := ExerciseData.sets e in
              ExerciseData.exercise_id e = RoutineExercise.exercise_id ex ∧
              SetData.set_number <$> sets
                = Z.of_nat <$> seq 1 (Z.to_nat (RoutineExercise.target_sets ex)) ∧
              Forall (λ s, SetData.weight s = 0 ∧ SetData.reps s = 0 ∧
                           SetData.logged s = false ∧ SetData.id s = None) sets ∧
              (0 ≤ RoutineExercise.target_sets ex →
               Z.of_nat (length sets) = RoutineExercise.target_sets ex))
           (Routine.exercises r) (JsMap.values (routineSeed r)))
  ∧ seedExerciseMap (Some n) (Resolved before) = Resolved [].
Proof.
  intros Hn Hbefore.
  assert (Htruthy : truthy n = true).
  { unfold truthy. by rewrite bool_decide_eq_false_2. }
  split.
  - intros Hname Hnd. split_and!.
    + unfold seedExerciseMap. rewrite Htruthy, findRoutine_first by done.
      by rewrite seedFromRoutine_distinct.
    + unfold JsMap.keys, routineSeed. by rewrite <- list_fmap_compose.
    + unfold JsMap.values, routineSeed. rewrite <- list_fmap_compose.
      apply Forall2_fmap_r, Forall2_same_length_lookup_2; [done|].
      intros i ex ex' Hex Hex'. simplify_eq. simpl.
      destruct (placeholderSets_spec (RoutineExercise.target_sets ex))
        as (? & ? & ?).
      done.
  - unfold seedExerciseMap. by rewrite Htruthy, findRoutine_none.
Qed.

Lemma seedExerciseMap_by_name_example :
  seedExerciseMap (Some "Push") (Resolved [Renamed.pushDay; ExampleAB.routine])
  = Resolved (routineSeed ExampleAB.routine).
Proof.
  apply (seedExerciseMap_by_name "Push" [Renamed.pushDay] [] ExampleAB.routine).
  - done.
  - apply Forall_singleton. done.
  - reflexivity.
  - apply (bool_decide_unpack _). vm_compute. exact I.
Defined.

(** ** Sorting stops at the first incomplete exercise *)

Lemma setNumbers_fetchPreviousBest h ex :
  LaterExercise.setNumbers (fetchPreviousBest h ex) = LaterExercise.setNumbers ex.
Proof.
  unfold LaterExercise.setNumbers.
  by destruct (fetchPreviousBest_fields h ex) as (-> & _ & -> & _).
Qed.

(** C3, at the failing input. The loop that sorts leaves at the first
    exercise with an unlogged set (A), so the sets of B stay in the order in
    which they were put: 1, 3, 2. *)
Theorem loadWorkout_leaves_later_sets_unsorted :
  ∀ getExerciseHistory,
    LaterExercise.setNumbers <$>
      exercises (loadWorkout initialState (Resolved LaterExercise.answer)
                             (Resolved [LaterExercise.plan]) getExerciseHistory)
    = [("A", [1]); ("B", [1; 3; 2])].
Proof.
  intros h. unfold loadWorkout. simpl.
  rewrite !setNumbers_fetchPreviousBest. reflexivity.
Qed.

(** ** Volumes counted with integers *)

Lemma sumZ_nil : sumZ [] = 0.
Proof. reflexivity. Qed.

Lemma sumZ_cons x l : sumZ (x :: l) = x + sumZ l.
Proof. reflexivity. Qed.

Lemma sumZ_app l1 l2 : sumZ (l1 ++ l2) = sumZ l1 + sumZ l2.
Proof.
  induction l1 as [|x l1 IH]; [done|].
  rewrite <- app_comm_cons, !sumZ_cons, IH. lia.
Qed.

Lemma fold_left_add {A} (f : A → Z) (l : list A) (a : Z) :
  fold_left (λ acc x, acc + f x) l a = a + sumZ (f <$> l).
Proof.
  revert a. induction l as [|x l IH]; intros a.
  - simpl. unfold sumZ. simpl. lia.
  - rewrite fmap_cons, sumZ_cons. simpl. rewrite IH. lia.
Qed.

Lemma logged_volume (sets : list SetData.t) :
  sumZ ((λ s, SetData.weight s * SetData.reps s)
          <$> filter (λ s, SetData.logged s = true) sets)
  = sumZ (setVolume <$> sets).
Proof.
  induction sets as [|s sets IH]; [done|].
  rewrite filter_cons, fmap_cons, sumZ_cons. unfold setVolume at 1.
  destruct (SetData.logged s).
  - rewrite decide_True by done. by rewrite fmap_cons, sumZ_cons, IH.
  - rewrite decide_False by done. by rewrite IH.
Qed.

Lemma totalVolume_sum (exs : list ExerciseData.t) :
  totalVolume exs = sumZ (exerciseVolume <$> exs).
Proof.
  unfold totalVolume.
  rewrite (fold_left_add
    (λ ex, fold_left (λ setSum s, setSum + SetData.weight s * SetData.reps s)
             (filter (λ s, SetData.logged s = true) (ExerciseData.sets ex)) 0)).
  rewrite Z.add_0_l. f_equal. apply list_fmap_ext. intros _ ex _. simpl.
  rewrite fold_left_add, Z.add_0_l. apply logged_volume.
Qed.

Lemma mapVolume_app m1 m2 : mapVolume (m1 ++ m2) = mapVolume m1 + mapVolume m2.
Proof. unfold mapVolume. by rewrite JsMap_values_app, fmap_app, sumZ_app. Qed.

Lemma mapVolume_cons k ex m : mapVolume ((k, ex) :: m) = exerciseVolume ex + mapVolume m.
Proof. reflexivity. Qed.

Lemma setVolume_loggedSet set :
  setVolume (loggedSet set) = WorkoutSet.weight set * WorkoutSet.reps set.
Proof. reflexivity. Qed.

Lemma upsertSet_volume (P : Z → Prop) sets set :
  Forall (λ s, SetData.logged s = true → P (SetData.set_number s)) sets →
  ¬ P (WorkoutSet.set_number set) →
  sumZ (setVolume <$> upsertSet sets set)
  = sumZ (setVolume <$> sets) + WorkoutSet.weight set * WorkoutSet.reps set
  ∧ Forall (λ s, SetData.logged s = true →
                 P (SetData.set_number s) ∨
                 SetData.set_number s = WorkoutSet.set_number set)
           (upsertSet sets set).
Proof.
  intros Hsets Hfresh.
  assert (Hweak : ∀ l,
    Forall (λ s, SetData.logged s = true → P (SetData.set_number s)) l →
    Forall (λ s, SetData.logged s = true →
                 P (SetData.set_number s) ∨
                 SetData.set_number s = WorkoutSet.set_number set) l).
  { intros l Hl. eapply Forall_impl; [exact Hl|]. intros s Hs Hlog. left. auto. }
  destruct (upsertSet_cases sets set) as [[_ ->]|(l1 & t & l2 & -> & Ht & _ & ->)].
  - split.
    + rewrite fmap_app, sumZ_app, fmap_cons, sumZ_cons, setVolume_loggedSet.
      rewrite fmap_nil, sumZ_nil. lia.
    + apply Forall_app. split; [by apply Hweak|].
      apply Forall_singleton. intros _. by right.
  - apply Forall_app in Hsets as [H1 H2]. apply Forall_cons in H2 as [Hlogged H2].
    assert (Hunlogged : setVolume t = 0).
    { unfold setVolume. destruct (SetData.logged t); [|done].
      exfalso. apply Hfresh. rewrite <- Ht. by apply Hlogged. }
    split.
    + rewrite !fmap_app, !sumZ_app, !fmap_cons, !sumZ_cons.
      rewrite setVolume_loggedSet, Hunlogged. lia.
    + apply Forall_app. split; [by apply Hweak|].
      apply Forall_cons. split; [intros _; by right | by apply Hweak].
Qed.

Lemma loggedWithin_snoc overlaid set m :
  loggedWithin overlaid m → loggedWithin (overlaid ++ [set]) m.
Proof.
  intros Hm. eapply Forall_impl; [exact Hm|]. intros [k ex] Hex. simpl in *.
  eapply Forall_impl; [exact Hex|]. intros s Hs Hlog.
  rewrite fmap_app, elem_of_app. left. auto.
Qed.

Lemma overlaySet_volume overlaid m set :
  loggedWithin overlaid m → (setKey set ∉ setKey <$> overlaid) →
  loggedWithin (overlaid ++ [set]) (overlaySet m set) ∧
  mapVolume (overlaySet m set)
  = mapVolume m + WorkoutSet.weight set * WorkoutSet.reps set.
Proof.
  intros Hm Hfresh.
  assert (Hlast : setKey set ∈ setKey <$> (overlaid ++ [set])).
  { rewrite fmap_app, elem_of_app. right. left. }
  pose proof (loggedWithin_snoc overlaid set m Hm) as Hm'.
  destruct (overlaySet_cases m set) as [[Hk ->]|(m1 & ex & m2 & -> & Hk & ->)].
  - split.
    + apply Forall_app. split; [done|]. apply Forall_singleton. simpl.
      apply Forall_singleton. intros _. exact Hlast.
    + rewrite mapVolume_app, mapVolume_cons. unfold exerciseVolume. simpl.
      rewrite setVolume_loggedSet. change (mapVolume []) with 0. lia.
  - apply Forall_app in Hm as [H1 H2]. apply Forall_cons in H2 as [Hex H2].
    apply Forall_app in Hm' as [H1' H2']. apply Forall_cons in H2' as [_ H2'].
    simpl in Hex.
    destruct (upsertSet_volume
                (λ n, (WorkoutSet.exercise_id set, n) ∈ setKey <$> overlaid)
                (ExerciseData.sets ex) set Hex Hfresh) as [Hvol Hall].
    split.
    + apply Forall_app. split; [done|]. apply Forall_cons. split; [|done].
      simpl. eapply Forall_impl; [exact Hall|]. intros s Hs Hlog.
      destruct (Hs Hlog) as [Hin| ->]; [|exact Hlast].
      rewrite fmap_app, elem_of_app. by left.
    + rewrite !mapVolume_app, !mapVolume_cons. unfold exerciseVolume at 1.
      simpl. rewrite Hvol. unfold exerciseVolume. lia.
Qed.

Lemma seedExerciseMap_unlogged routine_name listRoutines seed :
  seedExerciseMap routine_name listRoutines = Resolved seed →
  Forall (λ kv, unloggedEntry kv.1 kv.2) seed.
Proof.
  unfold seedExerciseMap. intros H.
  destruct routine_name as [n|]; [|simplify_eq; apply Forall_nil_2].
  destruct (truthy n); [|simplify_eq; apply Forall_nil_2].
  destruct listRoutines as [routines|]; [|done].
  destruct (findRoutine n routines) as [routine|]; simplify_eq; [|apply Forall_nil_2].
  unfold seedFromRoutine.
  assert (Hgen : ∀ l m, Forall (λ kv, unloggedEntry kv.1 kv.2) m →
    Forall (λ kv, unloggedEntry kv.1 kv.2)
      (fold_left (λ m ex, JsMap.set m (RoutineExercise.exercise_id ex)
                                     (seedExercise ex)) l m)).
  { induction l as [|ex l IH]; simpl; [done|]. intros m Hm. apply IH.
    apply (JsMap_set_Forall unloggedEntry); [done|].
    unfold unloggedEntry, seedExercise, placeholderSets. simpl.
    apply Forall_fmap, Forall_true. done. }
  apply Hgen, Forall_nil_2.
Qed.

Lemma unlogged_volume seed :
  Forall (λ kv, unloggedEntry kv.1 kv.2) seed →
  loggedWithin [] seed ∧ mapVolume seed = 0.
Proof.
  induction 1 as [|[k ex] seed Hex _ [IH1 IH2]].
  - split; [apply Forall_nil_2 | done].
  - unfold unloggedEntry in Hex. simpl in Hex. split.
    + apply Forall_cons. split; [|done]. simpl.
      eapply Forall_impl; [exact Hex|]. intros s Hs Hlog. congruence.
    + rewrite mapVolume_cons, IH2.
      assert (Hzero : exerciseVolume ex = 0); [|lia].
      unfold exerciseVolume. induction Hex as [|s l Hs _ IH]; [done|].
      rewrite fmap_cons, sumZ_cons, IH. unfold setVolume. by rewrite Hs.
Qed.

(** ** The previous-best hint *)

Lemma bestOf_cons acc s l :
  bestOf acc (s :: l)
  = bestOf (if decide (HistoryEntry.weight s > HistoryEntry.weight acc)
            then s else acc) l.
Proof. reflexivity. Qed.

Lemma bestOf_fold l :
  ∀ acc,
    (bestOf acc l = acc ∧
     Forall (λ s, HistoryEntry.weight s ≤ HistoryEntry.weight acc) l)
    ∨ (HistoryEntry.weight acc < HistoryEntry.weight (bestOf acc l) ∧
       firstMaximum l (bestOf acc l)).
Proof.
  induction l as [|s l IH]; intros acc.
  - left. split; [done | apply Forall_nil_2].
  - rewrite bestOf_cons. case_decide as Hcmp.
    + right. destruct (IH s) as [[-> Hall]|[Hlt (l1 & l2 & Hl & H1 & H2)]].
      * split; [lia|]. exists [], l. split_and!; [done | apply Forall_nil_2 | done].
      * split; [lia|]. exists (s :: l1), l2. split_and!; [| |done].
        -- rewrite Hl at 1. done.
        -- apply Forall_cons. done.
    + destruct (IH acc) as [[-> Hall]|[Hlt (l1 & l2 & Hl & H1 & H2)]].
      * left. split; [done|]. apply Forall_cons. split; [lia | done].
      * right. split; [done|]. exists (s :: l1), l2. split_and!; [| |done].
        -- rewrite Hl at 1. done.
        -- apply Forall_cons. split; [lia | done].
Qed.

Lemma bestOf_firstMaximum first rest :
  firstMaximum (first :: rest) (bestOf first (first :: rest)).
Proof.
  rewrite bestOf_cons, decide_False by lia.
  destruct (bestOf_fold rest first) as [[-> Hall]|[Hlt (l1 & l2 & Hl & H1 & H2)]].
  - exists [], rest. split_and!; [done | apply Forall_nil_2 | done].
  - exists (first :: l1), l2. split_and!; [| |done].
    + rewrite Hl at 1. done.
    + apply Forall_cons. done.
Qed.

(** The loop that sorts and expands touches only [sets] (a permutation) and
    [expanded]. *)
Lemma sortAndExpand_fields l :
  Forall2 (λ ex ex',
             ExerciseData.exercise_id ex' = ExerciseData.exercise_id ex ∧
             ExerciseData.previousBest ex' = ExerciseData.previousBest ex ∧
             ExerciseData.sets ex' ≡ₚ ExerciseData.sets ex)
          l (sortAndExpand l).
Proof.
  induction l as [|ex l IH]; [apply Forall2_nil_2|]. cbn [sortAndExpand].
  destruct (everyLogged _).
  - apply Forall2_cons. split; [|done].
    split_and!; [done | done | apply sortSets_Permutation].
  - apply Forall2_cons. split.
    + split_and!; [done | done | apply sortSets_Permutation].
    + apply Forall2_same_length_lookup_2; [done|]. intros i x y ? ?. by simplify_eq.
Qed.

Lemma sortAndExpand_ids l :
  ExerciseData.exercise_id <$> sortAndExpand l = ExerciseData.exercise_id <$> l.
Proof.
  induction (sortAndExpand_fields l) as [|ex ex' l l' (Hid & _) _ IH]; [done|].
  by rewrite !fmap_cons, IH, Hid.
Qed.

Lemma exerciseArray_ok data seed :
  mapOk seed →
  NoDup (ExerciseData.exercise_id <$> exerciseArray data seed) ∧
  Forall (λ ex, ExerciseData.previousBest ex = None ∧
                NoDup (SetData.set_number <$> ExerciseData.sets ex))
         (exerciseArray data seed).
Proof.
  intros Hseed. unfold exerciseArray.
  apply (overlay_fold_ok (WorkoutDetail.workout_sets data)) in Hseed.
  apply mapOk_values in Hseed as [Hnd Hall]. split.
  - by rewrite sortAndExpand_ids.
  - pose proof (sortAndExpand_fields
                  (JsMap.values (fold_left overlaySet
                                   (WorkoutDetail.workout_sets data) seed))) as Hf.
    clear Hnd. revert Hall. induction Hf as [|ex ex' l l' (_ & Hbest & Hsets) _ IH].
    + intros _. apply Forall_nil_2.
    + intros [(_ & Hnone & Hnum) Hall]%Forall_cons. apply Forall_cons. split.
      * split; [congruence|]. by rewrite Hsets.
      * by apply IH.
Qed.

(** The view of a load that went through. *)
Lemma loadWorkout_exercises getWorkout listRoutines h :
  exercises (loadWorkout initialState getWorkout listRoutines h) = []
  ∨ ∃ data seed,
      getWorkout = Resolved data ∧
      seedExerciseMap (WorkoutDetail.routine_name data) listRoutines = Resolved seed ∧
      exercises (loadWorkout initialState getWorkout listRoutines h)
      = fetchPreviousBest h <$> exerciseArray data seed.
Proof.
  unfold loadWorkout. destruct getWorkout as [data|]; [|by left].
  destruct (seedExerciseMap _ listRoutines) as [seed|] eqn:Hseed; [|by left].
  right. by exists data, seed.
Qed.

(** C5. In the view built by [loadWorkout], an exercise whose history was
    fetched and is not empty carries as hint the weight and repetitions of
    the entry of maximal weight, the first such entry on ties; an exercise
    whose fetched history is empty carries no hint. *)
Theorem previousBest_is_first_maximum
    (getWorkout : promise WorkoutDetail.t) (listRoutines : promise (list Routine.t))
    (getExerciseHistory : string → promise (list HistoryEntry.t))
    (ex : ExerciseData.t) (history : list HistoryEntry.t) :
  ex ∈ exercises (loadWorkout initialState getWorkout listRoutines getExerciseHistory) →
  getExerciseHistory (ExerciseData.exercise_id ex) = Resolved history →
  (history = [] → ExerciseData.previousBest ex = None) ∧
  (history ≠ [] →
   ∃ best, firstMaximum history best ∧
           ExerciseData.previousBest ex
           = Some (PreviousBest.mk (HistoryEntry.weight best) (HistoryEntry.reps best))).
Proof.
  intros Hin Hhist.
  destruct (loadWorkout_exercises getWorkout listRoutines getExerciseHistory)
    as [Hnil|(data & seed & _ & Hseed & Hview)].
  { rewrite Hnil in Hin. by apply elem_of_nil in Hin. }
  rewrite Hview in Hin. apply list_elem_of_fmap in Hin as (ex0 & -> & Hin0).
  destruct (exerciseArray_ok data seed (seedExerciseMap_ok _ _ _ Hseed)) as [_ Hall].
  rewrite Forall_forall in Hall. destruct (Hall ex0 Hin0) as [Hnone _].
  destruct (fetchPreviousBest_fields getExerciseHistory ex0) as (Hid & _).
  rewrite Hid in Hhist. unfold fetchPreviousBest. rewrite Hhist.
  destruct history as [|first rest].
  - split; [done | by intros []].
  - split; [done|]. intros _. exists (bestOf first (first :: rest)).
    split; [apply bestOf_firstMaximum | done].
Qed.

Lemma previousBest_is_first_maximum_witness :
  let history := [HistoryEntry.mk 50 5 1 "2025-01-01"; HistoryEntry.mk 70 3 1 "2025-01-02";
                  HistoryEntry.mk 70 9 2 "2025-01-02"] in
  ∃ ex, ex ∈ ExampleAB.view (λ _, Resolved history) ∧
        ∃ best, firstMaximum history best ∧
                ExerciseData.previousBest ex
                = Some (PreviousBest.mk (HistoryEntry.weight best)
                                        (HistoryEntry.reps best)).
Proof.
  intros history.
  eexists. split; [left|].
  apply (previousBest_is_first_maximum (Resolved ExampleAB.data)
           (Resolved [ExampleAB.routine]) (λ _, Resolved history) _ history).
  - left.
  - reflexivity.
  - done.
Defined.

(** C6. Let the history request of one exercise fail where it would otherwise
    have had any outcome. The view is the same except that this exercise
    carries no hint; the page is not sent elsewhere and the rest of the state
    is the same. A load whose first two requests went through ends on the
    page, not loading, whatever the history requests did. *)
Theorem history_failure_is_local
    (getWorkout : promise WorkoutDetail.t) (listRoutines : promise (list Routine.t))
    (getExerciseHistory : string → promise (list HistoryEntry.t))
    (exerciseId reason : string) :
  let failing :=
    λ k, if decide (k = exerciseId) then Rejected reason else getExerciseHistory k in
  let st := loadWorkout initialState getWorkout listRoutines getExerciseHistory in
  let st' := loadWorkout initialState getWorkout listRoutines failing in
  exercises st'
  = (λ ex, if decide (ExerciseData.exercise_id ex = exerciseId)
           then ExerciseData.with_previousBest None ex else ex) <$> exercises st
  ∧ pushed st' = pushed st ∧ loading st' = loading st ∧ workout st' = workout st
  ∧ (∀ data routines h,
       let loaded := loadWorkout initialState (Resolved data) (Resolved routines) h in
       pushed loaded = None ∧ loading loaded = false).
Proof.
  intros failing st st'. subst st st'.
  assert (Hloaded : ∀ data routines h,
    let loaded := loadWorkout initialState (Resolved data) (Resolved routines) h in
    pushed loaded = None ∧ loading loaded = false).
  { intros data routines h. simpl. unfold seedExerciseMap.
    destruct (WorkoutDetail.routine_name data) as [n|]; [|done].
    destruct (truthy n); [|done]. by destruct (findRoutine n routines). }
  unfold loadWorkout.
  destruct getWorkout as [data|]; [|by split_and!].
  destruct (seedExerciseMap _ listRoutines) as [seed|] eqn:Hseed; simpl.
  - split_and!; [|done..].
    unfold reconcile. fold (exerciseArray data seed).
    rewrite <- list_fmap_compose.
    destruct (exerciseArray_ok data seed (seedExerciseMap_ok _ _ _ Hseed)) as [_ Hall].
    apply Forall_fmap_ext. eapply Forall_impl; [exact Hall|].
    intros ex [Hnone _]. simpl.
    destruct (fetchPreviousBest_fields getExerciseHistory ex) as (-> & _).
    unfold fetchPreviousBest, failing. case_decide as Hid.
    + destruct ex as [k n sets best expanded]. simpl in *. subst best.
      by destruct (getExerciseHistory k) as [[|first rest]|].
    + done.
  - by split_and!.
Qed.

(** ** Adding a set *)

Lemma foldr_max_spec (l : list Z) :
  let n := foldr Z.max 0 l in
  0 ≤ n ∧ Forall (λ k, k ≤ n) l ∧ (n = 0 ∨ n ∈ l).
Proof.
  induction l as [|x l (Hpos & Hall & Hin)]; simpl.
  - split_and!; [done | apply Forall_nil_2 | by left].
  - split_and!.
    + lia.
    + apply Forall_cons. split; [lia|].
      eapply Forall_impl; [exact Hall|]. intros k Hk. simpl in Hk. lia.
    + destruct (Z.max_spec x (foldr Z.max 0 l)) as [[_ ->]|[_ ->]].
      * destruct Hin as [->|Hin]; [by left | right; by right].
      * right. left.
Qed.

Lemma orZero_Some v : orZero (Some v) = v.
Proof. unfold orZero. by case_decide. Qed.

Lemma addedSet_spec ex :
  addsSet ex (ExerciseData.with_sets
                (ExerciseData.sets ex ++ [addedSet (ExerciseData.sets ex)]) ex).
Proof.
  exists (addedSet (ExerciseData.sets ex)). split_and!; [done | | | done].
  - unfold addedSet, nextSetNumber. simpl.
    replace (foldr Z.max 0 (SetData.set_number <$> ExerciseData.sets ex) + 1 - 1)
      with (foldr Z.max 0 (SetData.set_number <$> ExerciseData.sets ex)) by lia.
    apply foldr_max_spec.
  - unfold addedSet. simpl. destruct (last (ExerciseData.sets ex)) as [prev|].
    + change (SetData.weight <$> Some prev) with (Some (SetData.weight prev)).
      change (SetData.reps <$> Some prev) with (Some (SetData.reps prev)).
      by rewrite !orZero_Some.
    + done.
Qed.

(** C7, counterexample. The only set of "A" bears the number -1: the entry
    that is added bears the number 1, not 0. *)
Lemma addSetToExercise_not_max_plus_one :
  exercises BelowZero.state = [BelowZero.before] ∧
  exercises (addSetToExercise BelowZero.state "A") = [BelowZero.after] ∧
  ¬ addsSetAsStated BelowZero.before BelowZero.after.
Proof.
  split_and!; [reflexivity | reflexivity |].
  intros (m & prev & s & [Hm _] & _ & Heq & Hnum & _).
  apply list_elem_of_singleton in Hm. simpl in Hm. subst m.
  apply (f_equal ExerciseData.sets) in Heq. simpl in Heq.
  injection Heq as <-. simpl in Hnum. lia.
Qed.

(** C7, amended. [addSetToExercise] leaves the exercises with another id as
    they are and appends one entry to the sets of the exercise with the given
    id: it is numbered max(0, existing set numbers) + 1, which is the largest
    existing set number plus one whenever that number is not negative; it
    carries the weight and repetitions of the last entry of the list (0 and 0
    when there is none) and is not logged. The entries that were there and
    the rest of the state stay as they are. *)
Theorem addSetToExercise_appends (st : State) (exerciseId : string) :
  let st' := addSetToExercise st exerciseId in
  Forall2 (λ ex ex',
             if decide (ExerciseData.exercise_id ex = exerciseId)
             then addsSet ex ex' ∧
                  (∀ m, maxSetNumber (ExerciseData.sets ex) m → 0 ≤ m →
                        addsSetAsStated ex ex')
             else ex' = ex)
          (exercises st) (exercises st')
  ∧ searchResults st' = searchResults st ∧ searchQuery st' = searchQuery st
  ∧ workout st' = workout st ∧ pushed st' = pushed st.
Proof.
  simpl. split_and!; [|done..].
  unfold mapExercise. apply Forall2_fmap_r, Forall2_same_length_lookup_2; [done|].
  intros i ex ex' Hex Hex'. simplify_eq.
  destruct (decide (ExerciseData.exercise_id ex = exerciseId)) as [Hid|Hid].
  - unfold compose. rewrite decide_False by (by intros ?).
    split; [apply addedSet_spec|].
    intros m [Hin Hmax] Hpos.
    destruct (addedSet_spec ex) as (s & Heq & (Hn0 & Hle & Hor) & Hfill & Hlog).
    destruct (last (ExerciseData.sets ex)) as [prev|] eqn:Hlast.
    + exists m, prev, s. destruct Hfill as [Hw Hr].
      split_and!; [by split | done | done | | done | done | done].
      rewrite Forall_forall in Hle, Hmax. specialize (Hle m Hin).
      destruct Hor as [Hzero|Hin']; [lia|].
      specialize (Hmax _ Hin'). lia.
    + apply last_None in Hlast. rewrite Hlast in Hin. by apply elem_of_nil in Hin.
  - unfold compose. by rewrite decide_True.
Qed.

Lemma addSetToExercise_appends_witness :
  addsSetAsStated
    (ExerciseData.mk "B" "Bench Press"
       [SetData.mk (Some "s1") 1 100 10 None true] None false)
    (ExerciseData.mk "B" "Bench Press"
       [SetData.mk (Some "s1") 1 100 10 None true; SetData.mk None 2 100 10 None false]
       None false).
Proof.
  pose proof (addSetToExercise_appends
                (set_exercises
                   [ExerciseData.mk "B" "Bench Press"
                      [SetData.mk (Some "s1") 1 100 10 None true] None false]
                   initialState) "B") as [Hall _].
  apply Forall2_cons_1 in Hall as [[_ Hstated] _].
  apply (Hstated 1).
  - split; [left | by apply Forall_singleton].
  - lia.
Defined.

(** ** Logging a set *)

(** C9. [handleLogSet] sends the request only when weight and repetitions
    are both strictly positive. With a weight or a number of repetitions that
    is zero or negative it returns at once: nothing is sent and the state,
    hence the set, is as before. *)
Theorem handleLogSet_requires_positive
    (workoutId : string) (st : State) (exerciseId : string) (set : SetData.t)
    (logSet : promise ()) :
  let sent := (handleLogSet workoutId st exerciseId set logSet).2 in
  (SetData.weight set ≤ 0 ∨ SetData.reps set ≤ 0 →
   handleLogSet workoutId st exerciseId set logSet = (st, []))
  ∧ (sent ≠ [] → 0 < SetData.weight set ∧ 0 < SetData.reps set)
  ∧ (0 < SetData.weight set ∧ 0 < SetData.reps set →
     sent = [CallLogSet workoutId
               (SetLog.mk exerciseId (SetData.set_number set) (SetData.weight set)
                          (SetData.reps set) None)]).
Proof.
  simpl. unfold handleLogSet. split_and!.
  - intros Hle. by rewrite decide_True.
  - case_decide as Hle; [done|]. intros _. lia.
  - intros Hpos. rewrite decide_False by lia. by destruct logSet.
Qed.

Lemma handleLogSet_requires_positive_witness :
  let set := SetData.mk None 1 0 10 None false in
  handleLogSet "w1" initialState "A" set (Resolved ())
  = (initialState, []).
Proof.
  intros set.
  apply (handleLogSet_requires_positive "w1" initialState "A" set (Resolved ())).
  left. simpl. lia.
Defined.

(** ** Saving a routine *)

Lemma imap_inputExercise_order (l : list RoutineExerciseForm.t) :
  ∀ k : nat,
    RoutineInputExercise.order
      <$> imap (λ i, RoutinesPage.inputExercise (k + i)) l
    = Z.of_nat <$> seq k (length l).
Proof.
  induction l as [|e l IH]; intros k; [done|].
  rewrite imap_cons, fmap_cons. cbn [length seq]. rewrite fmap_cons. f_equal.
  - simpl. f_equal. lia.
  - rewrite <- (IH (S k)). f_equal. apply imap_ext. intros i x _.
    unfold compose. f_equal. lia.
Qed.

(** C8. The exercise list that [handleSave] submits has the entries of the
    form in their positions, with [order] set to the position, 0 to n-1,
    whatever [order] the form entries carried; creating and updating submit
    the same complete list, and nothing is submitted when the name is
    blank. *)
Theorem handleSave_renumbers (st : RoutinesPage.FormState) :
  let data := RoutinesPage.routineInput st in
  let sent := RoutineInput.exercises data in
  RoutineInputExercise.order <$> sent
  = Z.of_nat <$> seq 0 (length (RoutinesPage.formExercises st))
  ∧ Forall2 (λ e x,
               RoutineInputExercise.exercise_id x = RoutineExerciseForm.exercise_id e ∧
               RoutineInputExercise.target_sets x = RoutineExerciseForm.target_sets e ∧
               RoutineInputExercise.target_reps_min x
                 = RoutineExerciseForm.target_reps_min e ∧
               RoutineInputExercise.target_reps_max x
                 = RoutineExerciseForm.target_reps_max e)
            (RoutinesPage.formExercises st) sent
  ∧ (∀ supplied : nat → Z,
       RoutinesPage.handleSave
         (RoutinesPage.mkFormState
            (RoutinesPage.editingRoutine st) (RoutinesPage.formName st)
            (RoutinesPage.formDay st)
            (imap (λ i, RoutineExerciseForm.with_order (supplied i))
                  (RoutinesPage.formExercises st)))
       = RoutinesPage.handleSave st)
  ∧ match RoutinesPage.handleSave st with
    | None => RoutinesPage.trim (RoutinesPage.formName st) = EmptyString
    | Some call =>
        RoutinesPage.trim (RoutinesPage.formName st) ≠ EmptyString ∧
        call = match RoutinesPage.editingRoutine st with
               | Some routine =>
                   RoutinesPage.CallUpdateRoutine (Routine.id routine) data
               | None => RoutinesPage.CallCreateRoutine data
               end
    end.
Proof.
  simpl. split_and!.
  - apply (imap_inputExercise_order _ 0%nat).
  - apply Forall2_same_length_lookup_2; [by rewrite length_imap|].
    intros i e x He Hx. rewrite list_lookup_imap, He in Hx. by simplify_eq/=.
  - intros supplied. unfold RoutinesPage.handleSave, RoutinesPage.routineInput. simpl.
    assert (Hsame :
      imap RoutinesPage.inputExercise
        (imap (λ i, RoutineExerciseForm.with_order (supplied i))
              (RoutinesPage.formExercises st))
      = imap RoutinesPage.inputExercise (RoutinesPage.formExercises st)).
    { apply list_eq. intros i. rewrite !list_lookup_imap.
      by destruct (RoutinesPage.formExercises st !! i). }
    by rewrite Hsame.
  - unfold RoutinesPage.handleSave, RoutinesPage.truthy_trim.
    case_bool_decide as Hblank; simpl; [done|].
    split; [done|]. by destruct (RoutinesPage.editingRoutine st).
Qed.

(** ** Distinct exercises and distinct set numbers *)

Lemma mapExercise_viewOk exerciseId (f : ExerciseData.t → ExerciseData.t) exs :
  (∀ ex, ExerciseData.exercise_id (f ex) = ExerciseData.exercise_id ex) →
  (∀ ex, NoDup (SetData.set_number <$> ExerciseData.sets ex) →
         NoDup (SetData.set_number <$> ExerciseData.sets (f ex))) →
  ExerciseData.exercise_id <$> mapExercise exerciseId f exs
  = ExerciseData.exercise_id <$> exs
  ∧ (viewOk exs → viewOk (mapExercise exerciseId f exs)).
Proof.
  intros Hid Hsets.
  assert (Hids : ExerciseData.exercise_id <$> mapExercise exerciseId f exs
                 = ExerciseData.exercise_id <$> exs).
  { unfold mapExercise. rewrite <- list_fmap_compose. apply list_fmap_ext.
    intros i ex _. unfold compose. by case_decide. }
  split; [done|]. intros [Hnd Hall]. split; [by rewrite Hids|].
  unfold mapExercise. apply Forall_fmap. eapply Forall_impl; [exact Hall|].
  intros ex Hex. unfold compose. case_decide; [done | by apply Hsets].
Qed.

Lemma mapSet_numbers setNumber (f : SetData.t → SetData.t) sets :
  (∀ s, SetData.set_number (f s) = SetData.set_number s) →
  SetData.set_number <$> mapSet setNumber f sets = SetData.set_number <$> sets.
Proof.
  intros Hf. unfold mapSet. rewrite <- list_fmap_compose. apply list_fmap_ext.
  intros i s _. unfold compose. by case_decide.
Qed.

Lemma nextSetNumber_fresh sets :
  nextSetNumber sets ∉ SetData.set_number <$> sets.
Proof.
  unfold nextSetNumber. intros Hin.
  destruct (foldr_max_spec (SetData.set_number <$> sets)) as (_ & Hle & _).
  rewrite Forall_forall in Hle. specialize (Hle _ Hin). lia.
Qed.

Lemma loadWorkout_stateOk getWorkout listRoutines h :
  stateOk (loadWorkout initialState getWorkout listRoutines h).
Proof.
  assert (Hresults : searchResults (loadWorkout initialState getWorkout listRoutines h) = []).
  { unfold loadWorkout. destruct getWorkout as [data|]; [|done].
    by destruct (seedExerciseMap _ listRoutines). }
  split; [|rewrite Hresults; apply Forall_nil_2].
  destruct (loadWorkout_exercises getWorkout listRoutines h)
    as [->|(data & seed & _ & Hseed & ->)].
  { split; [apply NoDup_nil_2 | apply Forall_nil_2]. }
  destruct (exerciseArray_ok data seed (seedExerciseMap_ok _ _ _ Hseed)) as [Hnd Hall].
  split.
  - rewrite <- list_fmap_compose.
    erewrite list_fmap_ext; [exact Hnd|].
    intros i ex _. unfold compose. apply fetchPreviousBest_fields.
  - apply Forall_fmap. eapply Forall_impl; [exact Hall|]. intros ex [_ Hnum].
    unfold compose. by destruct (fetchPreviousBest_fields h ex) as (_ & _ & -> & _).
Qed.

Lemma handle_stateOk workoutId st ev :
  stateOk st → offered st ev → stateOk (handle workoutId st ev).
Proof.
  intros [Hview Hresults] Hoffered.
  destruct ev as [exerciseId|exerciseId setNumber field value|exerciseId set logSet
                 |exerciseId|query searchExercises|exercise]; simpl.
  - (* toggleExercise *)
    assert (Hids : ExerciseData.exercise_id <$> exercises (toggleExercise st exerciseId)
                   = ExerciseData.exercise_id <$> exercises st).
    { simpl. rewrite <- list_fmap_compose. apply list_fmap_ext.
      intros i ex _. unfold compose. by case_decide. }
    split; [|by rewrite Hids]. destruct Hview as [Hnd Hall].
    split; [by rewrite Hids|]. simpl. apply Forall_fmap.
    eapply Forall_impl; [exact Hall|]. intros ex Hex. unfold compose. by case_decide.
  - (* updateSet *)
    destruct (mapExercise_viewOk exerciseId
      (λ ex, ExerciseData.with_sets
               (mapSet setNumber
                  (match field with
                   | FieldWeight => SetData.with_weight value
                   | FieldReps => SetData.with_reps value
                   end) (ExerciseData.sets ex)) ex) (exercises st)) as [Hids Hok].
    + done.
    + intros ex Hex. simpl. rewrite mapSet_numbers; [done|]. by destruct field.
    + split; [by apply Hok|]. simpl. by rewrite Hids.
  - (* handleLogSet *)
    unfold handleLogSet. case_decide; [done|]. destruct logSet; [|done].
    destruct (mapExercise_viewOk exerciseId
      (λ ex, ExerciseData.with_sets
               (mapSet (SetData.set_number set) (SetData.with_logged true)
                       (ExerciseData.sets ex)) ex) (exercises st)) as [Hids Hok].
    + done.
    + intros ex Hex. simpl. by rewrite mapSet_numbers.
    + split; [by apply Hok|]. simpl. by rewrite Hids.
  - (* addSetToExercise *)
    destruct (mapExercise_viewOk exerciseId
      (λ ex, ExerciseData.with_sets
               (ExerciseData.sets ex ++ [addedSet (ExerciseData.sets ex)]) ex)
      (exercises st)) as [Hids Hok].
    + done.
    + intros ex Hex. simpl. rewrite fmap_app. apply NoDup_app.
      split_and!; [done | | apply NoDup_singleton].
      intros n Hn ->%list_elem_of_singleton. by apply nextSetNumber_fresh in Hn.
    + split; [by apply Hok|]. simpl. by rewrite Hids.
  - (* handleSearch *)
    unfold handleSearch. case_decide; simpl.
    + split; [done | apply Forall_nil_2].
    + split; [done|]. destruct searchExercises as [results|]; [|apply Forall_nil_2].
      apply Forall_forall. intros r [Hr _]%list_elem_of_filter.
      by rewrite elem_of_list_to_set in Hr.
  - (* addExercise *)
    simpl in Hoffered. rewrite Forall_forall in Hresults.
    specialize (Hresults exercise Hoffered). destruct Hview as [Hnd Hall].
    split; [|apply Forall_nil_2]. simpl. split.
    + rewrite fmap_app. apply NoDup_app.
      split_and!; [done | | apply NoDup_singleton].
      by intros k Hk ->%list_elem_of_singleton.
    + apply Forall_app. split; [done|]. apply Forall_singleton. simpl.
      apply NoDup_singleton.
Qed.

(** As long as every handler runs to its end before the next one starts, the
    exercise ids of the view are pairwise distinct and so are the set numbers
    within each exercise: after the initial build, and after every operation
    offered by the page (toggling, updating a set, logging a set, adding a
    set, searching, adding one of the search results). What the operations
    preserve along with it is that no search result is an exercise of the
    view. *)
Theorem view_stays_distinct (workoutId : string) :
  (∀ getWorkout listRoutines getExerciseHistory,
     stateOk (loadWorkout initialState getWorkout listRoutines getExerciseHistory))
  ∧ (∀ st ev, stateOk st → offered st ev → stateOk (handle workoutId st ev))
  ∧ (∀ st, reachable workoutId st → viewOk (exercises st)).
Proof.
  split_and!.
  - apply loadWorkout_stateOk.
  - apply handle_stateOk.
  - intros st Hreach. assert (Hok : stateOk st); [|by destruct Hok].
    induction Hreach as [getWorkout listRoutines h|st ev _ IH Hoffered].
    + apply loadWorkout_stateOk.
    + by apply handle_stateOk.
Qed.

Lemma view_stays_distinct_witness : viewOk (exercises Run.added).
Proof.
  apply (proj2 (proj2 (view_stays_distinct "w1"))).
  unfold Run.added, Run.searched, Run.opened.
  apply reachable_handle; [apply reachable_handle; [apply reachable_load | exact I]|].
  change (Run.barbellRow ∈ searchResults Run.searched).
  replace (searchResults Run.searched) with [Run.barbellRow] by (vm_compute; reflexivity).
  left.
Defined.

(** * Further properties of the workout page *)

(** ** The logged entries of the view are the persisted sets *)

Lemma upsertSet_logged (P : Z → Prop) sets set :
  Forall (λ s, SetData.logged s = true → P (SetData.set_number s)) sets →
  ¬ P (WorkoutSet.set_number set) →
  filter (λ s, SetData.logged s = true) (upsertSet sets set)
  ≡ₚ filter (λ s, SetData.logged s = true) sets ++ [loggedSet set].
Proof.
  intros Hsets Hfresh.
  destruct (upsertSet_cases sets set) as [[_ ->]|(l1 & t & l2 & -> & Ht & _ & ->)].
  - by rewrite filter_app, filter_cons_True, filter_nil.
  - apply Forall_app in Hsets as [_ H2]. apply Forall_cons in H2 as [Hlogged _].
    assert (Hunlogged : ¬ SetData.logged t = true).
    { intros Hlog. apply Hfresh. rewrite <- Ht. by apply Hlogged. }
    rewrite !filter_app, filter_cons_True by done.
    rewrite (filter_cons_False _ t) by done.
    rewrite <- app_assoc. apply Permutation_app_head.
    apply Permutation_cons_append.
Qed.

Lemma loggedEntries_app l1 l2 :
  loggedEntries (l1 ++ l2) = loggedEntries l1 ++ loggedEntries l2.
Proof. apply bind_app. Qed.

Lemma loggedEntries_cons ex l :
  loggedEntries (ex :: l) = exerciseEntries ex ++ loggedEntries l.
Proof. reflexivity. Qed.

Lemma overlaySet_entries overlaid m set :
  mapOk m → loggedWithin overlaid m → (setKey set ∉ setKey <$> overlaid) →
  loggedEntries (JsMap.values (overlaySet m set))
  ≡ₚ loggedEntries (JsMap.values m) ++ [(WorkoutSet.exercise_id set, loggedSet set)].
Proof.
  intros [_ Hok] Hm Hfresh.
  destruct (overlaySet_cases m set) as [[Hk ->]|(m1 & ex & m2 & -> & Hk & ->)].
  - rewrite JsMap_values_app, loggedEntries_app. done.
  - apply Forall_app in Hm as [_ H2]. apply Forall_cons in H2 as [Hex _].
    apply Forall_app in Hok as [_ H2]. apply Forall_cons in H2 as [[Hid _] _].
    simpl in Hex, Hid.
    rewrite !JsMap_values_app, !loggedEntries_app.
    change (JsMap.values ((?k, ?e) :: ?m)) with (e :: JsMap.values m).
    rewrite !loggedEntries_cons, <- !app_assoc.
    apply Permutation_app_head.
    rewrite (app_assoc (exerciseEntries ex)).
    rewrite (Permutation_app_comm _ [_]), app_assoc.
    apply Permutation_app_tail.
    unfold exerciseEntries. simpl.
    rewrite (upsertSet_logged
               (λ n, (WorkoutSet.exercise_id set, n) ∈ setKey <$> overlaid)
               _ set Hex Hfresh).
    rewrite fmap_app, Hid. symmetry. apply Permutation_cons_append.
Qed.

Lemma overlay_fold_entries sets :
  ∀ overlaid m,
    NoDup (setKey <$> (overlaid ++ sets)) → mapOk m → loggedWithin overlaid m →
    loggedEntries (JsMap.values (fold_left overlaySet sets m))
    ≡ₚ loggedEntries (JsMap.values m) ++ persistedEntries sets.
Proof.
  induction sets as [|set sets IH]; intros overlaid m Hnd Hok Hm;
    cbn [fold_left].
  - unfold persistedEntries. by rewrite fmap_nil, app_nil_r.
  - assert (Hfresh : setKey set ∉ setKey <$> overlaid).
    { rewrite fmap_app, fmap_cons in Hnd.
      apply NoDup_app in Hnd as (_ & Hdisj & _).
      intros Hin. apply (Hdisj _ Hin). left. }
    destruct (overlaySet_volume overlaid m set Hm Hfresh) as [Hm' _].
    rewrite (IH (overlaid ++ [set]));
      [| by rewrite <- app_assoc | by apply overlaySet_ok | done].
    rewrite (overlaySet_entries overlaid m set Hok Hm Hfresh).
    unfold persistedEntries. by rewrite fmap_cons, <- app_assoc.
Qed.

Lemma loggedEntries_unlogged seed :
  Forall (λ kv, unloggedEntry kv.1 kv.2) seed →
  loggedEntries (JsMap.values seed) = [].
Proof.
  induction 1 as [|[k ex] seed Hex _ IH]; [done|].
  change (JsMap.values ((k, ex) :: seed)) with (ex :: JsMap.values seed).
  rewrite loggedEntries_cons, IH, app_nil_r.
  unfold exerciseEntries, unloggedEntry in *. simpl in Hex.
  assert (Hnone : filter (λ s, SetData.logged s = true) (ExerciseData.sets ex) = []);
    [|by rewrite Hnone].
  induction Hex as [|s l Hs _ IHl]; [done|].
  rewrite filter_cons_False by congruence. done.
Qed.

Lemma loggedEntries_fields l l' :
  Forall2 (λ ex ex',
             ExerciseData.exercise_id ex' = ExerciseData.exercise_id ex ∧
             ExerciseData.sets ex' ≡ₚ ExerciseData.sets ex) l l' →
  loggedEntries l' ≡ₚ loggedEntries l.
Proof.
  induction 1 as [|ex ex' l l' [Hid Hsets] _ IH]; [done|].
  rewrite !loggedEntries_cons, IH. apply Permutation_app_tail.
  unfold exerciseEntries. by rewrite Hid, Hsets.
Qed.

Lemma loggedEntries_sortAndExpand l :
  loggedEntries (sortAndExpand l) ≡ₚ loggedEntries l.
Proof.
  apply loggedEntries_fields.
  eapply Forall2_impl; [apply sortAndExpand_fields|].
  intros ex ex' (? & _ & ?). done.
Qed.

Lemma loggedEntries_fetchPreviousBest h l :
  loggedEntries (fetchPreviousBest h <$> l) = loggedEntries l.
Proof.
  induction l as [|ex l IH]; [done|].
  rewrite fmap_cons, !loggedEntries_cons, IH. f_equal.
  unfold exerciseEntries.
  by destruct (fetchPreviousBest_fields h ex) as (-> & _ & -> & _).
Qed.

Lemma seedExerciseMap_Resolved routine_name routines :
  ∃ seed, seedExerciseMap routine_name (Resolved routines) = Resolved seed.
Proof.
  unfold seedExerciseMap. destruct routine_name as [n|]; [|by eexists].
  destruct (truthy n); [|by eexists].
  destruct (findRoutine n routines); by eexists.
Qed.

Lemma totalSetsLogged_entries exs :
  totalSetsLogged exs = Z.of_nat (length (loggedEntries exs)).
Proof.
  unfold totalSetsLogged.
  rewrite (fold_left_add
    (λ ex, Z.of_nat (length (filter (λ s, SetData.logged s = true)
                                    (ExerciseData.sets ex))))).
  rewrite Z.add_0_l.
  induction exs as [|ex exs IH]; [done|].
  rewrite fmap_cons, sumZ_cons, IH, loggedEntries_cons, length_app.
  unfold exerciseEntries. rewrite length_fmap. lia.
Qed.

(** X1. When the persisted sets of the session have pairwise distinct
    (exercise, set number) keys, the logged entries of the view built by
    [loadWorkout] are, up to their order, the persisted sets themselves, each
    under its exercise id and with its id, set number, weight, repetitions
    and rpe: no persisted set is lost, none is doubled, and no placeholder of
    the routine counts as logged. So the number of sets shown as logged is
    the number of persisted sets. *)
Theorem loadWorkout_logged_entries
    (data : WorkoutDetail.t) (routines : list Routine.t)
    (getExerciseHistory : string → promise (list HistoryEntry.t)) :
  NoDup (setKey <$> WorkoutDetail.workout_sets data) →
  let view := exercises (loadWorkout initialState (Resolved data)
                           (Resolved routines) getExerciseHistory) in
  loggedEntries view ≡ₚ persistedEntries (WorkoutDetail.workout_sets data)
  ∧ totalSetsLogged view = Z.of_nat (length (WorkoutDetail.workout_sets data)).
Proof.
  intros Hnd view.
  assert (Hperm : loggedEntries view
                  ≡ₚ persistedEntries (WorkoutDetail.workout_sets data)).
  { subst view. unfold loadWorkout.
    destruct (seedExerciseMap_Resolved (WorkoutDetail.routine_name data) routines)
      as [seed Hseed].
    rewrite Hseed. simpl. unfold reconcile.
    rewrite loggedEntries_fetchPreviousBest, loggedEntries_sortAndExpand.
    pose proof (seedExerciseMap_unlogged _ _ _ Hseed) as Hunlogged.
    rewrite (overlay_fold_entries _ [] seed);
      [| done | by eapply seedExerciseMap_ok | by apply unlogged_volume].
    by rewrite loggedEntries_unlogged. }
  split; [done|].
  rewrite totalSetsLogged_entries, Hperm. unfold persistedEntries.
  by rewrite length_fmap.
Qed.

Lemma loadWorkout_logged_entries_witness :
  totalSetsLogged (ExampleAB.view (λ _, Resolved [])) = 2.
Proof.
  apply (loadWorkout_logged_entries ExampleAB.data [ExampleAB.routine]
           (λ _, Resolved [])).
  apply (bool_decide_unpack _). vm_compute. exact I.
Defined.

(** ** Update or add: the set list as a table keyed by set number *)

Lemma upsertSet_nil set : upsertSet [] set = [loggedSet set].
Proof. reflexivity. Qed.

Lemma upsertSet_cons s l set :
  upsertSet (s :: l) set
  = if decide (SetData.set_number s = WorkoutSet.set_number set)
    then loggedSet set :: l else s :: upsertSet l set.
Proof.
  unfold upsertSet, findSetIndex. cbn [list_find].
  case_decide; [done|].
  by destruct (list_find _ l) as [[i y]|].
Qed.

Lemma findSet_nil n : findSet n [] = None.
Proof. reflexivity. Qed.

Lemma findSet_cons n s l :
  findSet n (s :: l)
  = if decide (SetData.set_number s = n) then Some s else findSet n l.
Proof.
  unfold findSet. cbn [list_find]. case_decide; [done|].
  by destruct (list_find _ l) as [[i y]|].
Qed.

(** X2. Lines 122-142 treat the set list of an exercise as a table keyed by
    set number: after a persisted set is put in, its number looks up the
    entry written for it; every other number looks up what it did before;
    the list grows by one exactly when the number was not there; and putting
    in a second set with the same number leaves what putting in the second
    alone would have left. *)
Theorem upsertSet_lookup (sets : list SetData.t) (set : WorkoutSet.t) :
  findSet (WorkoutSet.set_number set) (upsertSet sets set) = Some (loggedSet set)
  ∧ (∀ n, n ≠ WorkoutSet.set_number set →
          findSet n (upsertSet sets set) = findSet n sets)
  ∧ length (upsertSet sets set)
    = match findSet (WorkoutSet.set_number set) sets with
      | Some _ => length sets
      | None => S (length sets)
      end
  ∧ (∀ set', WorkoutSet.set_number set' = WorkoutSet.set_number set →
             upsertSet (upsertSet sets set) set' = upsertSet sets set').
Proof.
  induction sets as [|s l (IH1 & IH2 & IH3 & IH4)].
  - rewrite upsertSet_nil. split_and!.
    + rewrite findSet_cons. by rewrite decide_True.
    + intros n Hn. rewrite findSet_cons, decide_False by done. done.
    + done.
    + intros set' Heq. rewrite upsertSet_cons, upsertSet_nil.
      by rewrite decide_True.
  - rewrite upsertSet_cons. rewrite (findSet_cons _ s l).
    case_decide as Hs.
    + split_and!.
      * rewrite findSet_cons. by rewrite decide_True.
      * intros n Hn. rewrite !findSet_cons.
        rewrite !decide_False by (simpl; congruence). done.
      * done.
      * intros set' Heq. rewrite !upsertSet_cons.
        rewrite !decide_True by (simpl; congruence). done.
    + split_and!.
      * rewrite findSet_cons, decide_False by done. done.
      * intros n Hn. rewrite !findSet_cons. case_decide; [done | by apply IH2].
      * cbn [length]. rewrite IH3. by destruct (findSet _ l).
      * intros set' Heq. rewrite !upsertSet_cons.
        rewrite !decide_False by congruence. by rewrite IH4.
Qed.

Lemma upsertSet_lookup_witness :
  let sets := placeholderSets 2 in
  let set := WorkoutSet.mk "s9" "B" 2 80 12 None None in
  findSet 1 (upsertSet sets set) = findSet 1 sets.
Proof.
  intros sets set.
  apply (proj1 (proj2 (upsertSet_lookup sets set)) 1). simpl. lia.
Defined.

(** ** The order of the exercises in the view *)

Lemma appendNew_set {V} (m : JsMap.t V) k v :
  JsMap.keys (JsMap.set m k v) = appendNew (JsMap.keys m) k.
Proof.
  unfold appendNew.
  destruct (JsMap_set_cases m k v) as [[Hk ->]|(m1 & v0 & m2 & -> & _ & ->)].
  - rewrite decide_False by done. by rewrite JsMap_keys_app.
  - rewrite decide_True; [by rewrite !JsMap_keys_app|].
    rewrite JsMap_keys_app, elem_of_app. right. left.
Qed.

Lemma appendNew_overlaySet m set :
  JsMap.keys (overlaySet m set) = appendNew (JsMap.keys m) (WorkoutSet.exercise_id set).
Proof.
  unfold appendNew.
  destruct (overlaySet_cases m set) as [[Hk ->]|(m1 & ex & m2 & -> & _ & ->)].
  - rewrite decide_False by done. by rewrite JsMap_keys_app.
  - rewrite decide_True; [by rewrite !JsMap_keys_app|].
    rewrite JsMap_keys_app, elem_of_app. right. left.
Qed.

Lemma overlay_fold_keys sets m :
  JsMap.keys (fold_left overlaySet sets m)
  = fold_left appendNew (WorkoutSet.exercise_id <$> sets) (JsMap.keys m).
Proof.
  revert m. induction sets as [|set sets IH]; intros m; [done|].
  cbn [fold_left]. rewrite fmap_cons. cbn [fold_left].
  by rewrite IH, appendNew_overlaySet.
Qed.

Lemma seedFromRoutine_keys routine :
  JsMap.keys (seedFromRoutine routine)
  = fold_left appendNew (RoutineExercise.exercise_id <$> Routine.exercises routine) [].
Proof.
  unfold seedFromRoutine.
  change (@nil string) with (JsMap.keys (JsMap.empty (V:=ExerciseData.t))).
  generalize (JsMap.empty (V:=ExerciseData.t)).
  induction (Routine.exercises routine) as [|ex l IH]; intros m; [done|].
  cbn [fold_left]. rewrite fmap_cons. cbn [fold_left].
  by rewrite IH, appendNew_set.
Qed.

Lemma mapOk_ids m :
  mapOk m → ExerciseData.exercise_id <$> JsMap.values m = JsMap.keys m.
Proof.
  intros [_ Hall]. unfold JsMap.values, JsMap.keys.
  induction Hall as [|[k ex] m [Hid _] _ IH]; [done|].
  rewrite !fmap_cons, IH. simpl in *. by rewrite Hid.
Qed.

(** X3. The exercises of the view come in the order of the map: first the
    exercises of the routine found by name, in the order of its list (a
    repeated id keeps its first place), then the exercises that occur only in
    the persisted sets, in the order in which they first occur there. Without
    a routine the view lists the exercises of the persisted sets in the order
    of their first occurrence. *)
Theorem loadWorkout_exercise_order
    (data : WorkoutDetail.t) (routines : list Routine.t)
    (getExerciseHistory : string → promise (list HistoryEntry.t)) :
  let view := exercises (loadWorkout initialState (Resolved data)
                           (Resolved routines) getExerciseHistory) in
  let planned :=
    match WorkoutDetail.routine_name data with
    | Some n =>
        if truthy n then
          match findRoutine n routines with
          | Some routine => RoutineExercise.exercise_id <$> Routine.exercises routine
          | None => []
          end
        else []
    | None => []
    end in
  ExerciseData.exercise_id <$> view
  = fold_left appendNew
      (planned ++ (WorkoutSet.exercise_id <$> WorkoutDetail.workout_sets data)) [].
Proof.
  intros view planned. subst view. unfold loadWorkout.
  destruct (seedExerciseMap_Resolved (WorkoutDetail.routine_name data) routines)
    as [seed Hseed].
  rewrite Hseed. simpl. unfold reconcile.
  rewrite <- list_fmap_compose.
  erewrite list_fmap_ext;
    [|intros i ex _; unfold compose; apply fetchPreviousBest_fields].
  rewrite sortAndExpand_ids.
  pose proof (seedExerciseMap_ok _ _ _ Hseed) as Hok.
  rewrite (mapOk_ids _ (overlay_fold_ok _ _ Hok)), overlay_fold_keys.
  rewrite fold_left_app. f_equal.
  subst planned. unfold seedExerciseMap in Hseed.
  destruct (WorkoutDetail.routine_name data) as [n|]; [|by simplify_eq].
  destruct (truthy n); [|by simplify_eq].
  destruct (findRoutine n routines) as [routine|]; simplify_eq; [|done].
  apply seedFromRoutine_keys.
Qed.

(** ** Where the sets of the view are sorted *)

Lemma everyLogged_Permutation ex ex' :
  ExerciseData.sets ex' ≡ₚ ExerciseData.sets ex → everyLogged ex' = everyLogged ex.
Proof. intros Hperm. unfold everyLogged. by apply forallb_Permutation. Qed.

(** X4. In the view built by [loadWorkout], the sets of an exercise are in
    ascending order of their set numbers whenever every exercise before it is
    fully logged: the first exercise with an unlogged set, and all exercises
    before it, have sorted sets. *)
Theorem loadWorkout_sorted_until_first_incomplete
    (getWorkout : promise WorkoutDetail.t) (listRoutines : promise (list Routine.t))
    (getExerciseHistory : string → promise (list HistoryEntry.t))
    (i : nat) (ex : ExerciseData.t) :
  let view := exercises (loadWorkout initialState getWorkout listRoutines
                           getExerciseHistory) in
  view !! i = Some ex →
  (∀ (j : nat) (ex' : ExerciseData.t),
     (j < i)%nat → view !! j = Some ex' → everyLogged ex' = true) →
  setsSorted ex.
Proof.
  intros view Hi Hprev. subst view.
  destruct (loadWorkout_exercises getWorkout listRoutines getExerciseHistory)
    as [Hnil|(data & seed & _ & _ & Hview)].
  { by rewrite Hnil in Hi. }
  rewrite Hview in Hi, Hprev. clear Hview. unfold exerciseArray in *.
  set (l0 := JsMap.values _) in *.
  rewrite list_lookup_fmap in Hi.
  destruct (sortAndExpand l0 !! i) as [ex0|] eqn:Hi0; simplify_eq/=.
  unfold setsSorted.
  destruct (fetchPreviousBest_fields getExerciseHistory ex0) as (_ & _ & -> & _).
  apply (sortAndExpand_sorted_prefix l0 i ex0 Hi0).
  intros j e0 Hj He0.
  destruct (Forall2_lookup_l _ _ _ _ _ (sortAndExpand_fields l0) He0)
    as (e1 & He1 & _ & _ & Hsets).
  rewrite <- (everyLogged_Permutation _ _ Hsets).
  rewrite <- (fetchPreviousBest_everyLogged getExerciseHistory e1).
  apply (Hprev j); [done|]. by rewrite list_lookup_fmap, He1.
Qed.

Lemma loadWorkout_sorted_until_first_incomplete_witness :
  ∃ ex, ExampleAB.view (λ _, Resolved []) !! 0%nat = Some ex ∧ setsSorted ex.
Proof.
  eexists. split; [reflexivity|].
  apply (loadWorkout_sorted_until_first_incomplete
           (Resolved ExampleAB.data) (Resolved [ExampleAB.routine])
           (λ _, Resolved []) 0%nat).
  - reflexivity.
  - intros j ex' Hj. lia.
Defined.

(** ** A session without a routine *)

Lemma upsertSet_Forall (P : SetData.t → Prop) sets set :
  Forall P sets → P (loggedSet set) → Forall P (upsertSet sets set).
Proof.
  intros Hsets Hset.
  destruct (upsertSet_cases sets set) as [[_ ->]|(l1 & t & l2 & -> & _ & _ & ->)].
  - apply Forall_app. split; [done | by apply Forall_singleton].
  - apply Forall_app in Hsets as [H1 H2]. apply Forall_cons in H2 as [_ H2].
    apply Forall_app. split; [done | by apply Forall_cons].
Qed.

Lemma upsertSet_not_nil sets set : upsertSet sets set ≠ [].
Proof.
  destruct sets as [|s l]; [done|]. rewrite upsertSet_cons. by case_decide.
Qed.

Lemma overlay_fold_all_logged sets :
  ∀ m,
    Forall (λ kv, Forall (λ s, SetData.logged s = true) (ExerciseData.sets kv.2) ∧
                  ExerciseData.sets kv.2 ≠ []) m →
    Forall (λ kv, Forall (λ s, SetData.logged s = true) (ExerciseData.sets kv.2) ∧
                  ExerciseData.sets kv.2 ≠ [])
           (fold_left overlaySet sets m).
Proof.
  induction sets as [|set sets IH]; intros m Hm; [done|].
  cbn [fold_left]. apply IH.
  destruct (overlaySet_cases m set) as [[Hk ->]|(m1 & ex & m2 & -> & Hk & ->)].
  - apply Forall_app. split; [done|]. apply Forall_singleton. simpl.
    split; [by apply Forall_singleton | done].
  - apply Forall_app in Hm as [H1 H2]. apply Forall_cons in H2 as [[Hex _] H2].
    apply Forall_app. split; [done|]. apply Forall_cons. split; [|done].
    simpl. split; [by apply upsertSet_Forall | apply upsertSet_not_nil].
Qed.

Lemma sortAndExpand_all_logged l :
  Forall (λ ex, everyLogged ex = true) l →
  sortAndExpand l
  = (λ ex, ExerciseData.with_sets (sortSets (ExerciseData.sets ex)) ex) <$> l.
Proof.
  induction 1 as [|ex l Hex _ IH]; [done|]. cbn [sortAndExpand].
  rewrite everyLogged_sortSets, Hex, IH. done.
Qed.

(** X5. For a session without a routine name, every exercise of the view
    built by [loadWorkout] has at least one set, all its sets are logged and
    in ascending order of their numbers, and it is collapsed: nothing is
    expanded when a quick workout is opened again. *)
Theorem loadWorkout_without_routine
    (data : WorkoutDetail.t) (listRoutines : promise (list Routine.t))
    (getExerciseHistory : string → promise (list HistoryEntry.t)) :
  WorkoutDetail.routine_name data = None →
  Forall (λ ex, ExerciseData.sets ex ≠ [] ∧ everyLogged ex = true ∧
                setsSorted ex ∧ ExerciseData.expanded ex = false)
         (exercises (loadWorkout initialState (Resolved data) listRoutines
                                 getExerciseHistory)).
Proof.
  intros Hname. unfold loadWorkout, seedExerciseMap. rewrite Hname. simpl.
  unfold reconcile.
  pose proof (overlay_fold_all_logged (WorkoutDetail.workout_sets data)
                JsMap.empty (Forall_nil_2 _)) as Hlogged.
  assert (Hok : mapOk (fold_left overlaySet (WorkoutDetail.workout_sets data)
                                 JsMap.empty)).
  { apply overlay_fold_ok. split; [apply NoDup_nil_2 | apply Forall_nil_2]. }
  apply mapOk_values in Hok as [_ Hcollapsed].
  set (l0 := JsMap.values _) in *.
  assert (Hall : Forall (λ ex, ExerciseData.sets ex ≠ [] ∧ everyLogged ex = true) l0).
  { subst l0. unfold JsMap.values. apply Forall_fmap.
    eapply Forall_impl; [exact Hlogged|]. intros [k ex] [Hl Hne]. simpl in *.
    split; [done|]. unfold everyLogged. apply forallb_forall.
    intros s Hs%list_elem_of_In. rewrite Forall_forall in Hl. by apply Hl. }
  rewrite sortAndExpand_all_logged
    by (eapply Forall_impl; [exact Hall|]; by intros ex [_ ?]).
  rewrite <- list_fmap_compose. apply Forall_fmap.
  apply Forall_forall. intros ex Hex. unfold compose.
  rewrite Forall_forall in Hall, Hcollapsed.
  destruct (Hall ex Hex) as [Hne Hev]. destruct (Hcollapsed ex Hex) as (Hexp & _).
  destruct (fetchPreviousBest_fields getExerciseHistory
              (ExerciseData.with_sets (sortSets (ExerciseData.sets ex)) ex))
    as (_ & _ & Hsets & Hexpanded).
  unfold setsSorted. rewrite fetchPreviousBest_everyLogged, Hsets, Hexpanded.
  simpl. split_and!.
  - intros Hnil. apply Hne. apply Permutation_nil_r.
    rewrite <- Hnil. symmetry. apply sortSets_Permutation.
  - by rewrite everyLogged_sortSets.
  - apply sortSets_sorted.
  - done.
Qed.

Lemma loadWorkout_without_routine_witness :
  Forall (λ ex, ExerciseData.sets ex ≠ [] ∧ everyLogged ex = true ∧
                setsSorted ex ∧ ExerciseData.expanded ex = false)
         (exercises BelowZero.state).
Proof.
  apply (loadWorkout_without_routine BelowZero.quickWorkout (Resolved [])
           (λ _, Resolved [])).
  reflexivity.
Defined.

(** ** What a failing request does to the load *)

(** X6. [loadWorkout] asks for the routine list only when the session
    carries a non-empty routine name. If the request for the list fails, the
    page is sent to the dashboard exactly in that case, with no exercise
    listed although the session itself arrived; for a session without a
    routine name, or with an empty one, the outcome of that request does not
    matter at all. If the request for the session fails, the page is sent to
    the dashboard with nothing loaded. *)
Theorem loadWorkout_failures
    (data : WorkoutDetail.t) (reason : string)
    (getExerciseHistory : string → promise (list HistoryEntry.t)) :
  let named := ∃ n, WorkoutDetail.routine_name data = Some n ∧ n ≠ EmptyString in
  let st := loadWorkout initialState (Resolved data) (Rejected reason)
                        getExerciseHistory in
  (pushed st = Some "/dashboard" ↔ named)
  ∧ (named → exercises st = [] ∧ loading st = false ∧ workout st ≠ None)
  ∧ (¬ named →
     ∀ listRoutines,
       loadWorkout initialState (Resolved data) listRoutines getExerciseHistory = st)
  ∧ (∀ listRoutines,
       loadWorkout initialState (Rejected reason) listRoutines getExerciseHistory
       = mkState false None [] false EmptyString [] false (Some "/dashboard")).
Proof.
  simpl. unfold loadWorkout, seedExerciseMap, truthy.
  destruct (WorkoutDetail.routine_name data) as [n|] eqn:Hname.
  - case_bool_decide as Hempty; simpl.
    + subst n. split_and!.
      * split; [done|]. by intros (n & [= <-] & ?).
      * by intros (n & [= <-] & ?).
      * done.
      * done.
    + split_and!.
      * split; [intros _; by exists n | done].
      * done.
      * intros Hnot. exfalso. apply Hnot. by exists n.
      * done.
  - simpl. split_and!.
    + split; [done | by intros (n & ? & _)].
    + by intros (n & ? & _).
    + done.
    + done.
Qed.

Lemma loadWorkout_failures_witness :
  exercises (loadWorkout initialState (Resolved ExampleAB.data) (Rejected "offline")
                         (λ _, Resolved [])) = [].
Proof.
  apply (loadWorkout_failures ExampleAB.data "offline" (λ _, Resolved [])).
  exists "Push". split; [reflexivity | done].
Defined.

(** ** The handlers of the workout page *)

Lemma set_exercises_same st : set_exercises (exercises st) st = st.
Proof. by destruct st. Qed.

Lemma keyed_update {A K} `{EqDecision K} (key : A → K) (f : A → A)
    (l : list A) (x : A) :
  NoDup (key <$> l) → x ∈ l →
  ∃ l1 l2, l = l1 ++ x :: l2 ∧
           ((λ y, if decide (key y = key x) then f y else y) <$> l)
           = l1 ++ f x :: l2.
Proof.
  induction l as [|y l IH]; intros Hnd Hin; [by apply elem_of_nil in Hin|].
  rewrite fmap_cons in Hnd. apply NoDup_cons in Hnd as [Hy Hnd].
  apply elem_of_cons in Hin as [->|Hin].
  - exists [], l. split; [done|]. rewrite fmap_cons, decide_True by done.
    simpl. f_equal. rewrite <- (list_fmap_id l) at 2.
    apply Forall_fmap_ext, Forall_forall. intros z Hz.
    rewrite decide_False; [done|]. intros Heq. apply Hy. rewrite <- Heq.
    by apply list_elem_of_fmap_2.
  - assert (Hne : key y ≠ key x).
    { intros Heq. apply Hy. rewrite Heq. by apply list_elem_of_fmap_2. }
    destruct (IH Hnd Hin) as (l1 & l2 & -> & Hmap).
    exists (y :: l1), l2. split; [done|].
    rewrite fmap_cons, decide_False by done. by rewrite Hmap.
Qed.

Lemma mapExercise_keyed exerciseId f l :
  mapExercise exerciseId f l
  = (λ ex, if decide (ExerciseData.exercise_id ex = exerciseId) then f ex else ex) <$> l.
Proof.
  unfold mapExercise. apply list_fmap_ext. intros i ex _.
  by destruct (decide (ExerciseData.exercise_id ex = exerciseId));
    [rewrite decide_False by (by intros ?) | rewrite decide_True].
Qed.

Lemma mapExercise_absent exerciseId f l :
  (exerciseId ∉ ExerciseData.exercise_id <$> l) → mapExercise exerciseId f l = l.
Proof.
  intros Hk. unfold mapExercise. rewrite <- (list_fmap_id l) at 2.
  apply Forall_fmap_ext, Forall_forall. intros ex Hex.
  rewrite decide_True; [done|]. intros Heq. apply Hk. rewrite <- Heq.
  by apply list_elem_of_fmap_2.
Qed.

(** X7. Clicking the header of an exercise twice leaves the page as it was:
    [toggleExercise] is its own inverse. *)
Theorem toggleExercise_involution (st : State) (exerciseId : string) :
  toggleExercise (toggleExercise st exerciseId) exerciseId = st.
Proof.
  unfold toggleExercise. destruct st as [ld wk exs sa sq sr sg pu]. simpl.
  unfold set_exercises. simpl. f_equal.
  rewrite <- list_fmap_compose. rewrite <- (list_fmap_id exs) at 2.
  apply list_fmap_ext. intros i ex _. unfold compose.
  destruct ex as [k n sets best b]. simpl.
  destruct (decide (k = exerciseId)) as [Hk|Hk]; simpl.
  - rewrite decide_True by done. unfold ExerciseData.with_expanded. simpl.
    by rewrite negb_involutive.
  - by rewrite decide_False.
Qed.

Lemma logged_count_marks (a b : list SetData.t) :
  SetData.logged <$> a = SetData.logged <$> b →
  length (filter (λ s, SetData.logged s = true) a)
  = length (filter (λ s, SetData.logged s = true) b).
Proof.
  revert b. induction a as [|s a IH]; intros [|s' b] Heq; simplify_eq/=; [done|].
  rewrite !filter_cons. destruct (SetData.logged s) eqn:Hs.
  - rewrite decide_True, (decide_True (P:=SetData.logged s' = true)) by congruence.
    simpl. f_equal. by apply IH.
  - rewrite decide_False, (decide_False (P:=SetData.logged s' = true)) by congruence.
    by apply IH.
Qed.

Lemma totalSetsLogged_marks l l' :
  Forall2 (λ ex ex', SetData.logged <$> ExerciseData.sets ex'
                     = SetData.logged <$> ExerciseData.sets ex) l l' →
  totalSetsLogged l' = totalSetsLogged l.
Proof.
  intros Hall. rewrite !totalSetsLogged_entries. f_equal.
  induction Hall as [|ex ex' l l' Hlogged _ IH]; [done|].
  rewrite !loggedEntries_cons, !length_app, IH. f_equal.
  unfold exerciseEntries. rewrite !length_fmap. by apply logged_count_marks.
Qed.

(** X8. [updateSet] writes one field of the sets with the given number in
    the exercise with the given id and nothing else: after it, every set with
    that number in an exercise with that id holds the value in the field and
    is otherwise as before, every other set and every other exercise is as
    before, and so is the rest of the page. Set numbers and logged marks
    stay, so the number of logged sets stays; writing the same field twice
    leaves the last value; writing weight and repetitions gives the same
    whichever comes first. *)
Theorem updateSet_last_write_wins
    (st : State) (exerciseId : string) (setNumber : Z) :
  (∀ field v,
     let st' := updateSet st exerciseId setNumber field v in
     st' = set_exercises (exercises st') st
     ∧ Forall2
         (λ ex ex',
            (ExerciseData.exercise_id ex ≠ exerciseId → ex' = ex) ∧
            (ExerciseData.exercise_id ex = exerciseId →
             ex' = ExerciseData.with_sets (ExerciseData.sets ex') ex ∧
             Forall2
               (λ s s',
                  (SetData.set_number s ≠ setNumber → s' = s) ∧
                  (SetData.set_number s = setNumber →
                   match field with
                   | FieldWeight => s' = SetData.with_weight v s
                   | FieldReps => s' = SetData.with_reps v s
                   end ∧
                   match field with
                   | FieldWeight => SetData.weight s' = v
                   | FieldReps => SetData.reps s' = v
                   end))
               (ExerciseData.sets ex) (ExerciseData.sets ex')))
         (exercises st) (exercises st'))
  ∧ (∀ field v,
     let st' := updateSet st exerciseId setNumber field v in
     Forall2 (λ ex ex',
                ExerciseData.exercise_id ex' = ExerciseData.exercise_id ex ∧
                SetData.set_number <$> ExerciseData.sets ex'
                  = SetData.set_number <$> ExerciseData.sets ex ∧
                SetData.logged <$> ExerciseData.sets ex'
                  = SetData.logged <$> ExerciseData.sets ex)
             (exercises st) (exercises st')
     ∧ totalSetsLogged (exercises st') = totalSetsLogged (exercises st))
  ∧ (∀ field v w,
       updateSet (updateSet st exerciseId setNumber field v)
                 exerciseId setNumber field w
       = updateSet st exerciseId setNumber field w)
  ∧ (∀ v w,
       updateSet (updateSet st exerciseId setNumber FieldWeight v)
                 exerciseId setNumber FieldReps w
       = updateSet (updateSet st exerciseId setNumber FieldReps w)
                   exerciseId setNumber FieldWeight v).
Proof.
  assert (Hfields : ∀ field v,
    Forall2 (λ ex ex',
               ExerciseData.exercise_id ex' = ExerciseData.exercise_id ex ∧
               SetData.set_number <$> ExerciseData.sets ex'
                 = SetData.set_number <$> ExerciseData.sets ex ∧
               SetData.logged <$> ExerciseData.sets ex'
                 = SetData.logged <$> ExerciseData.sets ex)
            (exercises st)
            (exercises (updateSet st exerciseId setNumber field v))).
  { intros field v. simpl. unfold mapExercise.
    apply Forall2_fmap_r, Forall2_same_length_lookup_2; [done|].
    intros i ex ex' Hex Hex'. simplify_eq. unfold compose.
    case_decide; [done|]. simpl. split; [done|].
    unfold mapSet. rewrite <- !list_fmap_compose.
    split; apply list_fmap_ext; intros j s _; unfold compose;
      case_decide; by destruct field. }
  split_and!.
  - intros field v. cbn zeta. split; [by destruct st|].
    cbn [updateSet set_exercises exercises]. unfold mapExercise.
    apply Forall2_fmap_r, Forall2_same_length_lookup_2; [done|].
    intros i ex ex' Hex Hex'. simplify_eq. unfold compose.
    destruct (decide (ExerciseData.exercise_id ex ≠ exerciseId)) as [Hid|Hid];
      (split; [done|]); intros Hid'; [done|].
    split; [done|]. cbn [ExerciseData.with_sets ExerciseData.sets].
    unfold mapSet.
    apply Forall2_fmap_r, Forall2_same_length_lookup_2; [done|].
    intros j s s' Hs Hs'. simplify_eq. unfold compose.
    destruct (decide (SetData.set_number s = setNumber)) as [Hn|Hn];
      (split; [done|]); intros Hn'; [|done].
    by destruct field.
  - intros field v. split; [apply Hfields|].
    apply totalSetsLogged_marks.
    eapply Forall2_impl; [apply Hfields|]. by intros ex ex' (_ & _ & ?).
  - intros field v w. unfold updateSet. destruct st as [ld wk exs sa sq sr sg pu].
    unfold set_exercises. simpl. f_equal.
    unfold mapExercise. rewrite <- list_fmap_compose.
    apply list_fmap_ext. intros i ex _. unfold compose.
    destruct (decide (ExerciseData.exercise_id ex ≠ exerciseId)) as [Hid|Hid];
      [by rewrite decide_True|].
    simpl. rewrite decide_False by done.
    unfold ExerciseData.with_sets. simpl. f_equal.
    unfold mapSet. rewrite <- list_fmap_compose.
    apply list_fmap_ext. intros j s _. unfold compose.
    destruct (decide (SetData.set_number s = setNumber)) as [Hn|Hn];
      [|by rewrite decide_False].
    destruct field; (rewrite decide_True by done); by destruct s.
  - intros v w. unfold updateSet. destruct st as [ld wk exs sa sq sr sg pu].
    unfold set_exercises. simpl. f_equal.
    unfold mapExercise. rewrite <- !list_fmap_compose.
    apply list_fmap_ext. intros i ex _. unfold compose.
    destruct (decide (ExerciseData.exercise_id ex ≠ exerciseId)) as [Hid|Hid];
      [by rewrite !decide_True|].
    simpl. rewrite !decide_False by done.
    unfold ExerciseData.with_sets. simpl. f_equal.
    unfold mapSet. rewrite <- !list_fmap_compose.
    apply list_fmap_ext. intros j s _. unfold compose.
    destruct (decide (SetData.set_number s = setNumber)) as [Hn|Hn];
      [|by rewrite !decide_False].
    rewrite !decide_True by done. by destruct s.
Qed.

Lemma mapSet_keyed setNumber f (l : list SetData.t) (s : SetData.t) :
  SetData.set_number s = setNumber →
  mapSet setNumber f l
  = (λ y, if decide (SetData.set_number y = SetData.set_number s) then f y else y) <$> l.
Proof. by intros <-. Qed.

Lemma totalVolume_app l1 l2 :
  totalVolume (l1 ++ l2) = totalVolume l1 + totalVolume l2.
Proof. by rewrite !totalVolume_sum, fmap_app, sumZ_app. Qed.

Lemma totalVolume_cons ex l :
  totalVolume (ex :: l) = exerciseVolume ex + totalVolume l.
Proof. by rewrite !totalVolume_sum, fmap_cons, sumZ_cons. Qed.

Lemma totalSetsLogged_app l1 l2 :
  totalSetsLogged (l1 ++ l2) = totalSetsLogged l1 + totalSetsLogged l2.
Proof. rewrite !totalSetsLogged_entries, loggedEntries_app, length_app. lia. Qed.

Lemma totalSetsLogged_cons ex l :
  totalSetsLogged (ex :: l)
  = Z.of_nat (length (filter (λ s, SetData.logged s = true) (ExerciseData.sets ex)))
    + totalSetsLogged l.
Proof.
  rewrite !totalSetsLogged_entries, loggedEntries_cons, length_app.
  unfold exerciseEntries. rewrite length_fmap. lia.
Qed.

(** X10. [handleSearch] asks the catalogue only for a query of two or more
    characters. What it offers then is the answer without the exercises of
    the view, in the order of the answer; a failed request offers nothing;
    a shorter query offers nothing and sends nothing. The view is never
    touched, and an exercise that has just been added is not offered by the
    next search. *)
Theorem handleSearch_offers_new_exercises
    (st : State) (query : string) (searchExercises : promise (list Exercise.t)) :
  let searched := handleSearch st query searchExercises in
  let inView := λ r, Exercise.id r ∈ ExerciseData.exercise_id <$> exercises st in
  exercises searched.1 = exercises st ∧ searchQuery searched.1 = query
  ∧ ((String.length query < 2)%nat →
     searched.2 = [] ∧ searchResults searched.1 = [])
  ∧ ((2 ≤ String.length query)%nat →
     searched.2 = [CallSearchExercises query] ∧
     searching searched.1 = false ∧
     searchResults searched.1
     = match searchExercises with
       | Resolved results => filter (λ r, ¬ inView r) results
       | Rejected _ => []
       end)
  ∧ (∀ added more,
       Forall (λ r, Exercise.id r ≠ Exercise.id added)
              (searchResults (handleSearch (addExercise st added) query more).1)).
Proof.
  simpl. split_and!.
  - unfold handleSearch. by case_decide.
  - unfold handleSearch. by case_decide.
  - intros Hshort. unfold handleSearch. by rewrite decide_True.
  - intros Hlong. unfold handleSearch. rewrite decide_False by lia. simpl.
    split_and!; [done | done |].
    destruct searchExercises as [results|]; [|done].
    apply list_filter_iff. intros r. by rewrite elem_of_list_to_set.
  - intros added more. unfold handleSearch. case_decide; [apply Forall_nil_2|].
    simpl. destruct more as [results|]; [|apply Forall_nil_2].
    apply Forall_forall. intros r [Hr _]%list_elem_of_filter.
    rewrite elem_of_list_to_set, fmap_app, elem_of_app in Hr.
    intros Heq. apply Hr. right. rewrite Heq. left.
Qed.

Lemma handleSearch_offers_new_exercises_witness :
  searchResults (handleSearch Run.opened "ro" (Resolved [Run.squat; Run.barbellRow])).1
  = [Run.barbellRow].
Proof.
  pose proof (handleSearch_offers_new_exercises Run.opened "ro"
                (Resolved [Run.squat; Run.barbellRow])) as (_ & _ & _ & Hlong & _).
  destruct Hlong as (_ & _ & ->); [simpl; lia|].
  rewrite filter_cons_False; [|intros Hnot; apply Hnot; vm_compute; left].
  rewrite filter_cons_True; [done|].
  vm_compute. intros Hin. repeat (apply elem_of_cons in Hin as [Hin|Hin]; [discriminate|]).
  by apply elem_of_nil in Hin.
Defined.

(** X11. A handler that is given the id of an exercise that is not in the
    view changes nothing on the page: no exercise is toggled, no set is
    written, added or marked as logged. *)
Theorem handlers_ignore_unknown_exercise
    (workoutId : string) (st : State) (exerciseId : string) :
  (exerciseId ∉ ExerciseData.exercise_id <$> exercises st) →
  toggleExercise st exerciseId = st
  ∧ (∀ setNumber field value, updateSet st exerciseId setNumber field value = st)
  ∧ addSetToExercise st exerciseId = st
  ∧ (∀ set logSet, (handleLogSet workoutId st exerciseId set logSet).1 = st).
Proof.
  intros Hk. split_and!.
  - unfold toggleExercise.
    assert (Hsame :
      (λ ex, if decide (ExerciseData.exercise_id ex = exerciseId)
             then ExerciseData.with_expanded (negb (ExerciseData.expanded ex)) ex
             else ex) <$> exercises st = exercises st).
    { rewrite <- (list_fmap_id (exercises st)) at 2.
      apply Forall_fmap_ext, Forall_forall. intros ex Hex.
      rewrite decide_False; [done|]. intros Heq. apply Hk. rewrite <- Heq.
      by apply list_elem_of_fmap_2. }
    rewrite Hsame. apply set_exercises_same.
  - intros setNumber field value. unfold updateSet.
    rewrite mapExercise_absent by done. apply set_exercises_same.
  - unfold addSetToExercise.
    rewrite mapExercise_absent by done. apply set_exercises_same.
  - intros set logSet. unfold handleLogSet. case_decide; [done|].
    destruct logSet; [|done]. simpl.
    rewrite mapExercise_absent by done. apply set_exercises_same.
Qed.

Lemma handlers_ignore_unknown_exercise_witness :
  addSetToExercise Run.opened "Z" = Run.opened.
Proof.
  apply (handlers_ignore_unknown_exercise "w1" Run.opened "Z").
  vm_compute. intros Hin.
  repeat (apply elem_of_cons in Hin as [Hin|Hin]; [discriminate|]).
  by apply elem_of_nil in Hin.
Defined.

Lemma totals_same_logged l l' :
  Forall2 (λ ex ex',
             filter (λ s, SetData.logged s = true) (ExerciseData.sets ex')
             = filter (λ s, SetData.logged s = true) (ExerciseData.sets ex)) l l' →
  totalVolume l' = totalVolume l ∧ totalSetsLogged l' = totalSetsLogged l.
Proof.
  induction 1 as [|ex ex' l l' Hf _ [IH1 IH2]]; [done|].
  rewrite !totalVolume_cons, !totalSetsLogged_cons, IH1, IH2, Hf.
  unfold exerciseVolume. by rewrite <- !logged_volume, Hf.
Qed.

(** X12. What is added to the view is not logged, so the totals of the finish
    dialog stay: adding a set, adding an exercise and toggling an exercise
    leave the number of logged sets and the total volume as they were. The
    exercise added comes last, expanded, with one unlogged set numbered 1, and
    adding it closes the dialog and clears the search. *)
Theorem additions_keep_totals (st : State) :
  (∀ exerciseId,
     totalVolume (exercises (addSetToExercise st exerciseId)) = totalVolume (exercises st) ∧
     totalSetsLogged (exercises (addSetToExercise st exerciseId))
     = totalSetsLogged (exercises st))
  ∧ (∀ exerciseId,
       totalVolume (exercises (toggleExercise st exerciseId)) = totalVolume (exercises st) ∧
       totalSetsLogged (exercises (toggleExercise st exerciseId))
       = totalSetsLogged (exercises st))
  ∧ (∀ exercise,
       let st' := addExercise st exercise in
       totalVolume (exercises st') = totalVolume (exercises st) ∧
       totalSetsLogged (exercises st') = totalSetsLogged (exercises st) ∧
       (∃ added,
          exercises st' = exercises st ++ [added] ∧
          ExerciseData.exercise_id added = Exercise.id exercise ∧
          completion added = (0%nat, 1%nat) ∧
          SetData.set_number <$> ExerciseData.sets added = [1] ∧
          ExerciseData.expanded added = true) ∧
       showAddExercise st' = false ∧ searchResults st' = [] ∧
       searchQuery st' = EmptyString).
Proof.
  split_and!.
  - intros exerciseId. apply totals_same_logged. simpl. unfold mapExercise.
    apply Forall2_fmap_r, Forall2_same_length_lookup_2; [done|].
    intros i ex ex' Hex Hex'. simplify_eq. unfold compose.
    case_decide; [done|]. simpl.
    by rewrite filter_app, filter_cons_False, filter_nil, app_nil_r.
  - intros exerciseId. apply totals_same_logged. simpl.
    apply Forall2_fmap_r, Forall2_same_length_lookup_2; [done|].
    intros i ex ex' Hex Hex'. simplify_eq. unfold compose. by case_decide.
  - intros exercise. simpl.
    rewrite totalVolume_app, totalSetsLogged_app.
    rewrite totalVolume_cons, totalSetsLogged_cons.
    change (totalVolume []) with 0. change (totalSetsLogged []) with 0.
    split; [unfold exerciseVolume, sumZ, setVolume; simpl; lia|].
    split; [simpl; lia|].
    split; [|done]. eexists. split; [done|]. done.
Qed.

(** * The detail page of the history *)

Section HistoryDetail.
Import HistoryDetailPage.

Lemma insertBySetNumber_Permutation a l : insertBySetNumber a l ≡ₚ a :: l.
Proof.
  induction l as [|b l IH]; simpl; [done|].
  case_decide; [done|]. rewrite IH. apply Permutation_swap.
Qed.

Lemma sortBySetNumber_Permutation l : sortBySetNumber l ≡ₚ l.
Proof.
  induction l as [|a l IH]; simpl; [done|].
  by rewrite insertBySetNumber_Permutation, IH.
Qed.

Lemma sortBySetNumber_sorted l :
  StronglySorted (λ a b, WorkoutSet.set_number a ≤ WorkoutSet.set_number b)
                 (sortBySetNumber l).
Proof.
  induction l as [|a l IH]; simpl; [apply SSorted_nil|].
  induction IH as [|b l' Hl IH Hb]; simpl.
  - apply SSorted_cons; [apply SSorted_nil | apply Forall_nil_2].
  - case_decide as Hle.
    + apply SSorted_cons; [by apply SSorted_cons|].
      apply Forall_cons. split; [lia|].
      eapply Forall_impl; [exact Hb|]. intros c Hc. simpl in Hc. lia.
    + apply SSorted_cons; [done|].
      rewrite insertBySetNumber_Permutation. apply Forall_cons. split; [lia | done].
Qed.

Lemma groupStep_cases m set :
  let k := WorkoutSet.exercise_id set in
  ((k ∉ JsMap.keys m) ∧
   groupStep m set = m ++ [(k, mkGroup (WorkoutSet.exercises set) [set])])
  ∨ (∃ m1 g m2,
       m = m1 ++ ((k, g) :: m2) ∧ (k ∉ JsMap.keys m1) ∧
       groupStep m set = m1 ++ ((k, mkGroup (exercise g) (sets g ++ [set])) :: m2)).
Proof.
  intros k. unfold groupStep. fold k.
  destruct (JsMap.get m k) as [g|] eqn:Hget.
  - right. destruct (JsMap_set_present m k
      (mkGroup (exercise g) (sets g ++ [set])) g Hget) as (m1 & m2 & -> & Hk & Hset).
    by exists m1, g, m2.
  - left. pose proof Hget as Hk. apply JsMap_get_None in Hk. split; [done|].
    rewrite (JsMap_set_absent _ _ _ Hget).
    by rewrite JsMap_set_snoc.
Qed.

Lemma filter_snoc_other (k : string) (processed : list WorkoutSet.t) set :
  WorkoutSet.exercise_id set ≠ k →
  filter (λ s, WorkoutSet.exercise_id s = k) (processed ++ [set])
  = filter (λ s, WorkoutSet.exercise_id s = k) processed.
Proof.
  intros Hne. by rewrite filter_app, filter_cons_False, filter_nil, app_nil_r.
Qed.

Lemma groupOk_other processed set k g :
  WorkoutSet.exercise_id set ≠ k →
  groupOk processed k g → groupOk (processed ++ [set]) k g.
Proof. intros Hne [Hsets Hfirst]. split; [by rewrite filter_snoc_other | done]. Qed.

Lemma groupStep_ok processed m set :
  groupsOk processed m → groupsOk (processed ++ [set]) (groupStep m set).
Proof.
  intros (Hkeys & Hnd & Hseen & Hall & Hperm).
  assert (Hkeys' : ∀ m' : JsMap.t Group, JsMap.keys m' = appendNew (JsMap.keys m) (WorkoutSet.exercise_id set) →
    JsMap.keys m' = fold_left appendNew
                      (WorkoutSet.exercise_id <$> processed ++ [set]) []).
  { intros m' ->. by rewrite fmap_app, fold_left_app, <- Hkeys. }
  destruct (groupStep_cases m set) as [[Hk ->]|(m1 & g & m2 & -> & Hk & ->)].
  - split_and!.
    + apply Hkeys'. unfold appendNew. rewrite decide_False by done.
      by rewrite JsMap_keys_app.
    + rewrite JsMap_keys_app. apply NoDup_app. split_and!; [done | | apply NoDup_singleton].
      by intros x Hx ->%list_elem_of_singleton.
    + apply Forall_app. split.
      * eapply Forall_impl; [exact Hseen|]. intros s Hs. simpl in Hs.
        rewrite JsMap_keys_app, elem_of_app. by left.
      * apply Forall_singleton. rewrite JsMap_keys_app, elem_of_app. right. left.
    + apply Forall_app. split.
      * apply Forall_forall. intros [k g] Hin. rewrite Forall_forall in Hall.
        apply groupOk_other; [|by apply (Hall (k, g))].
        intros Heq. apply Hk. rewrite Heq. unfold JsMap.keys.
        by apply (list_elem_of_fmap_2 fst) in Hin.
      * apply Forall_singleton. split; simpl.
        -- rewrite filter_app, filter_cons_True, filter_nil by done.
           assert (Hnone : filter (λ s, WorkoutSet.exercise_id s
                                        = WorkoutSet.exercise_id set) processed = []);
             [|by rewrite Hnone].
           clear -Hseen Hk. induction Hseen as [|s l Hs _ IH]; [done|].
           rewrite filter_cons_False; [done|]. intros Heq. apply Hk. by rewrite <- Heq.
        -- by exists set, [].
    + rewrite JsMap_values_app, bind_app, Hperm. done.
  - rewrite !JsMap_keys_app in *.
    change (JsMap.keys ((?a, ?b) :: ?c)) with (a :: JsMap.keys c) in *.
    assert (Hm2 : WorkoutSet.exercise_id set ∉ JsMap.keys m2).
    { apply NoDup_app in Hnd as (_ & _ & Hnd2). by apply NoDup_cons in Hnd2 as [? _]. }
    apply Forall_app in Hall as [H1 H2]. apply Forall_cons in H2 as [[Hg Hfirst] H2].
    simpl in Hg, Hfirst.
    split_and!.
    + apply Hkeys'. rewrite JsMap_keys_app. unfold appendNew.
      rewrite decide_True; [done|]. rewrite elem_of_app. right. left.
    + by rewrite JsMap_keys_app.
    + rewrite JsMap_keys_app.
      change (JsMap.keys ((?a, ?b) :: ?c)) with (a :: JsMap.keys c).
      apply Forall_app. split; [done|]. apply Forall_singleton.
      rewrite elem_of_app. right. left.
    + apply Forall_app. split; [|apply Forall_cons; split].
      * apply Forall_forall. intros [k g'] Hin. rewrite Forall_forall in H1.
        apply groupOk_other; [|by apply (H1 (k, g'))].
        intros Heq. apply Hk. rewrite Heq. unfold JsMap.keys.
        by apply (list_elem_of_fmap_2 fst) in Hin.
      * split; simpl.
        -- by rewrite filter_app, filter_cons_True, filter_nil, Hg.
        -- destruct Hfirst as (s & rest & -> & ->). by exists s, (rest ++ [set]).
      * apply Forall_forall. intros [k g'] Hin. rewrite Forall_forall in H2.
        apply groupOk_other; [|by apply (H2 (k, g'))].
        intros Heq. apply Hm2. rewrite Heq. unfold JsMap.keys.
        by apply (list_elem_of_fmap_2 fst) in Hin.
    + rewrite !JsMap_values_app, !bind_app in *.
      change (JsMap.values ((?a, ?b) :: ?c)) with (b :: JsMap.values c) in *.
      rewrite !bind_cons in *. simpl. rewrite <- Hperm.
      rewrite <- !app_assoc. apply Permutation_app_head.
      apply Permutation_app_head. rewrite Permutation_app_comm. done.
Qed.

Lemma group_fold_ok sets :
  ∀ processed m,
    groupsOk processed m → groupsOk (processed ++ sets) (fold_left groupStep sets m).
Proof.
  induction sets as [|set sets IH]; intros processed m Hm; cbn [fold_left].
  - by rewrite app_nil_r.
  - rewrite (cons_middle set processed sets), app_assoc.
    by apply IH, groupStep_ok.
Qed.

(** X13. The detail page of the history groups the sets of a session by
    exercise. The groups come in the order in which the exercises first occur
    among the sets, one group per exercise; a group holds exactly the sets of
    its exercise, sorted by set number (sets with the same number in the order
    in which they came), under the joined exercise row of the first of them;
    no set is lost or doubled: the sets of the groups together are the sets
    of the session, each once. Here every group is sorted. *)
Theorem exerciseSets_groups (workout_sets : list WorkoutSet.t) :
  let groups := exerciseSets workout_sets in
  JsMap.keys groups
  = fold_left appendNew (WorkoutSet.exercise_id <$> workout_sets) []
  ∧ NoDup (JsMap.keys groups)
  ∧ Forall (λ kv,
              let mine := filter (λ s, WorkoutSet.exercise_id s = kv.1) workout_sets in
              sets kv.2 = sortBySetNumber mine ∧
              sets kv.2 ≡ₚ mine ∧
              StronglySorted
                (λ a b, WorkoutSet.set_number a ≤ WorkoutSet.set_number b)
                (sets kv.2) ∧
              ∃ s rest, mine = s :: rest ∧ exercise kv.2 = WorkoutSet.exercises s)
           groups
  ∧ JsMap.values groups ≫= sets ≡ₚ workout_sets.
Proof.
  intros groups. subst groups. unfold exerciseSets.
  assert (Hstart : groupsOk [] (JsMap.empty (V:=Group))).
  { split_and!; [done | apply NoDup_nil_2 | apply Forall_nil_2
                 | apply Forall_nil_2 | done]. }
  destruct (group_fold_ok workout_sets [] _ Hstart)
    as (Hkeys & Hnd & _ & Hall & Hperm).
  rewrite app_nil_l in *.
  set (m := fold_left groupStep workout_sets JsMap.empty) in *.
  assert (Hk : JsMap.keys
                 ((λ kv : string * Group,
                     (kv.1, mkGroup (exercise kv.2) (sortBySetNumber (sets kv.2)))) <$> m)
               = JsMap.keys m).
  { unfold JsMap.keys. rewrite <- list_fmap_compose. done. }
  assert (Hbind : JsMap.values
                    ((λ kv : string * Group,
                        (kv.1, mkGroup (exercise kv.2) (sortBySetNumber (sets kv.2)))) <$> m)
                  ≫= sets ≡ₚ workout_sets).
  { rewrite <- Hperm. unfold JsMap.values. clear.
    induction m as [|[k g] m IH]; [done|].
    rewrite !fmap_cons, !bind_cons, IH. simpl.
    by rewrite sortBySetNumber_Permutation. }
  split_and!.
  - by rewrite Hk.
  - by rewrite Hk.
  - apply Forall_fmap. eapply Forall_impl; [exact Hall|].
    intros [k g] [Hsets (s & rest & Hs & Hex)]. simpl in *.
    rewrite <- Hsets. split_and!.
    + done.
    + apply sortBySetNumber_Permutation.
    + apply sortBySetNumber_sorted.
    + by exists s, rest.
  - done.
Qed.

End HistoryDetail.

(** * The routine editor *)

Section RoutineEditor.
Import RoutinesPage.

Lemma NoDup_fmap_filter {A B} (f : A → B) (P : A → Prop) `{∀ x, Decision (P x)}
    (l : list A) :
  NoDup (f <$> l) → NoDup (f <$> filter P l).
Proof.
  intros Hnd. apply (sublist_NoDup _ (f <$> l)); [exact Hnd|].
  apply fmap_sublist, sublist_filter.
Qed.

Lemma form_ids_of_routine routine :
  RoutineExerciseForm.exercise_id <$> (formExercise <$> Routine.exercises routine)
  = RoutineExercise.exercise_id <$> Routine.exercises routine.
Proof. by rewrite <- list_fmap_compose. Qed.

Lemma addExercise_cases p exercise :
  let exs := formExercises (form p) in
  ((Exercise.id exercise ∈ RoutineExerciseForm.exercise_id <$> exs) ∧
   addExercise p exercise = p)
  ∨ ((Exercise.id exercise ∉ RoutineExerciseForm.exercise_id <$> exs) ∧
     addExercise p exercise
     = mkPage (routines p) (dialogOpen p)
         (mkFormState (editingRoutine (form p)) (formName (form p)) (formDay (form p))
            (exs ++ [RoutineExerciseForm.mk (Exercise.id exercise) (Exercise.name exercise)
                       (Z.of_nat (length exs)) 3 8 12]))
         EmptyString [] (searching p)).
Proof.
  intros exs. unfold addExercise. fold exs.
  destruct (list_find _ exs) as [[i e]|] eqn:Hfind.
  - left. split; [|done]. apply list_find_Some in Hfind as (Hi & <- & _).
    apply list_elem_of_fmap_2. by eapply list_elem_of_lookup_2.
  - right. split; [|done]. apply list_find_None in Hfind.
    intros (e & He & Hin)%list_elem_of_fmap.
    rewrite Forall_forall in Hfind. by apply (Hfind e Hin).
Qed.

Lemma handle_editorOk p ev :
  editorOk p → offered p ev →
  (∀ data, ev = LoadRoutines (Resolved data) →
           Forall (λ r, NoDup (RoutineExercise.exercise_id <$> Routine.exercises r)) data) →
  editorOk (handle p ev).
Proof.
  intros [Hroutines Hform] Hoffered Hloaded. unfold editorOk.
  destruct ev as [[data|]| |routine|name|day|query reply|exercise|exerciseId
                 |exerciseId field value|id [] [|]];
    cbn [handle loadRoutines openCreateDialog openEditDialog setFormName setFormDay
         removeExercise updateExerciseTargets handleDelete with_formExercises
         routines form formExercises fst]; try done.
  - split; [by apply Hloaded | done].
  - split; [done | apply NoDup_nil_2].
  - split; [done|]. cbn [offered] in Hoffered. rewrite form_ids_of_routine.
    rewrite Forall_forall in Hroutines. by apply Hroutines.
  - unfold handleSearch. by case_decide.
  - destruct (addExercise_cases p exercise) as [[_ ->]|[Hfresh ->]]; [done|].
    split; [done|]. cbn [form formExercises]. rewrite fmap_app. apply NoDup_app.
    split_and!; [done | | apply NoDup_singleton].
    by intros k Hk ->%list_elem_of_singleton.
  - split; [done|]. by apply NoDup_fmap_filter.
  - split; [done|]. rewrite <- list_fmap_compose.
    erewrite list_fmap_ext; [exact Hform|].
    intros i e _. unfold compose. case_decide; [by destruct field | done].
  - split; [|done]. rewrite Forall_forall in Hroutines |- *.
    intros r [_ Hr]%list_elem_of_filter. by apply Hroutines.
Qed.

(** X14. The routine editor never holds the same exercise twice: starting
    from the state of the page at mount, and as long as the routines that
    [listRoutines] delivers have pairwise distinct exercises each, every
    operation of the page (loading, opening the dialog for a new routine or
    for one of the listed routines, typing a name, choosing a day, searching,
    adding a search result, removing an exercise, changing targets,
    deleting a routine) keeps the exercise ids of the form pairwise distinct,
    and so does the list that [handleSave] submits. *)
Theorem editor_keeps_exercises_distinct :
  editorOk initialPage
  ∧ (∀ p ev,
       editorOk p → offered p ev →
       (∀ data, ev = LoadRoutines (Resolved data) →
                Forall (λ r, NoDup (RoutineExercise.exercise_id <$> Routine.exercises r))
                       data) →
       editorOk (handle p ev))
  ∧ (∀ p call,
       editorOk p → handleSave (form p) = Some call →
       NoDup (RoutineInputExercise.exercise_id <$> RoutineInput.exercises (callData call))).
Proof.
  split_and!.
  - split; [apply Forall_nil_2 | apply NoDup_nil_2].
  - apply handle_editorOk.
  - intros p call [_ Hform] Hsave.
    assert (Hids : RoutineInputExercise.exercise_id
                     <$> RoutineInput.exercises (routineInput (form p))
                   = RoutineExerciseForm.exercise_id <$> formExercises (form p)).
    { simpl. rewrite fmap_imap. unfold compose. simpl. apply imap_const. }
    unfold handleSave in Hsave. destruct (truthy_trim _); [|done].
    destruct (editingRoutine (form p)); simplify_eq; cbn [callData]; by rewrite Hids.
Qed.

Lemma editor_keeps_exercises_distinct_witness :
  editorOk (handle (handle (handle initialPage OpenCreate)
                           (SearchExercises "be"
                              (Resolved [Exercise.mk "bench" "Bench Press" "Chest" "strength"])))
                   (AddExercise (Exercise.mk "bench" "Bench Press" "Chest" "strength"))).
Proof.
  pose proof editor_keeps_exercises_distinct as (Hinit & Hstep & _).
  apply Hstep; [apply Hstep; [apply Hstep|..]|..]; try done.
  simpl. left.
Defined.

(** X15. In the routine editor, adding an exercise that is already in the
    form changes nothing, so adding twice is adding once; an exercise that is
    not there yet goes last with the targets 3 sets of 8 to 12 repetitions,
    and removing it again gives back the list of before. After
    [removeExercise] the exercise is not in the form, and the other entries
    are there in their order. *)
Theorem addExercise_removeExercise (p : Page) (exercise : Exercise.t) :
  let ids := λ q, RoutineExerciseForm.exercise_id <$> formExercises (form q) in
  (Exercise.id exercise ∈ ids p → addExercise p exercise = p)
  ∧ addExercise (addExercise p exercise) exercise = addExercise p exercise
  ∧ ((Exercise.id exercise ∉ ids p) →
     formExercises (form (addExercise p exercise))
     = formExercises (form p)
         ++ [RoutineExerciseForm.mk (Exercise.id exercise) (Exercise.name exercise)
               (Z.of_nat (length (formExercises (form p)))) 3 8 12] ∧
     formExercises (form (removeExercise (addExercise p exercise) (Exercise.id exercise)))
     = formExercises (form p))
  ∧ (∀ exerciseId,
       (exerciseId ∉ ids (removeExercise p exerciseId)) ∧
       formExercises (form (removeExercise p exerciseId))
       = filter (λ e, RoutineExerciseForm.exercise_id e ≠ exerciseId)
                (formExercises (form p))).
Proof.
  intros ids. subst ids. simpl.
  assert (Hpresent : Exercise.id exercise
                       ∈ RoutineExerciseForm.exercise_id <$> formExercises (form p) →
                     addExercise p exercise = p).
  { intros Hin. by destruct (addExercise_cases p exercise) as [[_ ->]|[Hfresh _]]. }
  split_and!.
  - done.
  - destruct (addExercise_cases p exercise) as [[_ Heq]|[Hfresh Heq]].
    + by rewrite !Heq.
    + destruct (addExercise_cases (addExercise p exercise) exercise)
        as [[_ Heq']|[Hfresh' _]]; [done|].
      exfalso. apply Hfresh'. rewrite Heq. simpl.
      rewrite fmap_app, elem_of_app. right. left.
  - intros Hfresh.
    destruct (addExercise_cases p exercise) as [[Hin _]|[_ ->]]; [done|]. simpl.
    split; [done|].
    rewrite filter_app, filter_cons_False, filter_nil, app_nil_r
      by (simpl; by intros ?).
    clear -Hfresh. induction (formExercises (form p)) as [|e l IH]; [done|].
    rewrite fmap_cons, not_elem_of_cons in Hfresh. destruct Hfresh as [Hne Hfresh].
    rewrite filter_cons_True by done. by rewrite IH.
  - intros exerciseId. split; [|done].
    intros (e & He & [Hne _]%list_elem_of_filter)%list_elem_of_fmap. done.
Qed.

Lemma addExercise_removeExercise_witness :
  let bench := Exercise.mk "bench" "Bench Press" "Chest" "strength" in
  (Exercise.id bench
     ∉ RoutineExerciseForm.exercise_id <$> formExercises (form initialPage)) ∧
  formExercises (form (removeExercise (addExercise initialPage bench) "bench"))
  = formExercises (form initialPage).
Proof.
  intros bench.
  assert (Hfresh : Exercise.id bench
                     ∉ RoutineExerciseForm.exercise_id <$> formExercises (form initialPage))
    by apply not_elem_of_nil.
  split; [exact Hfresh|].
  exact (proj2 (proj1 (proj2 (proj2 (addExercise_removeExercise initialPage bench)))
                      Hfresh)).
Defined.

(** X16. Opening the dialog for a routine and saving at once sends an update
    of that routine, under its id, with its name, its day, and its exercises
    in their order with the same targets; the [order] fields sent are 0 to
    n-1 by position, whatever orders the routine came with, and when the
    routine came numbered that way, what is sent is what came. Nothing is
    sent for a routine whose name is blank. *)
Theorem openEditDialog_handleSave (p : Page) (routine : Routine.t) :
  let sent := handleSave (form (openEditDialog p routine)) in
  let input := λ ex : RoutineExercise.t,
    RoutineInputExercise.mk
      (RoutineExercise.exercise_id ex) (RoutineExercise.order ex)
      (RoutineExercise.target_sets ex) (RoutineExercise.target_reps_min ex)
      (RoutineExercise.target_reps_max ex) in
  (trim (Routine.name routine) = EmptyString → sent = None)
  ∧ (trim (Routine.name routine) ≠ EmptyString →
     ∃ data,
       sent = Some (CallUpdateRoutine (Routine.id routine) data) ∧
       RoutineInput.name data = Routine.name routine ∧
       RoutineInput.schedule_day_index data = Routine.schedule_day_index routine ∧
       RoutineInputExercise.order <$> RoutineInput.exercises data
         = Z.of_nat <$> seq 0 (length (Routine.exercises routine)) ∧
       Forall2 (λ ex x,
                  RoutineInputExercise.exercise_id x = RoutineExercise.exercise_id ex ∧
                  RoutineInputExercise.target_sets x = RoutineExercise.target_sets ex ∧
                  RoutineInputExercise.target_reps_min x
                    = RoutineExercise.target_reps_min ex ∧
                  RoutineInputExercise.target_reps_max x
                    = RoutineExercise.target_reps_max ex)
               (Routine.exercises routine) (RoutineInput.exercises data) ∧
       (RoutineExercise.order <$> Routine.exercises routine
        = Z.of_nat <$> seq 0 (length (Routine.exercises routine)) →
        RoutineInput.exercises data = input <$> Routine.exercises routine)).
Proof.
  simpl. unfold handleSave, truthy_trim. simpl. split.
  - intros ->. by rewrite bool_decide_eq_true_2.
  - intros Hname. rewrite bool_decide_eq_false_2 by done. simpl.
    eexists. split; [done|]. simpl. split_and!; [done | done | | |].
    + rewrite fmap_imap. unfold compose. simpl.
      rewrite <- (length_fmap formExercise (Routine.exercises routine)).
      apply imap_seq_0.
    + apply Forall2_same_length_lookup_2;
        [by rewrite length_imap, length_fmap|].
      intros i ex x Hex Hx.
      rewrite list_lookup_imap, list_lookup_fmap, Hex in Hx. by simplify_eq/=.
    + intros Horder. apply list_eq. intros i.
      rewrite list_lookup_imap, !list_lookup_fmap.
      destruct (Routine.exercises routine !! i) as [ex|] eqn:Hex; [|done]. simpl.
      f_equal. unfold inputExercise. simpl. f_equal.
      assert (Hi : (RoutineExercise.order <$> Routine.exercises routine) !! i
                   = Some (RoutineExercise.order ex))
        by (by rewrite list_lookup_fmap, Hex).
      rewrite Horder, list_lookup_fmap in Hi.
      pose proof (lookup_lt_Some _ _ _ Hex) as Hlt.
      rewrite lookup_seq_lt in Hi by done. by simplify_eq/=.
Qed.

Lemma openEditDialog_handleSave_witness :
  handleSave (form (openEditDialog initialPage ExampleAB.routine))
  = Some (CallUpdateRoutine "r1"
            (RoutineInput.mk "Push" 1
               [RoutineInputExercise.mk "A" 0 3 8 12;
                RoutineInputExercise.mk "B" 1 2 8 12])).
Proof.
  destruct (proj2 (openEditDialog_handleSave initialPage ExampleAB.routine))
    as (data & -> & Hname & Hday & _ & _ & Hexs); [by vm_compute|].
  destruct data as [n d exs]. simpl in *. subst n d.
  by rewrite Hexs.
Defined.

End RoutineEditor.

(** * The weekly schedule, the dashboard and the history page *)

Section Schedule.
Import RoutinesPage.

Lemma filter_or_disjoint {A} (P Q : A → Prop)
    `{∀ x, Decision (P x)} `{∀ x, Decision (Q x)} (l : list A) :
  (∀ x, P x → Q x → False) →
  filter (λ x, P x ∨ Q x) l ≡ₚ filter P l ++ filter Q l.
Proof.
  intros Hdisjoint. induction l as [|x l IH]; [done|].
  destruct (decide (P x)) as [HP|HP]; destruct (decide (Q x)) as [HQ|HQ].
  - by destruct (Hdisjoint x).
  - rewrite (filter_cons_True (λ x, P x ∨ Q x)) by by left.
    rewrite (filter_cons_True P), (filter_cons_False Q) by done.
    simpl. by constructor.
  - rewrite (filter_cons_True (λ x, P x ∨ Q x)) by by right.
    rewrite (filter_cons_False P), (filter_cons_True Q) by done.
    rewrite IH. apply Permutation_middle.
  - rewrite (filter_cons_False (λ x, P x ∨ Q x)) by (by intros [?|?]).
    by rewrite (filter_cons_False P), (filter_cons_False Q) by done.
Qed.

Lemma bind_filter_keys {A} (f : A → Z) (ks : list Z) (l : list A) :
  NoDup ks →
  (ks ≫= λ k, filter (λ r, f r = k) l) ≡ₚ filter (λ r, f r ∈ ks) l.
Proof.
  induction 1 as [|k ks Hk Hnd IH].
  - simpl. induction l as [|x l IHl]; [done|].
    rewrite filter_cons_False; [done|]. apply not_elem_of_nil.
  - rewrite bind_cons, IH.
    rewrite <- filter_or_disjoint by (intros x -> Hin; done).
    erewrite list_filter_iff; [done|]. intros x. simpl. by rewrite elem_of_cons.
Qed.

Lemma routinesByDay_lookup routines i row :
  routinesByDay routines !! i = Some row →
  (i < 7)%nat ∧
  row = mkDayRoutines (Api.getDayName (Z.of_nat i)) i
          (filter (λ r, Routine.schedule_day_index r = Z.of_nat i) routines).
Proof.
  unfold routinesByDay, Api.DAY_NAMES. intros Hrow.
  destruct i as [|[|[|[|[|[|[|i]]]]]]]; simpl in Hrow; simplify_eq;
    (split; [lia | reflexivity]).
Qed.

(** X17. The weekly schedule of the routines page has one row for each of
    the seven days, Sunday first, named as [getDayName] names the day; the
    routines of a row are those scheduled on its day, in the order of the
    list. Every routine scheduled on a day from 0 to 6 is in exactly one
    row, so the rows together are a rearrangement of those routines; a
    routine with any other day is in no row. *)
Theorem routinesByDay_partition (routines : list Routine.t) :
  let rows := routinesByDay routines in
  length rows = 7%nat
  ∧ (∀ i row, rows !! i = Some row →
       index row = i ∧ day row = Api.getDayName (Z.of_nat i) ∧
       dayRoutines row `sublist_of` routines ∧
       ∀ r, r ∈ dayRoutines row ↔
            r ∈ routines ∧ Routine.schedule_day_index r = Z.of_nat i)
  ∧ rows ≫= dayRoutines
      ≡ₚ filter (λ r, 0 ≤ Routine.schedule_day_index r ≤ 6) routines
  ∧ (∀ r row, row ∈ rows → r ∈ dayRoutines row →
       0 ≤ Routine.schedule_day_index r ≤ 6).
Proof.
  intros rows. split_and!.
  - done.
  - intros i row [_ ->]%routinesByDay_lookup. cbn [index day dayRoutines].
    split_and!; [done | done | apply sublist_filter |].
    intros r. rewrite list_elem_of_filter. tauto.
  - assert (Hrows : rows ≫= dayRoutines
                    = (Z.of_nat <$> seq 0 7)
                        ≫= λ k, filter (λ r, Routine.schedule_day_index r = k) routines).
    { subst rows. unfold routinesByDay, Api.DAY_NAMES. simpl.
      by rewrite !app_nil_r. }
    rewrite Hrows, bind_filter_keys
      by (apply (bool_decide_unpack _); vm_compute; exact I).
    erewrite list_filter_iff; [done|]. intros r. simpl.
    rewrite !elem_of_cons, elem_of_nil. lia.
  - intros r row (i & Hi)%list_elem_of_lookup_1 Hr.
    apply routinesByDay_lookup in Hi as [Hlt ->]. cbn [dayRoutines] in Hr.
    apply list_elem_of_filter in Hr as [-> _]. lia.
Qed.

Lemma routinesByDay_partition_witness :
  ∃ row, routinesByDay [ExampleAB.routine] !! 1%nat = Some row ∧
         day row = Api.getDayName 1 ∧ ExampleAB.routine ∈ dayRoutines row.
Proof.
  eexists. split; [reflexivity|].
  destruct (proj1 (proj2 (routinesByDay_partition [ExampleAB.routine])) 1%nat _ eq_refl)
    as (_ & Hday & _ & Hmember).
  split; [exact Hday|]. apply Hmember. split; [left | reflexivity].
Defined.

Lemma routineOfDay_head (today : Z) (routines : list Routine.t) :
  DashboardPage.routineOfDay today routines
  = head (filter (λ r, Routine.schedule_day_index r = today) routines).
Proof.
  unfold DashboardPage.routineOfDay.
  induction routines as [|r l IH]; [done|]. cbn [list_find].
  destruct (decide (Routine.schedule_day_index r = today)) as [Hr|Hr].
  - by rewrite filter_cons_True.
  - rewrite filter_cons_False by done. rewrite <- IH.
    by destruct (list_find _ l) as [[j x]|].
Qed.

Lemma head_filter_None {A} (P : A → Prop) `{∀ x, Decision (P x)} (l : list A) :
  head (filter P l) = None ↔ ∀ x, x ∈ l → ¬ P x.
Proof.
  rewrite head_None. split.
  - intros Hnil x Hx HP.
    assert (Hin : x ∈ filter P l) by (by apply list_elem_of_filter).
    rewrite Hnil in Hin. by apply elem_of_nil in Hin.
  - intros Hnone. destruct (filter P l) as [|x l'] eqn:Hfilter; [done|].
    assert (Hin : x ∈ filter P l) by (rewrite Hfilter; left).
    apply list_elem_of_filter in Hin as [HP Hx]. by destruct (Hnone x Hx).
Qed.

(** X18. [load] of the dashboard, on a day from 0 to 6. When both requests
    are answered, the page holds the active workout that was delivered, and
    the routine it offers for today is the first routine of the list that is
    scheduled today, which is the first routine of today's row of the weekly
    schedule; there is none exactly when no routine of the list is scheduled
    today. When one of the two requests fails, the active workout and
    today's routine stay as they were, so after the first load of the page
    there is no routine for today whatever the list holds. In every case
    the page stops loading. *)
Theorem todayRoutine_first_of_day (today : Z) (st : DashboardPage.State)
    (getActiveWorkout : promise (option Workout.t))
    (listRoutines : promise (list Routine.t)) :
  0 ≤ today ≤ 6 →
  let st' := DashboardPage.load today st getActiveWorkout listRoutines in
  DashboardPage.loading st' = false
  ∧ DashboardPage.starting st' = DashboardPage.starting st
  ∧ (∀ workout routines,
       getActiveWorkout = Resolved workout → listRoutines = Resolved routines →
       DashboardPage.activeWorkout st' = workout ∧
       DashboardPage.todayRoutine st'
         = head (filter (λ r, Routine.schedule_day_index r = today) routines) ∧
       (∃ row, routinesByDay routines !! Z.to_nat today = Some row ∧
               DashboardPage.todayRoutine st' = head (dayRoutines row)) ∧
       (DashboardPage.todayRoutine st' = None ↔
        ∀ r, r ∈ routines → Routine.schedule_day_index r ≠ today) ∧
       (∀ r, DashboardPage.todayRoutine st' = Some r →
             r ∈ routines ∧ Routine.schedule_day_index r = today))
  ∧ (∀ reason,
       getActiveWorkout = Rejected reason ∨ listRoutines = Rejected reason →
       DashboardPage.activeWorkout st' = DashboardPage.activeWorkout st ∧
       DashboardPage.todayRoutine st' = DashboardPage.todayRoutine st)
  ∧ (st = DashboardPage.initialState →
     (DashboardPage.todayRoutine st' = None ↔
      (∃ reason, getActiveWorkout = Rejected reason)
      ∨ (∃ reason, listRoutines = Rejected reason)
      ∨ (∃ routines, listRoutines = Resolved routines ∧
                     ∀ r, r ∈ routines → Routine.schedule_day_index r ≠ today))).
Proof.
  intros Htoday st'. subst st'.
  split_and!.
  - by destruct getActiveWorkout, listRoutines.
  - by destruct getActiveWorkout, listRoutines.
  - intros workout routines -> ->. cbn [DashboardPage.load
      DashboardPage.activeWorkout DashboardPage.todayRoutine].
    rewrite routineOfDay_head. split_and!; [done | done | | |].
    + destruct (routinesByDay routines !! Z.to_nat today) as [row|] eqn:Hrow.
      * exists row. split; [done|].
        apply routinesByDay_lookup in Hrow as [_ ->]. cbn [dayRoutines].
        by rewrite Z2Nat.id by lia.
      * apply lookup_ge_None in Hrow. simpl in Hrow. lia.
    + apply head_filter_None.
    + intros r Hr%head_Some_elem_of. apply list_elem_of_filter in Hr. tauto.
  - intros reason [-> | ->]; [done|]. by destruct getActiveWorkout.
  - intros ->. destruct getActiveWorkout as [workout|reason1].
    + destruct listRoutines as [routines|reason2].
      * cbn [DashboardPage.load DashboardPage.todayRoutine].
        rewrite routineOfDay_head, head_filter_None. split.
        -- intros Hnone. right. right. by exists routines.
        -- intros [[? [=]]|[[? [=]]|(routines' & [= <-] & Hnone)]]. done.
      * split; [|done]. intros _. right. left. by exists reason2.
    + split; [|by destruct listRoutines]. intros _. left. by exists reason1.
Qed.

Lemma todayRoutine_first_of_day_witness :
  0 ≤ 1 ≤ 6 ∧
  DashboardPage.todayRoutine
    (DashboardPage.load 1 DashboardPage.initialState (Resolved None)
       (Resolved [Renamed.pushDay; ExampleAB.routine]))
  = Some Renamed.pushDay.
Proof.
  assert (Htoday : 0 ≤ 1 ≤ 6) by lia.
  split; [exact Htoday|].
  destruct (proj1 (proj2 (proj2 (todayRoutine_first_of_day 1 DashboardPage.initialState
              (Resolved None) (Resolved [Renamed.pushDay; ExampleAB.routine]) Htoday)))
              None [Renamed.pushDay; ExampleAB.routine] eq_refl eq_refl)
    as (_ & -> & _).
  reflexivity.
Defined.

(** X19. [getDayName] names the days 0 to 6 with seven different names and
    answers "Unknown" for exactly the other numbers. *)
Theorem getDayName_unknown (index : Z) :
  (Api.getDayName index = "Unknown" ↔ ¬ (0 ≤ index ≤ 6))
  ∧ (0 ≤ index ≤ 6 → Api.DAY_NAMES !! Z.to_nat index = Some (Api.getDayName index))
  ∧ (∀ other, 0 ≤ index ≤ 6 → Api.getDayName index = Api.getDayName other →
              index = other).
Proof.
  assert (Hcases : index < 0 ∨ 6 < index
                   ∨ index = 0 ∨ index = 1 ∨ index = 2 ∨ index = 3
                   ∨ index = 4 ∨ index = 5 ∨ index = 6) by lia.
  assert (Houtside : ∀ i, ¬ (0 ≤ i ≤ 6) → Api.getDayName i = "Unknown").
  { intros i Hi. unfold Api.getDayName. case_decide; [|done].
    rewrite (proj2 (lookup_ge_None Api.DAY_NAMES (Z.to_nat i))); [done|].
    simpl. lia. }
  assert (Hinside : ∀ i, 0 ≤ i ≤ 6 → Api.getDayName i ≠ "Unknown"
                                    ∧ Api.DAY_NAMES !! Z.to_nat i = Some (Api.getDayName i)
                                    ∧ Api.DAY_NAMES !! Z.to_nat i
                                      = [Api.getDayName i] !! 0%nat).
  { intros i Hi.
    assert (Hi' : i = 0 ∨ i = 1 ∨ i = 2 ∨ i = 3 ∨ i = 4 ∨ i = 5 ∨ i = 6) by lia.
    destruct_or!; subst i; by vm_compute. }
  split_and!.
  - split.
    + intros Hname Hin. by destruct (Hinside index Hin).
    + apply Houtside.
  - intros Hin. by destruct (Hinside index Hin) as (_ & ? & _).
  - intros other Hin Hname.
    destruct (decide (0 ≤ other ≤ 6)) as [Hother|Hother].
    + clear Hcases.
      assert (Hi : index = 0 ∨ index = 1 ∨ index = 2 ∨ index = 3
                   ∨ index = 4 ∨ index = 5 ∨ index = 6) by lia.
      assert (Ho : other = 0 ∨ other = 1 ∨ other = 2 ∨ other = 3
                   ∨ other = 4 ∨ other = 5 ∨ other = 6) by lia.
      destruct_or!; subst index other; first [done | by vm_compute in Hname].
    + rewrite (Houtside other Hother) in Hname. by destruct (Hinside index Hin).
Qed.

Lemma getDayName_unknown_witness :
  0 ≤ 3 ≤ 6 ∧ Api.DAY_NAMES !! Z.to_nat 3 = Some (Api.getDayName 3).
Proof.
  assert (Hin : 0 ≤ 3 ≤ 6) by lia.
  split; [exact Hin|].
  exact (proj1 (proj2 (getDayName_unknown 3)) Hin).
Defined.

End Schedule.

Section History.
Import HistoryPage.

Lemma historySlice_length all (n : nat) :
  length (historySlice all (mkHistoryCall 20 (Z.of_nat n)))
  = (20 `min` (length all - n))%nat.
Proof.
  unfold historySlice. cbn [limit offset].
  rewrite Nat2Z.id, length_take, length_drop.
  by change (Z.to_nat 20) with 20%nat.
Qed.

Lemma historySlice_append all (n : nat) :
  take n all ++ historySlice all (mkHistoryCall 20 (Z.of_nat n))
  = take (n + 20) all.
Proof.
  unfold historySlice. cbn [limit offset].
  rewrite Nat2Z.id. change (Z.to_nat 20) with 20%nat. apply take_take_drop.
Qed.

Lemma take_length_take {A} (l : list A) (n : nat) :
  take n l = take (length (take n l)) l.
Proof.
  rewrite length_take. destruct (decide (n ≤ length l)%nat).
  - by rewrite Nat.min_l by lia.
  - rewrite Nat.min_r by lia. by rewrite !take_ge by lia.
Qed.

Lemma loadMore_served all st data :
  historyOk all st →
  data = historySlice all (loadMore st (Resolved data)).2 →
  workouts (loadMore st (Resolved data)).1 = take (length (workouts st) + 20) all
  ∧ (hasMore (loadMore st (Resolved data)).1 = true ↔
     (length (workouts st) + 20 ≤ length all)%nat)
  ∧ historyOk all (loadMore st (Resolved data)).1.
Proof.
  intros [Hprefix Hall] Hdata. cbn [loadMore fst snd] in *.
  cbn [workouts hasMore].
  pose proof (historySlice_length all (length (workouts st))) as Hlen.
  pose proof (historySlice_append all (length (workouts st))) as Happ.
  rewrite <- Hdata in Hlen, Happ. rewrite <- Hprefix in Happ.
  assert (Hle : (length (workouts st) ≤ length all)%nat).
  { rewrite Hprefix at 1. rewrite length_take. lia. }
  split_and!.
  - done.
  - rewrite bool_decide_eq_true. lia.
  - split; cbn [workouts hasMore].
    + rewrite Happ. apply take_length_take.
    + rewrite bool_decide_eq_false. intros Hshort.
      rewrite Happ. apply take_ge. lia.
Qed.

(** X20. Paging through the history, against a server that answers each
    request with the slice of a fixed list that was asked for: the first
    request asks for 20 sessions from offset 0 and every later one for 20
    from the number of sessions on the page; the page always shows the first
    sessions of the list, without gaps or repetitions, and once it stops
    offering to load more it shows the whole list. A request that fails
    leaves the sessions as they are. After a successful [loadMore] the page
    offers more exactly when the slice was full, that is when the list has
    at least 20 sessions beyond those shown before. *)
Theorem history_pages_are_a_prefix (all : list WorkoutSummary.t) :
  historyOk all initialState
  ∧ (∀ st reply,
       (loadHistory st reply).2 = mkHistoryCall 20 0 ∧
       (loadMore st reply).2 = mkHistoryCall 20 (Z.of_nat (length (workouts st))))
  ∧ (∀ st reply,
       historyOk all st → served all loadHistory st reply →
       historyOk all (loadHistory st reply).1)
  ∧ (∀ st reply,
       historyOk all st → served all loadMore st reply →
       historyOk all (loadMore st reply).1)
  ∧ (∀ st reason,
       workouts (loadHistory st (Rejected reason)).1 = workouts st ∧
       workouts (loadMore st (Rejected reason)).1 = workouts st)
  ∧ (∀ st data,
       historyOk all st → served all loadMore st (Resolved data) →
       workouts (loadMore st (Resolved data)).1
         = take (length (workouts st) + 20) all ∧
       (hasMore (loadMore st (Resolved data)).1 = true ↔
        (length (workouts st) + 20 ≤ length all)%nat)).
Proof.
  split_and!.
  - split; [done|]. by intros [=].
  - done.
  - intros st [data|reason] Hok Hserved; [|done].
    cbn [served loadHistory fst snd] in *.
    pose proof (historySlice_length all 0) as Hlen.
    pose proof (historySlice_append all 0) as Happ.
    change (Z.of_nat 0) with 0 in Hlen, Happ. rewrite <- Hserved in Hlen, Happ.
    simpl in Happ. split; cbn [workouts hasMore].
    + rewrite Happ. apply take_length_take.
    + rewrite bool_decide_eq_false. intros Hshort. rewrite Happ. apply take_ge. lia.
  - intros st [data|reason] Hok Hserved; [|done].
    by apply loadMore_served.
  - done.
  - intros st data Hok Hserved.
    destruct (loadMore_served all st data Hok Hserved) as (? & ? & _). done.
Qed.

Lemma history_pages_are_a_prefix_witness :
  let all := [WorkoutSummary.mk "w2" "2026-01-02T10:00:00Z" (Some "2026-01-02T11:00:00Z")
                (Some "Push") 4000 12;
              WorkoutSummary.mk "w1" "2026-01-01T10:00:00Z" (Some "2026-01-01T10:30:00Z")
                None 900 3] in
  let reply := Resolved (historySlice all (mkHistoryCall 20 0)) in
  historyOk all initialState ∧ served all loadHistory initialState reply ∧
  historyOk all (loadHistory initialState reply).1.
Proof.
  intros all reply.
  destruct (history_pages_are_a_prefix all) as (Hinit & _ & Hload & _).
  assert (Hserved : served all loadHistory initialState reply) by reflexivity.
  split_and!; [exact Hinit | exact Hserved | exact (Hload initialState reply Hinit Hserved)].
Defined.

End History.

(** * The clock of the timer and of the durations *)

Section Clock.
Import WorkoutTimer.

Lemma list_ascii_of_string_app (a b : string) :
  String.list_ascii_of_string (a +:+ b) = String.list_ascii_of_string a ++ String.list_ascii_of_string b.
Proof. induction a as [|c a IH]; [done|]. simpl. by rewrite IH. Qed.

Lemma list_ascii_of_string_inj (a b : string) :
  String.list_ascii_of_string a = String.list_ascii_of_string b → a = b.
Proof.
  intros Heq. rewrite <- (String.string_of_list_ascii_of_string a),
                      <- (String.string_of_list_ascii_of_string b).
  by rewrite Heq.
Qed.

Lemma length_list_ascii_of_string (a : string) :
  length (String.list_ascii_of_string a) = String.length a.
Proof. induction a as [|c a IH]; [done|]. simpl. by rewrite IH. Qed.

Lemma field_below_60 (P : Z → Prop) `{∀ x, Decision (P x)} :
  Forall P (seqZ 0 60) → ∀ x, 0 ≤ x < 60 → P x.
Proof.
  intros Hall x Hx. rewrite Forall_forall in Hall. apply Hall.
  apply elem_of_seqZ. lia.
Qed.

Lemma twoDigits_length x :
  0 ≤ x < 60 → String.length (twoDigits x) = 2%nat ∧ (String.length (pretty x) ≤ 2)%nat.
Proof.
  revert x. apply (field_below_60 _).
  apply (bool_decide_unpack _). vm_compute. exact I.
Qed.

Lemma twoDigits_inj x y :
  0 ≤ x < 60 → 0 ≤ y < 60 → twoDigits x = twoDigits y → x = y.
Proof.
  intros Hx Hy. revert y Hy.
  apply (field_below_60 (λ y, twoDigits x = twoDigits y → x = y)).
  revert x Hx.
  apply (field_below_60
           (λ x, Forall (λ y, twoDigits x = twoDigits y → x = y) (seqZ 0 60))).
  apply (bool_decide_unpack _). vm_compute. exact I.
Qed.

Lemma clock_fields seconds :
  0 ≤ seconds →
  seconds = 3600 * clockHours seconds + 60 * clockMinutes seconds + clockSeconds seconds
  ∧ 0 ≤ clockHours seconds
  ∧ 0 ≤ clockMinutes seconds < 60 ∧ 0 ≤ clockSeconds seconds < 60
  ∧ (clockHours seconds > 0 ↔ 3600 ≤ seconds).
Proof.
  intros Hnonneg. unfold clockHours, clockMinutes, clockSeconds.
  Z.div_mod_to_equations. lia.
Qed.

Lemma formatTime_nonneg seconds :
  0 ≤ seconds →
  formatTime seconds
  = if decide (3600 ≤ seconds)
    then pretty (clockHours seconds) +:+ ":" +:+ twoDigits (clockMinutes seconds)
           +:+ ":" +:+ twoDigits (clockSeconds seconds)
    else pretty (clockMinutes seconds) +:+ ":" +:+ twoDigits (clockSeconds seconds).
Proof.
  intros Hnonneg. unfold formatTime, clockHours, clockMinutes, clockSeconds, twoDigits.
  rewrite !Z.rem_mod_nonneg by lia.
  destruct (decide (seconds `div` 3600 > 0)) as [Hh|Hh];
    destruct (decide (3600 ≤ seconds)) as [Hs|Hs]; try done;
    exfalso; revert Hh; Z.div_mod_to_equations; lia.
Qed.

Lemma formatTime_inj a b :
  0 ≤ a → 0 ≤ b → formatTime a = formatTime b → a = b.
Proof.
  intros Ha Hb.
  destruct (clock_fields a Ha) as (Hsum_a & Hh_a & Hm_a & Hs_a & Hhour_a).
  destruct (clock_fields b Hb) as (Hsum_b & Hh_b & Hm_b & Hs_b & Hhour_b).
  destruct (twoDigits_length _ Hm_a) as [Hlen_ma Hshort_ma].
  destruct (twoDigits_length _ Hm_b) as [Hlen_mb Hshort_mb].
  destruct (twoDigits_length _ Hs_a) as [Hlen_sa _].
  destruct (twoDigits_length _ Hs_b) as [Hlen_sb _].
  rewrite !formatTime_nonneg by done.
  intros Heq%(f_equal String.list_ascii_of_string).
  assert (Hfields : clockHours a = clockHours b ∧ clockMinutes a = clockMinutes b
                    ∧ clockSeconds a = clockSeconds b); [|lia].
  destruct (decide (3600 ≤ a)) as [Hbig_a|Hbig_a];
    destruct (decide (3600 ≤ b)) as [Hbig_b|Hbig_b];
    rewrite ?list_ascii_of_string_app in Heq.
  - apply app_inj_2 in Heq as [Hh Hrest];
      [|by rewrite !length_app, !length_list_ascii_of_string, Hlen_ma, Hlen_mb,
                   Hlen_sa, Hlen_sb].
    simpl in Hrest. injection Hrest as Hrest.
    apply app_inj_1 in Hrest as [Hm Hs];
      [|by rewrite !length_list_ascii_of_string, Hlen_ma, Hlen_mb].
    simpl in Hs. injection Hs as Hs.
    apply list_ascii_of_string_inj, (inj pretty) in Hh.
    apply list_ascii_of_string_inj, twoDigits_inj in Hm; [|done..].
    apply list_ascii_of_string_inj, twoDigits_inj in Hs; [|done..].
    done.
  - exfalso. rewrite !app_assoc in Heq.
    apply app_inj_2 in Heq as [Hfront _];
      [|by rewrite !length_list_ascii_of_string, Hlen_sa, Hlen_sb].
    apply (f_equal length) in Hfront.
    rewrite !length_app, !length_list_ascii_of_string, Hlen_ma in Hfront.
    simpl in Hfront. lia.
  - exfalso. rewrite !app_assoc in Heq.
    apply app_inj_2 in Heq as [Hfront _];
      [|by rewrite !length_list_ascii_of_string, Hlen_sa, Hlen_sb].
    apply (f_equal length) in Hfront.
    rewrite !length_app, !length_list_ascii_of_string, Hlen_mb in Hfront.
    simpl in Hfront. lia.
  - apply app_inj_2 in Heq as [Hm Hrest];
      [|by rewrite !length_app, !length_list_ascii_of_string, Hlen_sa, Hlen_sb].
    simpl in Hrest. injection Hrest as Hs.
    apply list_ascii_of_string_inj, (inj pretty) in Hm.
    apply list_ascii_of_string_inj, twoDigits_inj in Hs; [|done..].
    split_and!; [lia | done | done].
Qed.

(** X21. The clock of the workout timer, for an elapsed time that is not
    negative: the fields are the hours, the minutes below 60 and the seconds
    below 60 of the elapsed time; minutes after hours, and seconds, are
    written with exactly two digits; the hours are shown from one hour on.
    Different elapsed times are shown differently. [formatDuration] of the
    history shows a duration as the timer shows the same number of
    seconds. *)
Theorem formatTime_shows_elapsed (seconds : Z) :
  0 ≤ seconds →
  let h := clockHours seconds in
  let m := clockMinutes seconds in
  let s := clockSeconds seconds in
  seconds = 3600 * h + 60 * m + s ∧ 0 ≤ m < 60 ∧ 0 ≤ s < 60
  ∧ String.length (twoDigits m) = 2%nat ∧ String.length (twoDigits s) = 2%nat
  ∧ formatTime seconds
    = (if decide (3600 ≤ seconds)
       then pretty h +:+ ":" +:+ twoDigits m +:+ ":" +:+ twoDigits s
       else pretty m +:+ ":" +:+ twoDigits s)
  ∧ (∀ other, 0 ≤ other → formatTime other = formatTime seconds → other = seconds)
  ∧ (∀ start endTime now,
       Api.formatDuration start endTime now
       = formatTime (elapsed start (default now endTime))).
Proof.
  intros Hnonneg h m s.
  destruct (clock_fields seconds Hnonneg) as (Hsum & _ & Hm & Hs & _).
  split_and!; try done; try (subst h m s; lia).
  - by destruct (twoDigits_length m Hm).
  - by destruct (twoDigits_length s Hs).
  - by apply formatTime_nonneg.
  - intros other Hother. by apply formatTime_inj.
Qed.

Lemma formatTime_shows_elapsed_witness :
  0 ≤ 3725 ∧ formatTime 3725 = "1:02:05".
Proof.
  assert (Hnonneg : 0 ≤ 3725) by lia.
  split; [exact Hnonneg|].
  destruct (formatTime_shows_elapsed 3725 Hnonneg) as (_ & _ & _ & _ & _ & -> & _).
  by vm_compute.
Defined.

(** X22. An elapsed time below zero (a start time ahead of the clock of the
    device) is never shown with hours, and the timer shows two such times
    that are an hour apart in the same way. *)
Theorem formatTime_below_zero (seconds : Z) :
  seconds ≤ 0 →
  formatTime seconds
    = pretty ((seconds `rem` 3600) `div` 60) +:+ ":"
        +:+ Api.padStart0 2 (pretty (seconds `rem` 60))
  ∧ formatTime (seconds - 3600) = formatTime seconds.
Proof.
  intros Hneg.
  assert (Hshape : ∀ x, x ≤ 0 →
            formatTime x = pretty ((x `rem` 3600) `div` 60) +:+ ":"
                             +:+ Api.padStart0 2 (pretty (x `rem` 60))).
  { intros x Hx. unfold formatTime.
    rewrite decide_False; [done|]. Z.div_mod_to_equations. lia. }
  split; [by apply Hshape|].
  rewrite !Hshape by lia.
  assert (Hrem3600 : (seconds - 3600) `rem` 3600 = seconds `rem` 3600)
    by (Z.quot_rem_to_equations; lia).
  assert (Hrem60 : (seconds - 3600) `rem` 60 = seconds `rem` 60)
    by (Z.quot_rem_to_equations; lia).
  by rewrite Hrem3600, Hrem60.
Qed.

Lemma formatTime_below_zero_witness :
  -5 ≤ 0 ∧ formatTime (-5 - 3600) = formatTime (-5).
Proof.
  assert (Hneg : -5 ≤ 0) by lia.
  split; [exact Hneg|].
  exact (proj2 (formatTime_below_zero (-5) Hneg)).
Defined.

End Clock.

(** * The total volumes and the arithmetic of JavaScript *)

Section Totals.
Context (A : Number.Arith).

Lemma fold_left_products {B} (f : B → Number.num A) (l : list B) (a : Number.num A) :
  fold_left (λ sum x, Number.add A sum (f x)) l a
  = fold_left (Number.add A) (f <$> l) a.
Proof. revert a. induction l as [|x l IH]; intros a; [done|]. simpl. apply IH. Qed.

Lemma totalVolume_exact (exs : list ExerciseData.t) :
  totalVolume exs = totalVolumeIn Number.exact exs.
Proof. reflexivity. Qed.


Lemma totalVolumeIn_sum (exs : list ExerciseData.t) :
  totalVolumeIn A exs
  = sumIn A ((λ ex, sumOfProducts A (loggedSummands (ExerciseData.sets ex))) <$> exs).
Proof.
  unfold totalVolumeIn, sumIn.
  rewrite (fold_left_products
             (λ ex, fold_left
                      (λ setSum s,
                         Number.add A setSum
                           (Number.mul A (Number.weight A (SetData.weight s))
                                         (Number.reps A (SetData.reps s))))
                      (filter (λ s, SetData.logged s = true) (ExerciseData.sets ex))
                      (Number.zero A))).
  f_equal. apply list_fmap_ext. intros _ ex _.
  unfold sumOfProducts, sumIn, loggedSummands. rewrite <- list_fmap_compose.
  apply (fold_left_products _ (filter _ (ExerciseData.sets ex))).
Qed.

Lemma viewSummands_cons ex exs :
  viewSummands (ex :: exs) = loggedSummands (ExerciseData.sets ex) ++ viewSummands exs.
Proof. reflexivity. Qed.

Lemma viewSummands_app l1 l2 :
  viewSummands (l1 ++ l2) = viewSummands l1 ++ viewSummands l2.
Proof. unfold viewSummands. apply bind_app. Qed.

Lemma loggedSummands_app s1 s2 :
  loggedSummands (s1 ++ s2) = loggedSummands s1 ++ loggedSummands s2.
Proof. unfold loggedSummands. by rewrite filter_app, fmap_app. Qed.




(** Sums in an arithmetic without rounding. *)
Section Exact.
Hypothesis Hexact : exactArith A.

Lemma add_zero_r a : Number.add A a (Number.zero A) = a.
Proof. destruct Hexact as (_ & Hcomm & Hzero). by rewrite Hcomm. Qed.

Lemma fold_left_add_from (l : list (Number.num A)) (a : Number.num A) :
  fold_left (Number.add A) l a = Number.add A a (sumIn A l).
Proof.
  destruct Hexact as (Hassoc & Hcomm & Hzero). unfold sumIn.
  revert a. induction l as [|x l IH]; intros a; simpl.
  - by rewrite add_zero_r.
  - rewrite (IH (Number.add A a x)), (IH (Number.add A (Number.zero A) x)).
    by rewrite Hzero, Hassoc.
Qed.

Lemma sumIn_cons x l : sumIn A (x :: l) = Number.add A x (sumIn A l).
Proof.
  destruct Hexact as (_ & _ & Hzero). unfold sumIn at 1. simpl.
  by rewrite Hzero, fold_left_add_from.
Qed.

Lemma sumIn_app l1 l2 : sumIn A (l1 ++ l2) = Number.add A (sumIn A l1) (sumIn A l2).
Proof.
  destruct Hexact as (Hassoc & _ & Hzero).
  induction l1 as [|x l1 IH]; [by rewrite Hzero|].
  by rewrite <- app_comm_cons, !sumIn_cons, IH, Hassoc.
Qed.


Lemma totalVolumeIn_flat (exs : list ExerciseData.t) :
  totalVolumeIn A exs = sumOfProducts A (viewSummands exs).
Proof.
  rewrite totalVolumeIn_sum. unfold sumOfProducts.
  induction exs as [|ex exs IH]; [done|].
  by rewrite fmap_cons, sumIn_cons, IH, viewSummands_cons, fmap_app, sumIn_app.
Qed.

End Exact.


End Totals.



(** * Logging a set and the totals *)

(** X9. Logging an unlogged set of a view whose exercise ids, and the set
    numbers of each exercise, are pairwise distinct, with positive weight and
    repetitions, when the request goes through: the request carries the
    exercise, the number, the weight and the repetitions of the set; in the
    view exactly that entry becomes logged; the count of logged sets grows by
    one; and the products that the total volume adds are those of before
    with weight times repetitions of this set put in at the place of the set,
    so that in an arithmetic without rounding the total grows by that
    product. When the request fails it has been sent all the same and the
    page stays as it was. *)
Theorem handleLogSet_accounting
    (workoutId : string) (st : State) (ex : ExerciseData.t) (set : SetData.t) :
  viewOk (exercises st) →
  ex ∈ exercises st → set ∈ ExerciseData.sets ex → SetData.logged set = false →
  0 < SetData.weight set → 0 < SetData.reps set →
  let call :=
    CallLogSet workoutId
      (SetLog.mk (ExerciseData.exercise_id ex) (SetData.set_number set)
                 (SetData.weight set) (SetData.reps set) None) in
  let done :=
    handleLogSet workoutId st (ExerciseData.exercise_id ex) set (Resolved ()) in
  done.2 = [call]
  ∧ (∃ e1 e2 s1 s2,
       exercises st = e1 ++ ex :: e2 ∧ ExerciseData.sets ex = s1 ++ set :: s2 ∧
       exercises done.1
       = e1 ++ ExerciseData.with_sets (s1 ++ SetData.with_logged true set :: s2) ex
            :: e2 ∧
       viewSummands (exercises st)
       = viewSummands e1 ++ (loggedSummands s1 ++ loggedSummands s2)
           ++ viewSummands e2 ∧
       viewSummands (exercises done.1)
       = viewSummands e1
           ++ (loggedSummands s1
                 ++ (SetData.weight set, SetData.reps set) :: loggedSummands s2)
           ++ viewSummands e2)
  ∧ totalSetsLogged (exercises done.1) = totalSetsLogged (exercises st) + 1
  ∧ (∀ A : Number.Arith,
       exactArith A →
       totalVolumeIn A (exercises done.1)
       = Number.add A (totalVolumeIn A (exercises st))
                      (productIn A (SetData.weight set, SetData.reps set)))
  ∧ (∀ reason,
       handleLogSet workoutId st (ExerciseData.exercise_id ex) set (Rejected reason)
       = (st, [call])).
Proof.
  intros [Hids Hsets] Hex Hset Hunlogged Hw Hr call done.
  subst done call. unfold handleLogSet. rewrite decide_False by lia.
  cbn [fst snd].
  rewrite Forall_forall in Hsets. specialize (Hsets ex Hex).
  destruct (keyed_update SetData.set_number (SetData.with_logged true)
              (ExerciseData.sets ex) set Hsets Hset) as (s1 & s2 & Hsplit & Hmapped).
  rewrite mapExercise_keyed.
  destruct (keyed_update ExerciseData.exercise_id
              (λ ex0, ExerciseData.with_sets
                        (mapSet (SetData.set_number set) (SetData.with_logged true)
                                (ExerciseData.sets ex0)) ex0)
              (exercises st) ex Hids Hex) as (e1 & e2 & Hview & Hupdated).
  cbn [set_exercises exercises].
  rewrite Hupdated. rewrite (mapSet_keyed _ _ _ set eq_refl), Hmapped.
  assert (Hbefore : viewSummands (exercises st)
                    = viewSummands e1 ++ (loggedSummands s1 ++ loggedSummands s2)
                        ++ viewSummands e2).
  { rewrite Hview, viewSummands_app, viewSummands_cons, Hsplit. do 2 f_equal.
    rewrite loggedSummands_app. f_equal. unfold loggedSummands.
    by rewrite filter_cons_False by congruence. }
  assert (Hafter : viewSummands
                     (e1 ++ ExerciseData.with_sets
                              (s1 ++ SetData.with_logged true set :: s2) ex :: e2)
                   = viewSummands e1
                       ++ (loggedSummands s1
                             ++ (SetData.weight set, SetData.reps set)
                                  :: loggedSummands s2)
                       ++ viewSummands e2).
  { rewrite viewSummands_app, viewSummands_cons. do 2 f_equal.
    cbn [ExerciseData.with_sets ExerciseData.sets].
    rewrite loggedSummands_app. by f_equal. }
  split; [done|]. split; [by exists e1, e2, s1, s2|].
  split; [|split; [|intros reason; by rewrite decide_False by lia]].
  - rewrite Hview, !totalSetsLogged_app, !totalSetsLogged_cons. simpl.
    rewrite Hsplit, !filter_app, !length_app.
    rewrite filter_cons_True by done.
    rewrite (filter_cons_False _ set) by congruence. simpl. lia.
  - intros A Hexact. rewrite !(totalVolumeIn_flat A Hexact), Hbefore, Hafter.
    unfold sumOfProducts.
    rewrite !fmap_app, fmap_cons, !(sumIn_app A Hexact), (sumIn_cons A Hexact).
    destruct Hexact as (Hassoc & Hcomm & _).
    set (a := sumIn A (productIn A <$> viewSummands e1)).
    set (b := sumIn A (productIn A <$> loggedSummands s1)).
    set (c := sumIn A (productIn A <$> loggedSummands s2)).
    set (d := sumIn A (productIn A <$> viewSummands e2)).
    set (x := productIn A (SetData.weight set, SetData.reps set)).
    rewrite (Hcomm x c), !Hassoc.
    rewrite <- (Hassoc (Number.add A (Number.add A a b) c) x d), (Hcomm x d).
    by rewrite !Hassoc.
Qed.

Lemma handleLogSet_accounting_witness :
  let st := updateSet (updateSet
              (set_exercises (ExampleAB.view (λ _, Resolved [])) initialState)
              "A" 1 FieldWeight 60) "A" 1 FieldReps 5 in
  let set := SetData.mk None 1 60 5 None false in
  totalSetsLogged (exercises (handleLogSet "w1" st "A" set (Resolved ())).1)
  = totalSetsLogged (exercises st) + 1.
Proof.
  intros st set.
  assert (Hview : viewOk (exercises st)).
  { split; [apply (bool_decide_unpack _); vm_compute; exact I|].
    repeat (apply Forall_cons; split;
            [apply (bool_decide_unpack _); vm_compute; exact I|]).
    apply Forall_nil_2. }
  assert (Hw : 0 < SetData.weight set) by (simpl; lia).
  assert (Hr : 0 < SetData.reps set) by (simpl; lia).
  destruct (handleLogSet_accounting "w1" st
              (ExerciseData.mk "A" "Squat"
                 [set; SetData.mk None 2 0 0 None false;
                  SetData.mk None 3 0 0 None false] None true) set
              Hview (list_elem_of_here _ _) (list_elem_of_here _ _) eq_refl Hw Hr)
    as (_ & _ & Hcount & _).
  exact Hcount.
Defined.

(** * A search that is answered late *)

(** [handleSearch] is its two halves when nothing runs in between. *)
Lemma handleSearch_begin_resume (st : State) (query : string)
    (searchExercises : promise (list Exercise.t)) :
  handleSearch st query searchExercises
  = match handleSearch_begin st query with
    | (st1, Some flight, calls) =>
        (handleSearch_resume st1 flight searchExercises, calls)
    | (st1, None, calls) => (st1, calls)
    end.
Proof. unfold handleSearch, handleSearch_begin. by case_decide. Qed.

(** C10, at the failing input. The view of the example session has distinct
    exercises. Both searches are sent, each holding the exercises A and B of
    the render in which it was typed. After the answer to the second, C is
    offered and added. The answer to the first is filtered against A and B
    only, so C is offered again although it is in the view, and adding it
    leaves the view with the exercise ids A, B, C, C. *)
Theorem overlapping_searches_duplicate_exercise :
  viewOk (exercises Overlap.opened)
  ∧ Overlap.typedRo.1.2 = Some (mkSearchInFlight (exercises Overlap.opened))
  ∧ Overlap.typedRow.1.2 = Some (mkSearchInFlight (exercises Overlap.opened))
  ∧ (searching Overlap.answeredRow = false ∧
     searchResults Overlap.answeredRow = [Run.barbellRow])
  ∧ ExerciseData.exercise_id <$> exercises Overlap.added = ["A"; "B"; "C"]
  ∧ (showAddExercise Overlap.reopened = true ∧
     searching Overlap.reopened = false ∧
     searchResults Overlap.reopened = [Run.barbellRow])
  ∧ ExerciseData.exercise_id <$> exercises Overlap.addedAgain = ["A"; "B"; "C"; "C"]
  ∧ ¬ viewOk (exercises Overlap.addedAgain).
Proof.
  assert (Hids : ExerciseData.exercise_id <$> exercises Overlap.addedAgain
                 = ["A"; "B"; "C"; "C"]) by (vm_compute; reflexivity).
  split_and!; try (vm_compute; reflexivity).
  - split; [apply (bool_decide_unpack _); vm_compute; exact I|].
    repeat (apply Forall_cons; split;
            [apply (bool_decide_unpack _); vm_compute; exact I|]).
    apply Forall_nil_2.
  - intros [Hnd _]. rewrite Hids in Hnd.
    apply (bool_decide_pack _) in Hnd. vm_compute in Hnd. exact Hnd.
Qed.
